(** * xorfs: the XOR backup filesystem

    A shallow embedding of [xorfs.c]: the file-name parser and the loading of
    the source directory ([xorfs_open_source_files]), the two look-ups over
    the loaded table, and the reconstruction of a backup by reading a chain
    of xored images ([xorfs_read_plain], [xorfs_read_backup]).

    Platform conventions (Linux, LP64, glibc): [int] and [unsigned int] are
    32 bits wide, [long], [size_t] and [off_t] 64 bits, [uintmax_t] is 8
    bytes; conversions to a narrower integer type wrap around.

    What the embedding leaves out: allocations ([malloc], [realloc],
    [strdup]) are taken to succeed, so the return values 2 and [-ENOMEM]
    do not occur; logging, the debug file and the directory stream are not
    represented. *)

From Stdlib Require Import ZArith List Lia Bool Ascii String.
From coqutil Require Import Byte Word.LittleEndianList Z.bitblast.
Import ListNotations.

Local Open Scope Z_scope.

(** ** Machine integers *)

Definition INT_MAX : Z := 2147483647.
Definition LONG_MAX : Z := 9223372036854775807.
Definition LONG_MIN : Z := -9223372036854775808.

(** Conversion to [int]: wraps into [-2^31, 2^31). *)
Definition to_int (z : Z) : Z := (z + 2 ^ 31) mod 2 ^ 32 - 2 ^ 31.

(** Conversion to [unsigned int]: reduces modulo [2^32]. *)
Definition to_unsigned_int (z : Z) : Z := z mod 2 ^ 32.

(** [errno] values used as negated return codes. *)
Definition ENOENT : Z := 2.
Definition EIO : Z := 5.
Definition ENOMEM : Z := 12.
Definition EINVAL : Z := 22.

(** ** Buffers and the two xoring loops of [xorfs_read_backup] *)

Definition buffer := list byte.

(** [sizeof (uintmax_t)] *)
Definition uintmax_size : Z := 8.

(** The cell [i] of [buf] seen as an array of [uintmax_t], read as an
    rvalue (little endian). *)
Definition load_uintmax (buf : buffer) (i : nat) : Z :=
  le_combine (firstn 8 (skipn (8 * i) buf)).

(** Assignment of [w] to the cell [i] of [buf] seen as an array of
    [uintmax_t]. *)
Definition store_uintmax (buf : buffer) (i : nat) (w : Z) : buffer :=
  firstn (8 * i) buf ++ le_split 8 w ++ skipn (8 * i + 8) buf.

(** [buf[i] = b] *)
Definition store_byte (buf : buffer) (i : nat) (b : byte) : buffer :=
  firstn i buf ++ b :: skipn (i + 1) buf.

(** [buf[i]] read as an rvalue. *)
Definition load_byte (buf : buffer) (i : nat) : byte :=
  nth i buf Byte.x00.

(** [while (i < size_in_uintmax_chunks) { first[i] ^= second[i]; i++; }]
    over [uintmax_t] cells; [todo] is the number of iterations left. *)
Fixpoint xor_uintmax_loop (todo i : nat) (first_buffer second_buffer : buffer)
  : buffer :=
  match todo with
  | O => first_buffer
  | S todo' =>
      xor_uintmax_loop todo' (S i)
        (store_uintmax first_buffer i
           (Z.lxor (load_uintmax first_buffer i) (load_uintmax second_buffer i)))
        second_buffer
  end.

(** [while (i < size) { first_buffer[i] ^= second_buffer[i]; i++; }] *)
Fixpoint xor_byte_loop (todo i : nat) (first_buffer second_buffer : buffer)
  : buffer :=
  match todo with
  | O => first_buffer
  | S todo' =>
      xor_byte_loop todo' (S i)
        (store_byte first_buffer i
           (byte.xor (load_byte first_buffer i) (load_byte second_buffer i)))
        second_buffer
  end.

(** The branch taken when [size % uintmax_size == 0]:
    [int size_in_uintmax_chunks = size / uintmax_size; int i = 0; while ...] *)
Definition xor_uintmax_chunks (size : nat) (first_buffer second_buffer : buffer)
  : buffer :=
  let size_in_uintmax_chunks := to_int (Z.of_nat size / uintmax_size) in
  xor_uintmax_loop (Z.to_nat size_in_uintmax_chunks) 0 first_buffer second_buffer.

(** The other branch: [int i = 0; while (i < size) ...]. *)
Definition xor_byte_by_byte (size : nat) (first_buffer second_buffer : buffer)
  : buffer :=
  xor_byte_loop size 0 first_buffer second_buffer.

(** The block "Xor buffers" of [xorfs_read_backup]. *)
Definition xor_buffers (size : nat) (first_buffer second_buffer : buffer)
  : buffer :=
  if Z.of_nat size mod uintmax_size =? 0
  then xor_uintmax_chunks size first_buffer second_buffer
  else xor_byte_by_byte size first_buffer second_buffer.

(** Position-wise xor of two byte strings, the meaning both loops are
    compared with. *)
Fixpoint xor_bytes (a b : list byte) : list byte :=
  match a, b with
  | x :: a', y :: b' => byte.xor x y :: xor_bytes a' b'
  | _, _ => []
  end.

(** ** Strings

    A C string is the list of its characters before the terminating NUL. *)

Definition cstring := list ascii.

Definition str (s : string) : cstring := list_ascii_of_string s.

(** [s[i]]: reading at the length of the string gives the terminator. *)
Definition char_at (s : cstring) (i : nat) : ascii := nth i s Ascii.zero.

(** [strcmp (a, b) == 0] *)
Fixpoint cstring_eqb (a b : cstring) : bool :=
  match a, b with
  | [], [] => true
  | x :: a', y :: b' => Ascii.eqb x y && cstring_eqb a' b'
  | _, _ => false
  end.

(** ** Outcomes of a call

    A call returns, or leaves the behaviour C defines (a NULL or dangling
    pointer is dereferenced, a closed stream is used), or the bounded
    evaluation of the model stops short of the call's end. *)

Inductive outcome (A : Type) : Type :=
| Returns (a : A)
| Undefined
| OutOfFuel.

Arguments Returns {A} a.
Arguments Undefined {A}.
Arguments OutOfFuel {A}.

(** ** stdio streams

    Every [FILE] pointer handed out by [fopen] is an index into the
    process's table of streams.  A stream has one file position indicator,
    shared by all its users. *)

Record stream : Type := {
  st_content : list byte;
  st_pos : Z;
  st_open : bool
}.

Definition FILE := nat.
Definition streams := list stream.

Definition set_pos (st : stream) (pos : Z) : stream :=
  {| st_content := st_content st; st_pos := pos; st_open := st_open st |}.

Definition set_closed (st : stream) : stream :=
  {| st_content := st_content st; st_pos := st_pos st; st_open := false |}.

Fixpoint update_stream (w : streams) (fp : FILE) (st : stream) : streams :=
  match w, fp with
  | [], _ => []
  | _ :: w', O => st :: w'
  | s :: w', S fp' => s :: update_stream w' fp' st
  end.

(** The stream behind [fp], if [fp] is a stream that is still open. *)
Definition live_stream (w : streams) (fp : FILE) : option stream :=
  match nth_error w fp with
  | Some st => if st_open st then Some st else None
  | None => None
  end.

(** [fseek (fp, offset, SEEK_SET)]: fails (with [EINVAL]) on a negative
    offset, and otherwise moves the position indicator, also beyond the end
    of the file. *)
Definition fseek (w : streams) (fp : FILE) (offset : Z) : outcome (Z * streams) :=
  match live_stream w fp with
  | None => Undefined
  | Some st =>
      if offset <? 0 then Returns (-1, w)
      else Returns (0, update_stream w fp (set_pos st offset))
  end.

(** The bytes [fread] obtains: at most [size] of them, from the position
    indicator on, as many as the file has. *)
Definition bytes_at (content : list byte) (pos : Z) (size : nat) : list byte :=
  firstn size (skipn (Z.to_nat pos) content).

(** [fread (buf, 1, size, fp)]: the bytes obtained overwrite the head of
    [buf], the position indicator advances by their number, which is
    returned. *)
Definition fread (w : streams) (fp : FILE) (buf : buffer) (size : nat)
  : outcome (Z * buffer * streams) :=
  match live_stream w fp with
  | None => Undefined
  | Some st =>
      let data := bytes_at (st_content st) (st_pos st) size in
      let n := List.length data in
      Returns (Z.of_nat n,
               data ++ skipn n buf,
               update_stream w fp (set_pos st (st_pos st + Z.of_nat n)))
  end.

(** [fclose (fp)] *)
Definition fclose (w : streams) (fp : FILE) : streams :=
  match nth_error w fp with
  | Some st => update_stream w fp (set_closed st)
  | None => w
  end.

(** ** The loaded table *)

Record file_stat : Type := {
  st_size : Z;
  st_mtime : Z
}.

(** [struct xorfs_backup]; the pointer [xor_against_source_file] points
    into the table of source files and is kept as the index it points at,
    [None] being NULL. *)
Record xorfs_backup : Type := {
  name : cstring;
  number : Z;
  xor_against_number : Z;
  xor_against_source_file : option nat;
  time : Z;
  output_file_name : cstring
}.

(** [struct xorfs_source_file]; its field [name] is [sf_name] here.  A NULL
    string is the empty string: the strings are read only once filled. *)
Record xorfs_source_file : Type := {
  sf_name : cstring;
  file_descriptor : option FILE;
  stat : file_stat;
  backup : xorfs_backup
}.

(** ** Reading *)

(** [xorfs_read_plain]: [fseek] then [fread] on the source file's stream;
    the count that [fread] returns is stored in an [int]. *)
Definition xorfs_read_plain (w : streams) (source_file : xorfs_source_file)
    (buf : buffer) (offset : Z) (size : nat) : outcome (Z * buffer * streams) :=
  match file_descriptor source_file with
  | None => Undefined
  | Some fp =>
      match fseek w fp offset with
      | Returns (fseek_result, w1) =>
          if fseek_result <? 0 then Returns (- EINVAL, buf, w1)
          else
            match fread w1 fp buf size with
            | Returns (n, buf', w2) => Returns (to_int n, buf', w2)
            | Undefined => Undefined
            | OutOfFuel => OutOfFuel
            end
      | Undefined => Undefined
      | OutOfFuel => OutOfFuel
      end
  end.

(** The block that [malloc (size)] returns: [size] bytes of unspecified
    content, [uninit depth i] being byte [i] of the block allocated at
    recursion depth [depth].  The allocation is taken to succeed. *)
Definition malloc (uninit : nat -> nat -> byte) (depth size : nat) : buffer :=
  map (uninit depth) (seq 0 size).

(** [xorfs_read_backup]: the recursion follows [xor_against_source_file] and
    is cut after [fuel] nested calls. *)
Fixpoint xorfs_read_backup (uninit : nat -> nat -> byte) (fuel : nat)
    (files : list xorfs_source_file) (w : streams)
    (source_file : xorfs_source_file) (buf : buffer) (offset : Z) (size : nat)
  : outcome (Z * buffer * streams) :=
  match fuel with
  | O => OutOfFuel
  | S fuel' =>
      match xorfs_read_plain w source_file buf offset size with
      | Returns (r, first_buffer, w1) =>
          if r <? 0 then Returns (r, first_buffer, w1)
          else
            let read_bytes := r in
            if xor_against_number (backup source_file) =? 0
            then Returns (read_bytes, first_buffer, w1)
            else
              let second_buffer := malloc uninit fuel' size in
              match xor_against_source_file (backup source_file) with
              | None => Undefined
              | Some p =>
                  match nth_error files p with
                  | None => Undefined
                  | Some xor_against =>
                      match xorfs_read_backup uninit fuel' files w1 xor_against
                              second_buffer offset (Z.to_nat read_bytes) with
                      | Returns (r2, second_buffer', w2) =>
                          if r2 <? 0 then Returns (r2, first_buffer, w2)
                          else if negb (r2 =? read_bytes)
                          then Returns (- EIO, first_buffer, w2)
                          else Returns (read_bytes,
                                        xor_buffers size first_buffer second_buffer',
                                        w2)
                      | Undefined => Undefined
                      | OutOfFuel => OutOfFuel
                      end
                  end
              end
      | Undefined => Undefined
      | OutOfFuel => OutOfFuel
      end
  end.

(** ** The C library's [strtol], base 10

    White space is skipped, an optional sign is taken, then the longest run
    of decimal digits.  Without a digit no conversion is performed: the
    result is 0, the end pointer is the start pointer and [errno] is left
    alone.  A value outside [long] is clamped and sets [errno] to
    [ERANGE]. *)

Definition is_digit (c : ascii) : bool :=
  let n := nat_of_ascii c in
  ((48 <=? n) && (n <=? 57))%nat.

Definition digit_value (c : ascii) : Z := Z.of_nat (nat_of_ascii c) - 48.

(** [isspace] in the C locale. *)
Definition isspace (c : ascii) : bool :=
  let n := nat_of_ascii c in
  ((n =? 32) || ((9 <=? n) && (n <=? 13)))%nat.

Fixpoint skip_spaces (s : cstring) : nat :=
  match s with
  | c :: s' => if isspace c then S (skip_spaces s') else O
  | [] => O
  end.

Fixpoint digit_run (s : cstring) : nat :=
  match s with
  | c :: s' => if is_digit c then S (digit_run s') else O
  | [] => O
  end.

Definition decimal_value (digits : cstring) : Z :=
  fold_left (fun acc c => 10 * acc + digit_value c) digits 0.

Record strtol_result : Type := {
  value : Z;        (* the [long] returned *)
  endptr : nat;     (* the end pointer, as an offset from the start pointer *)
  erange : bool     (* [errno] has been set to [ERANGE] *)
}.

Definition strtol (nptr : cstring) : strtol_result :=
  let spaces := skip_spaces nptr in
  let after_spaces := skipn spaces nptr in
  let '(negative, sign) :=
    match after_spaces with
    | c :: _ =>
        if Ascii.eqb c "-" then (true, 1%nat)
        else if Ascii.eqb c "+" then (false, 1%nat)
        else (false, O)
    | [] => (false, O)
    end in
  let subject := skipn sign after_spaces in
  let n := digit_run subject in
  if (n =? 0)%nat
  then {| value := 0; endptr := O; erange := false |}
  else
    let magnitude := decimal_value (firstn n subject) in
    let v := if negative then - magnitude else magnitude in
    let e := (spaces + sign + n)%nat in
    if v >? LONG_MAX then {| value := LONG_MAX; endptr := e; erange := true |}
    else if v <? LONG_MIN then {| value := LONG_MIN; endptr := e; erange := true |}
    else {| value := v; endptr := e; erange := false |}.

(** [unsigned long int number = strtol (...); field = (int) number;] where
    the field is an [unsigned int]. *)
Definition long_to_field (v : Z) : Z :=
  to_unsigned_int (to_int (v mod 2 ^ 64)).

(** ** Parsing a source file name *)

Definition XORFS_SOURCE_FILE_EXTENSION : cstring := str ".xor".

(** The [do ... while (1)] loop that looks for the first digit; [rest] is
    the name from [first_number_offset] on. *)
Fixpoint find_first_number (rest : cstring) (first_number_offset : nat)
    (maximum_offset : Z) : option nat :=
  match rest with
  | [] => None
  | current_char :: rest' =>
      if is_digit current_char then Some first_number_offset
      else if Z.of_nat first_number_offset =? maximum_offset then None
      else find_first_number rest' (S first_number_offset) maximum_offset
  end.

Inductive parse_result : Type :=
| ParseOk (backup_info : xorfs_backup)
| ParseError (return_value : Z)
| ParseCrash.

(** The block "Parse file name" with the construction of the output file
    name.  A name that starts with a digit makes [name_end_offset] negative:
    [strncpy] is then asked for [SIZE_MAX] bytes into an empty block, and
    the process does not survive it ([ParseCrash]). *)
Definition parse_file_name (file_name : cstring) : parse_result :=
  let maximum_offset := Z.of_nat (List.length file_name) - 1 in
  match find_first_number file_name 0 maximum_offset with
  | None => ParseError 5
  | Some first_number_offset =>
      let name_end_offset := Z.of_nat first_number_offset - 1 in
      if name_end_offset <? 0 then ParseCrash
      else
        let backup_name := firstn (Z.to_nat name_end_offset) file_name in
        let first := strtol (skipn first_number_offset file_name) in
        let xOrDot := (first_number_offset + endptr first)%nat in
        let backup_number := long_to_field (value first) in
        let finish (against : Z) (dot : nat) : parse_result :=
          if negb (Ascii.eqb (char_at file_name dot) ".") then ParseError 5
          else
            ParseOk {| name := backup_name;
                       number := backup_number;
                       xor_against_number := against;
                       xor_against_source_file := None;
                       time := 0;
                       output_file_name := firstn xOrDot file_name ++ str ".dat" |} in
        if Ascii.eqb (char_at file_name xOrDot) "x" then
          let second := strtol (skipn (xOrDot + 1) file_name) in
          if erange second then ParseError 5
          else finish (long_to_field (value second)) (xOrDot + 1 + endptr second)%nat
        else if Ascii.eqb (char_at file_name xOrDot) "." then
          finish 0 xOrDot
        else ParseError 5
  end.

(** ** The source directory *)

Inductive d_type_t : Type := DT_REG | DT_UNKNOWN | DT_DIR | DT_LNK | DT_OTHER.

(** What [fopen] and [fstat] find behind a directory entry. *)
Record disk_file : Type := {
  df_content : list byte;
  df_stat : option file_stat      (* [None]: [fstat] fails *)
}.

Record dirent : Type := {
  d_name : cstring;
  d_type : d_type_t;
  d_file : option disk_file       (* [None]: [fopen] fails *)
}.

(** The block "Filter out unwanted entries": [true] when the entry is
    passed over. *)
Definition ignored (entry : dirent) : bool :=
  match d_type entry with
  | DT_REG | DT_UNKNOWN =>
      let last_four_characters :=
        Z.of_nat (List.length (d_name entry))
        - Z.of_nat (List.length XORFS_SOURCE_FILE_EXTENSION) in
      (last_four_characters <=? 0)
      || negb (cstring_eqb (skipn (Z.to_nat last_four_characters) (d_name entry))
                 XORFS_SOURCE_FILE_EXTENSION)
  | _ => true
  end.

(** ** The process state: the global table and the open streams *)

(** What a pointer to a heap array refers to. *)
Inductive block (A : Type) : Type :=
| Null
| Live (cells : list A)
| Freed.

Arguments Null {A}.
Arguments Live {A} cells.
Arguments Freed {A}.

(** [struct xorfs_source_files] *)
Record xorfs_source_files_t : Type := {
  count : nat;
  files : block xorfs_source_file
}.

Record process : Type := {
  xorfs_source_files : xorfs_source_files_t;
  open_streams : streams
}.

(** The entries that can be reached through the global table. *)
Definition reachable_entries (p : process) : list xorfs_source_file :=
  match files (xorfs_source_files p) with
  | Live cells => cells
  | _ => []
  end.

(** ** The two look-ups, as loops over the table *)

Fixpoint by_file_name_from (cells : list xorfs_source_file) (index : nat)
    (requested_name : cstring) : option nat :=
  match cells with
  | [] => None
  | source_file :: cells' =>
      if cstring_eqb (output_file_name (backup source_file)) requested_name
      then Some index
      else by_file_name_from cells' (S index) requested_name
  end.

(** [xorfs_get_source_file_by_file_name]: the index of the entry pointed at,
    [None] for NULL. *)
Definition xorfs_get_source_file_by_file_name (cells : list xorfs_source_file)
    (requested_name : cstring) : option nat :=
  by_file_name_from cells 0 requested_name.

Fixpoint by_backup_name_and_number_from (cells : list xorfs_source_file)
    (index : nat) (requested_name : cstring) (requested_number : Z) : option nat :=
  match cells with
  | [] => None
  | source_file :: cells' =>
      if (number (backup source_file) =? requested_number)
         && cstring_eqb (name (backup source_file)) requested_name
      then Some index
      else by_backup_name_and_number_from cells' (S index)
             requested_name requested_number
  end.

(** [get_source_file_by_backup_name_and_number] *)
Definition get_source_file_by_backup_name_and_number
    (cells : list xorfs_source_file) (requested_name : cstring)
    (requested_number : Z) : option nat :=
  by_backup_name_and_number_from cells 0 requested_name requested_number.

(** ** Loading the source directory *)

Definition set_time (b : xorfs_backup) (t : Z) : xorfs_backup :=
  {| name := name b; number := number b;
     xor_against_number := xor_against_number b;
     xor_against_source_file := xor_against_source_file b;
     time := t; output_file_name := output_file_name b |}.

Definition set_link (source_file : xorfs_source_file) (link : option nat)
  : xorfs_source_file :=
  let b := backup source_file in
  {| sf_name := sf_name source_file;
     file_descriptor := file_descriptor source_file;
     stat := stat source_file;
     backup := {| name := name b; number := number b;
                  xor_against_number := xor_against_number b;
                  xor_against_source_file := link;
                  time := time b; output_file_name := output_file_name b |} |}.

(** The block "Safe-fill the structure". *)
Definition safe_filled : xorfs_source_file :=
  {| sf_name := [];
     file_descriptor := None;
     stat := {| st_size := 0; st_mtime := 0 |};
     backup := {| name := []; number := 0; xor_against_number := 0;
                  xor_against_source_file := None; time := 0;
                  output_file_name := [] |} |}.

(** [fopen (file_path, "r")] on an existing file: a new stream. *)
Definition fopen (w : streams) (f : disk_file) : FILE * streams :=
  (List.length w,
   w ++ [{| st_content := df_content f; st_pos := 0; st_open := true |}]).

Inductive load_step : Type :=
| Loaded (w : streams) (new_source_file : xorfs_source_file)
| LoadFailed (return_value : Z) (w : streams) (new_source_file : xorfs_source_file)
| LoadCrashed.

(** The block "Fill the new struct xorfs_source_file" for one directory
    entry.  On a failure the new cell is left as filled so far; only its
    stream matters to the clean-up. *)
Definition load_source_file (w : streams) (entry : dirent) : load_step :=
  let file_name := d_name entry in
  match d_file entry with
  | None => LoadFailed 3 w safe_filled
  | Some f =>
      let '(fp, w1) := fopen w f in
      let opened :=
        {| sf_name := file_name; file_descriptor := Some fp;
           stat := stat safe_filled; backup := backup safe_filled |} in
      match df_stat f with
      | None => LoadFailed 4 w1 opened
      | Some s =>
          let statted :=
            {| sf_name := file_name; file_descriptor := Some fp;
               stat := s; backup := backup safe_filled |} in
          match parse_file_name file_name with
          | ParseError return_value => LoadFailed return_value w1 statted
          | ParseCrash => LoadCrashed
          | ParseOk backup_info =>
              Loaded w1
                {| sf_name := file_name; file_descriptor := Some fp;
                   stat := s; backup := set_time backup_info (st_mtime s) |}
          end
      end
  end.

Inductive load_result : Type :=
| AllLoaded (w : streams) (cells : list xorfs_source_file)
| LoadAborted (return_value : Z) (w : streams) (cells : list xorfs_source_file)
| LoadKilled.

(** The loop [while (entry = readdir (source_directory))]; [cells] is the
    table grown so far, one cell per entry not passed over. *)
Fixpoint load_entries (w : streams) (cells : list xorfs_source_file)
    (directory : list dirent) : load_result :=
  match directory with
  | [] => AllLoaded w cells
  | entry :: directory' =>
      if ignored entry then load_entries w cells directory'
      else
        match load_source_file w entry with
        | Loaded w1 new_source_file =>
            load_entries w1 (cells ++ [new_source_file]) directory'
        | LoadFailed return_value w1 new_source_file =>
            LoadAborted return_value w1 (cells ++ [new_source_file])
        | LoadCrashed => LoadKilled
        end
  end.

Fixpoint update_cell (cells : list xorfs_source_file) (index : nat)
    (source_file : xorfs_source_file) : list xorfs_source_file :=
  match cells, index with
  | [], _ => []
  | _ :: cells', O => source_file :: cells'
  | c :: cells', S index' => c :: update_cell cells' index' source_file
  end.

(** The block "Check backup links and fill the pointers": a [for] loop over
    the table that writes each cell's link in place; [todo] cells are
    left.  The result is the return value (0 when the loop runs to its
    end, 6 when a link is missing) and the table. *)
Fixpoint check_backup_links (todo index : nat) (cells : list xorfs_source_file)
  : Z * list xorfs_source_file :=
  match todo with
  | O => (0, cells)
  | S todo' =>
      match nth_error cells index with
      | None => (0, cells)
      | Some source_file =>
          if xor_against_number (backup source_file) =? 0
          then check_backup_links todo' (S index)
                 (update_cell cells index (set_link source_file None))
          else
            match get_source_file_by_backup_name_and_number cells
                    (name (backup source_file))
                    (xor_against_number (backup source_file)) with
            | Some xor_against =>
                check_backup_links todo' (S index)
                  (update_cell cells index (set_link source_file (Some xor_against)))
            | None => (6, cells)
            end
      end
  end.

(** [xorfs_close_source_files]: every cell's stream is closed when the cell
    has one, then the table is freed.  The count is left as it is. *)
Definition close_cell (w : streams) (source_file : xorfs_source_file) : streams :=
  match file_descriptor source_file with
  | Some fp => fclose w fp
  | None => w
  end.

Definition xorfs_close_source_files (w : streams)
    (cells : list xorfs_source_file) : process :=
  {| xorfs_source_files := {| count := List.length cells; files := Freed |};
     open_streams := fold_left close_cell cells w |}.

(** The state the process starts in: [xorfs_source_files = { 0, NULL }]. *)
Definition initial_process : process :=
  {| xorfs_source_files := {| count := O; files := Null |};
     open_streams := [] |}.

(** [xorfs_open_source_files]; [directory] is what [opendir] and [readdir]
    give, [None] when [opendir] fails.  The result is the return value and
    the state of the process. *)
Definition xorfs_open_source_files (directory : option (list dirent))
  : outcome (Z * process) :=
  match directory with
  | None => Returns (1, initial_process)
  | Some entries =>
      match load_entries [] [] entries with
      | LoadKilled => Undefined
      | LoadAborted return_value w cells =>
          Returns (return_value, xorfs_close_source_files w cells)
      | AllLoaded w cells =>
          match check_backup_links (List.length cells) 0 cells with
          | (0, linked) =>
              Returns (0, {| xorfs_source_files :=
                               {| count := List.length linked; files := Live linked |};
                             open_streams := w |})
          | (return_value, cells') =>
              Returns (return_value, xorfs_close_source_files w cells')
          end
      end
  end.

(** ** [main] *)

Inductive main_result : Type :=
| Exits (code : Z) (p : process)     (* [return 1]: [fuse_main] is never entered *)
| Serves (p : process)               (* [fuse_main] runs over the loaded table *)
| Killed.

Definition main (directory : option (list dirent)) : main_result :=
  match xorfs_open_source_files directory with
  | Returns (return_value, p) =>
      if negb (return_value =? 0) then Exits 1 p else Serves p
  | _ => Killed
  end.

(** [xorfs_operation_read] on a path other than the debug file's;
    [requested_name] is the path without its leading slash. *)
Definition xorfs_operation_read (uninit : nat -> nat -> byte) (fuel : nat)
    (p : process) (requested_name : cstring) (buf : buffer) (size : nat)
    (offset : Z) : outcome (Z * buffer * streams) :=
  let cells := reachable_entries p in
  match xorfs_get_source_file_by_file_name cells requested_name with
  | None => Returns (- ENOENT, buf, open_streams p)
  | Some index =>
      match nth_error cells index with
      | None => Undefined
      | Some source_file =>
          xorfs_read_backup uninit fuel cells (open_streams p) source_file
            buf offset size
      end
  end.

(** ** Two requests on one stream

    [fuse_main] serves requests on several threads.  Each stdio call is
    atomic (the stream is locked for its duration); a request running
    [xorfs_read_plain] is therefore at one of three points. *)

Inductive read_plain_pc : Type :=
| BeforeSeek
| BeforeRead
| Returned (r : Z)
| Faulted.

Record request : Type := {
  rq_source_file : xorfs_source_file;
  rq_buffer : buffer;
  rq_offset : Z;
  rq_size : nat;
  rq_pc : read_plain_pc
}.

Definition new_request (source_file : xorfs_source_file) (buf : buffer)
    (offset : Z) (size : nat) : request :=
  {| rq_source_file := source_file; rq_buffer := buf; rq_offset := offset;
     rq_size := size; rq_pc := BeforeSeek |}.

Definition at_pc (rq : request) (buf : buffer) (pc : read_plain_pc) : request :=
  {| rq_source_file := rq_source_file rq; rq_buffer := buf;
     rq_offset := rq_offset rq; rq_size := rq_size rq; rq_pc := pc |}.

(** The next stdio call of a request, as [xorfs_read_plain] makes it. *)
Definition step_request (w : streams) (rq : request) : streams * request :=
  match file_descriptor (rq_source_file rq) with
  | None => (w, at_pc rq (rq_buffer rq) Faulted)
  | Some fp =>
      match rq_pc rq with
      | BeforeSeek =>
          match fseek w fp (rq_offset rq) with
          | Returns (fseek_result, w1) =>
              if fseek_result <? 0
              then (w1, at_pc rq (rq_buffer rq) (Returned (- EINVAL)))
              else (w1, at_pc rq (rq_buffer rq) BeforeRead)
          | _ => (w, at_pc rq (rq_buffer rq) Faulted)
          end
      | BeforeRead =>
          match fread w fp (rq_buffer rq) (rq_size rq) with
          | Returns (n, buf', w1) => (w1, at_pc rq buf' (Returned (to_int n)))
          | _ => (w, at_pc rq (rq_buffer rq) Faulted)
          end
      | _ => (w, rq)
      end
  end.

(** A schedule names, call after call, the request that runs next:
    [false] the first one, [true] the second. *)
Fixpoint run_schedule (schedule : list bool) (w : streams) (a b : request)
  : streams * request * request :=
  match schedule with
  | [] => (w, a, b)
  | false :: schedule' =>
      let '(w1, a1) := step_request w a in run_schedule schedule' w1 a1 b
  | true :: schedule' =>
      let '(w1, b1) := step_request w b in run_schedule schedule' w1 a b1
  end.

(** ** Notions used in the statements *)

(** [r] is the lowest index of [cells] whose entry satisfies [P], and is
    [None] when no entry does. *)
Definition lowest_match (P : xorfs_source_file -> Prop)
    (cells : list xorfs_source_file) (r : option nat) : Prop :=
  match r with
  | Some i =>
      (exists source_file, nth_error cells i = Some source_file /\ P source_file)
      /\ (forall j source_file,
             (j < i)%nat -> nth_error cells j = Some source_file -> ~ P source_file)
  | None =>
      forall j source_file, nth_error cells j = Some source_file -> ~ P source_file
  end.

(** The bytes of the file behind [fp], when [fp] is an open stream.  Reads
    depend on the table of streams through this and the position
    indicators only. *)
Definition content_of (w : streams) (fp : FILE) : option (list byte) :=
  option_map st_content (live_stream w fp).

(** [chain_to_base cells w source_file chain]: following the links from
    [source_file] reaches a plain image, every entry on the way has an open
    stream, and [chain] lists the stored bytes of the entries met, those of
    [source_file] first and those of the plain image last. *)
Inductive chain_to_base (cells : list xorfs_source_file) (w : streams)
  : xorfs_source_file -> list (list byte) -> Prop :=
| chain_plain source_file fp c :
    xor_against_number (backup source_file) = 0 ->
    file_descriptor source_file = Some fp ->
    content_of w fp = Some c ->
    chain_to_base cells w source_file [c]
| chain_xored source_file fp c p xor_against chain :
    xor_against_number (backup source_file) <> 0 ->
    file_descriptor source_file = Some fp ->
    content_of w fp = Some c ->
    xor_against_source_file (backup source_file) = Some p ->
    nth_error cells p = Some xor_against ->
    chain_to_base cells w xor_against chain ->
    chain_to_base cells w source_file (c :: chain).

(** Reconstruction as the specification words it, on the stored bytes of a
    chain alone: the bytes obtained from the entry itself, combined with
    the reconstruction of the same range, cut to their number, from the
    rest of the chain; fewer bytes from the rest are a mismatch. *)
Fixpoint spec_read (chain : list (list byte)) (offset : Z) (size : nat)
  : Z * list byte :=
  match chain with
  | [] => (0, [])
  | c :: rest =>
      let own := bytes_at c offset size in
      let n := Z.of_nat (List.length own) in
      match rest with
      | [] => (n, own)
      | _ :: _ =>
          let '(r, pred) := spec_read rest offset (List.length own) in
          if r <? 0 then (r, [])
          else if r <? n then (- EIO, [])
          else (n, xor_bytes own pred)
      end
  end.

(** The link that the check of the backup links gives an entry in the
    table [cells]: none for a plain image, the look-up's answer
    otherwise. *)
Definition resolved_link (cells : list xorfs_source_file)
    (source_file : xorfs_source_file) : option nat :=
  if xor_against_number (backup source_file) =? 0 then None
  else get_source_file_by_backup_name_and_number cells
         (name (backup source_file)) (xor_against_number (backup source_file)).

(** The entry is a xored image whose look-up finds nothing. *)
Definition link_missing (cells : list xorfs_source_file)
    (source_file : xorfs_source_file) : bool :=
  negb (xor_against_number (backup source_file) =? 0)
  && match get_source_file_by_backup_name_and_number cells
             (name (backup source_file))
             (xor_against_number (backup source_file)) with
     | Some _ => false
     | None => true
     end.

Definition relink (cells : list xorfs_source_file)
    (source_file : xorfs_source_file) : xorfs_source_file :=
  set_link source_file (resolved_link cells source_file).

(** The number of characters before the first decimal digit. *)
Fixpoint nondigit_run (s : cstring) : nat :=
  match s with
  | c :: s' => if is_digit c then O else S (nondigit_run s')
  | [] => O
  end.

(** The directory entries that are not passed over. *)
Definition accepted (directory : list dirent) : list dirent :=
  filter (fun entry => negb (ignored entry)) directory.

Definition closed (st : stream) : Prop := st_open st = false.

(** The file descriptors of the table are the streams opened, in order. *)
Definition descriptors_in_order (w : streams) (cells : list xorfs_source_file)
  : Prop :=
  map file_descriptor cells = map Some (seq 0 (List.length w)).

(** Every cell of the table is filled from the parse of its file name. *)
Definition filled_from_name (sf : xorfs_source_file) : Prop :=
  exists b, parse_file_name (sf_name sf) = ParseOk b
            /\ backup sf = set_time b (st_mtime (stat sf)).

(** Every stream of the table of streams belongs to a cell. *)
Definition all_owned (w : streams) (cells : list xorfs_source_file) : Prop :=
  forall fp, (fp < List.length w)%nat -> In (Some fp) (map file_descriptor cells).

(** ** Concrete data for the examples *)

Definition bytes (l : list Z) : list byte := map byte.of_Z l.

Definition stream_of (content : list byte) : stream :=
  {| st_content := content; st_pos := 0; st_open := true |}.

(** A loaded entry, as [xorfs_open_source_files] fills it. *)
Definition entry (file_name : string) (fp : FILE) (backup_name : string)
    (n against : Z) (link : option nat) (output : string) : xorfs_source_file :=
  {| sf_name := str file_name;
     file_descriptor := Some fp;
     stat := {| st_size := 0; st_mtime := 0 |};
     backup := {| name := str backup_name; number := n;
                  xor_against_number := against;
                  xor_against_source_file := link;
                  time := 0; output_file_name := str output |} |}.

(** A regular file of the source directory. *)
Definition regular (file_name : string) (content : list byte) : dirent :=
  {| d_name := str file_name; d_type := DT_REG;
     d_file := Some {| df_content := content;
                       df_stat := Some {| st_size := Z.of_nat (List.length content);
                                          st_mtime := 0 |} |} |}.

Definition zeroes (n : nat) : buffer := repeat Byte.x00 n.

Definition ex_uninit : nat -> nat -> byte := fun _ _ => Byte.xff.

(** A plain image [c-1.xor] storing [ex_B] and a xored image [c-2x1.xor]
    storing [ex_B xor ex_D], as the build leaves them. *)
Definition ex_B : list byte := bytes [1; 2; 3; 4; 5; 6; 7; 8].
Definition ex_D : list byte := bytes [9; 8; 7; 6; 5; 4; 3; 2].

Definition ex_plain : xorfs_source_file :=
  entry "c-1.xor" 0%nat "c" 1 0 None "c-1.dat".
Definition ex_xored : xorfs_source_file :=
  entry "c-2x1.xor" 1%nat "c" 2 1 (Some O) "c-2.dat".

Definition ex_cells : list xorfs_source_file := [ex_plain; ex_xored].
Definition ex_streams : streams :=
  [stream_of ex_B; stream_of (xor_bytes ex_B ex_D)].

(** Source directories. *)
Definition ex_chain_directory : list dirent :=
  [regular "c-1.xor" ex_B; regular "notes.txt" []; regular "c-2x1.xor" ex_D].

Definition ex_broken_directory : list dirent :=
  [regular "c-1.xor" ex_B; regular "c-2x3.xor" ex_D].

Definition ex_cyclic_directory : list dirent :=
  [regular "a-1x1.xor" ex_B].

Definition ex_same_output_directory : list dirent :=
  [regular "c-1.xor" ex_B; regular "c-2.xor" ex_B; regular "c-2x1.xor" ex_D].

Definition ex_duplicate_directory : list dirent :=
  [regular "a-1.xor" ex_B; regular "a-01.xor" ex_D].

Definition ex_no_second_number_directory : list dirent :=
  [regular "c-1x.xor" ex_B].

(** ** Notions used in the statements about file names *)

(** Every character is a decimal digit. *)
Definition all_digits (s : cstring) : bool := forallb is_digit s.

(** No character is a decimal digit. *)
Definition no_digit (s : cstring) : bool :=
  forallb (fun c => negb (is_digit c)) s.

(** ** Notions used in the statements about the loaded table *)

(** The cell [sf] and the stream [fp] of [w] are what loading the
    directory entry [entry] leaves: the file opened on stream [fp], still
    at position 0, the result of [fstat], and the fields parsed from the
    name, with the file's modification time as the backup's time. *)
Definition mirrors (w : streams) (fp : FILE) (entry : dirent)
    (sf : xorfs_source_file) : Prop :=
  exists f s b,
    d_file entry = Some f
    /\ df_stat f = Some s
    /\ parse_file_name (d_name entry) = ParseOk b
    /\ sf_name sf = d_name entry
    /\ file_descriptor sf = Some fp
    /\ stat sf = s
    /\ name (backup sf) = name b
    /\ number (backup sf) = number b
    /\ xor_against_number (backup sf) = xor_against_number b
    /\ output_file_name (backup sf) = output_file_name b
    /\ time (backup sf) = st_mtime s
    /\ nth_error w fp
       = Some {| st_content := df_content f; st_pos := 0; st_open := true |}.

(** What a read needs of the table: every entry has an open stream, and
    every xored image has a link that points into the table. *)
Definition readable_table (cells : list xorfs_source_file) (w : streams) : Prop :=
  forall sf,
    In sf cells ->
    (exists fp c, file_descriptor sf = Some fp /\ content_of w fp = Some c)
    /\ (xor_against_number (backup sf) <> 0 ->
        exists p target,
          xor_against_source_file (backup sf) = Some p
          /\ nth_error cells p = Some target).

(** The position-wise xor of several byte strings. *)
Fixpoint xor_all (l : list (list byte)) : list byte :=
  match l with
  | [] => []
  | [a] => a
  | a :: l' => xor_bytes a (xor_all l')
  end.

(** The file with bytes [c] has [n] bytes to give at [offset]. *)
Definition yields (c : list byte) (offset : Z) (n : nat) : Prop :=
  List.length (bytes_at c offset n) = n.

Definition yieldsb (offset : Z) (n : nat) (c : list byte) : bool :=
  (List.length (bytes_at c offset n) =? n)%nat.

(** ** The other operations *)

Definition XORFS_DEBUG_FILE_NAME : cstring := str "debug.info".
Definition XORFS_ROOT_PERMISSIONS : Z := 493.   (* 0755 *)
Definition XORFS_FILE_PERMISSIONS : Z := 420.   (* 0644 *)
Definition S_IFDIR : Z := 16384.                (* 0040000 *)
Definition S_IFREG : Z := 32768.                (* 0100000 *)

(** The fields of [struct stat] that [xorfs_operation_getattr] sets, or
    takes from the [struct stat] of the source file. *)
Record attributes : Type := {
  a_mode : Z;
  a_nlink : Z;
  a_uid : Z;
  a_gid : Z;
  a_size : Z;
  a_atime : Z;
  a_mtime : Z;
  a_ctime : Z
}.

(** What the operation asks of its environment: [time (NULL)], [getuid ()],
    [getgid ()] and the size that [lseek] finds for the debug file. *)
Record environment : Type := {
  now : Z;
  uid : Z;
  gid : Z;
  debug_file_size : Z
}.

(** The lines under "Common attributes". *)
Definition common_attributes (env : environment) (st : attributes) : attributes :=
  {| a_mode := a_mode st; a_nlink := a_nlink st;
     a_uid := uid env; a_gid := gid env;
     a_size := a_size st; a_atime := a_atime st;
     a_mtime := a_mtime st; a_ctime := a_ctime st |}.

(** [xorfs_operation_getattr]; [st] is the structure the caller passes.
    [path + 1] leaves the string when the path is empty. *)
Definition xorfs_operation_getattr (env : environment)
    (cells : list xorfs_source_file) (path : cstring) (st : attributes)
  : outcome (Z * attributes) :=
  if cstring_eqb path (str "/") then
    Returns (0, common_attributes env
                  {| a_mode := Z.lor S_IFDIR XORFS_ROOT_PERMISSIONS;
                     a_nlink := 2;
                     a_uid := a_uid st; a_gid := a_gid st;
                     a_size := a_size st; a_atime := a_atime st;
                     a_mtime := a_mtime st; a_ctime := a_ctime st |})
  else
    match path with
    | [] => Undefined
    | _ :: path_plus_1 =>
        if cstring_eqb path_plus_1 XORFS_DEBUG_FILE_NAME then
          Returns (0, common_attributes env
                        {| a_mode := Z.lor S_IFREG XORFS_FILE_PERMISSIONS;
                           a_nlink := 1;
                           a_uid := a_uid st; a_gid := a_gid st;
                           a_size := debug_file_size env;
                           a_atime := now env;
                           a_mtime := now env; a_ctime := now env |})
        else
          match xorfs_get_source_file_by_file_name cells path_plus_1 with
          | Some index =>
              match nth_error cells index with
              | Some source_file =>
                  Returns (0, common_attributes env
                                {| a_mode := Z.lor S_IFREG XORFS_FILE_PERMISSIONS;
                                   a_nlink := 1;
                                   a_uid := a_uid st; a_gid := a_gid st;
                                   a_size := st_size (stat source_file);
                                   a_atime := now env;
                                   a_mtime := time (backup source_file);
                                   a_ctime := time (backup source_file) |})
              | None => Undefined
              end
          | None => Returns (- ENOENT, st)
          end
    end.

(** [xorfs_operation_readdir]; the buffer is the list of the names handed
    to [filler], which is taken to store every one of them. *)
Definition xorfs_operation_readdir (cells : list xorfs_source_file)
    (path : cstring) (buf : list cstring) : Z * list cstring :=
  let buf1 := buf ++ [str "."; str ".."] in
  if cstring_eqb path (str "/") then
    (0, buf1 ++ map (fun sf => output_file_name (backup sf)) cells
             ++ [XORFS_DEBUG_FILE_NAME])
  else (- ENOENT, buf1).

(** [FUSE_OPT_KEY_NONOPT] of [fuse_opt.h]. *)
Definition FUSE_OPT_KEY_NONOPT : Z := -2.

(** [xorfs_process_argument]: the return value (0 to drop the argument,
    1 to keep it) and the global [xorfs_source_directory_path]. *)
Definition xorfs_process_argument (xorfs_source_directory_path : option cstring)
    (arg : cstring) (key : Z) : Z * option cstring :=
  match xorfs_source_directory_path with
  | None =>
      if key =? FUSE_OPT_KEY_NONOPT then (0, Some arg)
      else (1, xorfs_source_directory_path)
  | Some _ => (1, xorfs_source_directory_path)
  end.

(** The calls that [fuse_opt_parse] makes with this procedure: one per
    argument, in order, the argument being kept for [fuse_main] when the
    procedure returns 1. *)
Fixpoint process_arguments (xorfs_source_directory_path : option cstring)
    (args : list (cstring * Z)) : list (cstring * Z) * option cstring :=
  match args with
  | [] => ([], xorfs_source_directory_path)
  | (arg, key) :: args' =>
      let '(r, path1) := xorfs_process_argument xorfs_source_directory_path arg key in
      let '(kept, path2) := process_arguments path1 args' in
      (if r =? 1 then (arg, key) :: kept else kept, path2)
  end.

(** ** More concrete data *)

Definition ex_E : list byte := bytes [17; 34; 51; 68; 85; 102; 119; 136].

(** A chain of three entries and its streams; in [ex_streams3_short] the
    plain image has four bytes only. *)
Definition ex_xored3 : xorfs_source_file :=
  entry "c-3x2.xor" 2%nat "c" 3 2 (Some 1%nat) "c-3.dat".

Definition ex_cells3 : list xorfs_source_file := [ex_plain; ex_xored; ex_xored3].

Definition ex_streams3 : streams :=
  [stream_of ex_B; stream_of ex_D; stream_of ex_E].

Definition ex_streams3_short : streams :=
  [stream_of (firstn 4 ex_B); stream_of ex_D; stream_of ex_E].

(** An entry xored against itself. *)
Definition ex_self : xorfs_source_file :=
  entry "a-1x1.xor" 0%nat "a" 1 1 (Some O) "a-1.dat".

Definition ex_environment : environment :=
  {| now := 1700000000; uid := 1000; gid := 1000; debug_file_size := 120 |}.

Definition ex_attributes : attributes :=
  {| a_mode := 0; a_nlink := 0; a_uid := 0; a_gid := 0;
     a_size := 0; a_atime := 0; a_mtime := 0; a_ctime := 0 |}.


(** * Properties *)

(** ** The xoring loops *)

Section XorLoops.

Lemma xor_bytes_length (a b : list byte) :
  List.length (xor_bytes a b) = Nat.min (List.length a) (List.length b).
Proof.
  revert b; induction a as [|x a IH]; intros [|y b]; simpl; auto.
Qed.

Lemma xor_bytes_app (a1 a2 b1 b2 : list byte) :
  List.length a1 = List.length b1 ->
  xor_bytes (a1 ++ a2) (b1 ++ b2) = xor_bytes a1 b1 ++ xor_bytes a2 b2.
Proof.
  revert b1; induction a1 as [|x a1 IH]; intros [|y b1] H; simpl in *;
    try discriminate; auto.
  f_equal. apply IH. lia.
Qed.

Lemma xor_bytes_nil_r (a : list byte) : xor_bytes a [] = [].
Proof. destruct a; reflexivity. Qed.

(** One [uintmax_t] xor is the xor of its bytes. *)
Lemma le_split_lxor (a b : list byte) :
  List.length a = List.length b ->
  le_split (List.length a) (Z.lxor (le_combine a) (le_combine b)) = xor_bytes a b.
Proof.
  revert b; induction a as [|x a IH]; intros [|y b] H; simpl in H;
    try discriminate; [reflexivity|].
  change (le_split (List.length (x :: a)) ?w)
    with (byte.of_Z w :: le_split (List.length a) (Z.shiftr w 8)).
  change (le_combine (x :: a))
    with (Z.lor (byte.unsigned x) (Z.shiftl (le_combine a) 8)).
  change (le_combine (y :: b))
    with (Z.lor (byte.unsigned y) (Z.shiftl (le_combine b) 8)).
  change (xor_bytes (x :: a) (y :: b)) with (byte.xor x y :: xor_bytes a b).
  pose proof (byte.unsigned_range x) as Hx.
  pose proof (byte.unsigned_range y) as Hy.
  f_equal.
  - unfold byte.xor. apply byte.unsigned_inj.
    rewrite !byte.unsigned_of_Z. unfold byte.wrap.
    rewrite <- !Z.land_ones by lia.
    Z.bitblast. subst l.
    rewrite !(Z.testbit_neg_r _ (i - 8)) by lia.
    rewrite !orb_false_r. reflexivity.
  - rewrite <- IH by lia. f_equal.
    rewrite <- (byte.wrap_unsigned x), <- (byte.wrap_unsigned y).
    unfold byte.wrap. rewrite <- !Z.land_ones by lia.
    Z.bitblast.
Qed.


Lemma firstn_plus {A} (a b : nat) (l : list A) :
  firstn (a + b) l = firstn a l ++ firstn b (skipn a l).
Proof.
  revert l; induction a as [|a IH]; intros [|x l]; simpl; auto.
  - now rewrite firstn_nil.
  - now rewrite IH.
Qed.

Lemma firstn_length_app {A} (pre l : list A) (n : nat) :
  List.length pre = n -> firstn n (pre ++ l) = pre.
Proof.
  intros <-. rewrite firstn_app, Nat.sub_diag, firstn_all. simpl.
  apply app_nil_r.
Qed.

Lemma skipn_length_app {A} (pre l : list A) (n k : nat) :
  List.length pre = n -> skipn (n + k) (pre ++ l) = skipn k l.
Proof.
  intros <-. rewrite skipn_app.
  replace (List.length pre + k - List.length pre)%nat with k by lia.
  rewrite skipn_all2 by lia. reflexivity.
Qed.

Lemma nth_length_app {A} (pre l : list A) (n : nat) (x d : A) :
  List.length pre = n -> nth n (pre ++ x :: l) d = x.
Proof. intros <-. apply nth_middle. Qed.

Lemma xor_byte_loop_app (todo : nat) :
  forall pre cur spre second,
    List.length spre = List.length pre ->
    (todo <= List.length cur)%nat -> (todo <= List.length second)%nat ->
    xor_byte_loop todo (List.length pre) (pre ++ cur) (spre ++ second) =
    pre ++ xor_bytes (firstn todo cur) (firstn todo second) ++ skipn todo cur.
Proof.
  induction todo as [|todo IH]; intros pre cur spre second Hp Hc Hs.
  - reflexivity.
  - destruct cur as [|x cur]; [simpl in Hc; lia|].
    destruct second as [|y second]; [simpl in Hs; lia|].
    simpl in Hc, Hs. cbn [xor_byte_loop].
    unfold load_byte, store_byte.
    rewrite (nth_length_app pre cur _ x) by reflexivity.
    rewrite (nth_length_app spre second _ y) by assumption.
    rewrite firstn_length_app by reflexivity.
    rewrite (skipn_length_app pre (x :: cur) _ 1) by reflexivity.
    cbn [skipn firstn xor_bytes].
    replace (pre ++ byte.xor x y :: cur) with ((pre ++ [byte.xor x y]) ++ cur)
      by (rewrite <- app_assoc; reflexivity).
    replace (spre ++ y :: second) with ((spre ++ [y]) ++ second)
      by (rewrite <- app_assoc; reflexivity).
    replace (S (List.length pre)) with (List.length (pre ++ [byte.xor x y]))
      by (rewrite length_app; simpl; lia).
    rewrite IH by (rewrite ?length_app; simpl; lia).
    rewrite <- app_assoc. reflexivity.
Qed.

Lemma xor_uintmax_loop_app (todo : nat) :
  forall i pre cur spre second,
    List.length pre = (8 * i)%nat -> List.length spre = (8 * i)%nat ->
    (8 * todo <= List.length cur)%nat -> (8 * todo <= List.length second)%nat ->
    xor_uintmax_loop todo i (pre ++ cur) (spre ++ second) =
    pre ++ xor_bytes (firstn (8 * todo) cur) (firstn (8 * todo) second)
        ++ skipn (8 * todo) cur.
Proof.
  induction todo as [|todo IH]; intros i pre cur spre second Hp Hsp Hc Hs.
  - rewrite Nat.mul_0_r. reflexivity.
  - cbn [xor_uintmax_loop]. unfold load_uintmax, store_uintmax.
    replace (skipn (8 * i) (pre ++ cur)) with cur
      by (rewrite <- (Nat.add_0_r (8 * i)), skipn_length_app by assumption;
          reflexivity).
    replace (skipn (8 * i) (spre ++ second)) with second
      by (rewrite <- (Nat.add_0_r (8 * i)), skipn_length_app by assumption;
          reflexivity).
    rewrite skipn_length_app, firstn_length_app by assumption.
    assert (H8 : List.length (firstn 8 cur) = 8%nat)
      by (rewrite length_firstn; lia).
    assert (H8' : List.length (firstn 8 second) = 8%nat)
      by (rewrite length_firstn; lia).
    rewrite <- H8 at 1.
    rewrite le_split_lxor by lia.
    rewrite <- (firstn_skipn 8 second) at 2.
    rewrite !app_assoc.
    rewrite (IH (S i)); rewrite ?length_app, ?xor_bytes_length, ?length_skipn;
      try lia.
    replace (8 * S todo)%nat with (8 + 8 * todo)%nat by lia.
    rewrite !firstn_plus, xor_bytes_app by lia.
    rewrite skipn_skipn, <- !app_assoc.
    replace (8 * todo + 8)%nat with (8 + 8 * todo)%nat by lia.
    reflexivity.
Qed.

(** Each loop xors the first [size] bytes position-wise and leaves the rest
    of the first buffer as it was. *)
Lemma xor_byte_by_byte_spec (size : nat) (first second : buffer) :
  (size <= List.length first)%nat -> (size <= List.length second)%nat ->
  xor_byte_by_byte size first second =
  xor_bytes (firstn size first) (firstn size second) ++ skipn size first.
Proof.
  intros H1 H2. unfold xor_byte_by_byte.
  apply (xor_byte_loop_app size [] first [] second); auto.
Qed.

Lemma to_int_small (z : Z) : 0 <= z <= INT_MAX -> to_int z = z.
Proof.
  unfold to_int, INT_MAX. intros H.
  rewrite Z.mod_small; lia.
Qed.

Lemma xor_uintmax_chunks_spec (size : nat) (first second : buffer) :
  Z.of_nat size <= INT_MAX ->
  Z.of_nat size mod uintmax_size = 0 ->
  (size <= List.length first)%nat -> (size <= List.length second)%nat ->
  xor_uintmax_chunks size first second =
  xor_bytes (firstn size first) (firstn size second) ++ skipn size first.
Proof.
  unfold uintmax_size. intros Hmax Hmod H1 H2. unfold xor_uintmax_chunks.
  unfold uintmax_size.
  assert (Hs : Z.of_nat size = 8 * (Z.of_nat size / 8))
    by (apply Z.div_exact; lia).
  rewrite to_int_small by (unfold INT_MAX in *; lia).
  set (k := Z.to_nat (Z.of_nat size / 8)).
  assert (Hk : size = (8 * k)%nat) by (subst k; lia).
  rewrite Hk in H1, H2 |- *.
  apply (xor_uintmax_loop_app k 0 [] first [] second); auto.
Qed.

Lemma xor_buffers_spec (size : nat) (first second : buffer) :
  Z.of_nat size <= INT_MAX ->
  (size <= List.length first)%nat -> (size <= List.length second)%nat ->
  xor_buffers size first second =
  xor_bytes (firstn size first) (firstn size second) ++ skipn size first.
Proof.
  intros Hmax H1 H2. unfold xor_buffers.
  destruct (Z.eqb_spec (Z.of_nat size mod uintmax_size) 0) as [E|E].
  - now apply xor_uintmax_chunks_spec.
  - now apply xor_byte_by_byte_spec.
Qed.

(** C8. For buffers that hold at least [size] bytes, [size] within the
    range of [int]: when [size] is a multiple of the size of [uintmax_t],
    xoring in [uintmax_t] chunks gives the same buffer as xoring byte by
    byte; so the block that chooses between the two gives, for every size,
    what xoring byte by byte gives, the position-wise xor of the first
    [size] bytes. *)
Theorem chunked_xor_is_byte_by_byte_xor
    (size : nat) (first_buffer second_buffer : buffer) :
  Z.of_nat size <= INT_MAX ->
  (size <= List.length first_buffer)%nat ->
  (size <= List.length second_buffer)%nat ->
  (Z.of_nat size mod uintmax_size = 0 ->
   xor_uintmax_chunks size first_buffer second_buffer
   = xor_byte_by_byte size first_buffer second_buffer)
  /\ xor_buffers size first_buffer second_buffer
     = xor_byte_by_byte size first_buffer second_buffer
  /\ firstn size (xor_buffers size first_buffer second_buffer)
     = xor_bytes (firstn size first_buffer) (firstn size second_buffer).
Proof.
  intros Hmax H1 H2. split; [|split].
  - intros Hmod.
    rewrite xor_uintmax_chunks_spec, xor_byte_by_byte_spec by assumption.
    reflexivity.
  - rewrite xor_buffers_spec, xor_byte_by_byte_spec by assumption.
    reflexivity.
  - rewrite xor_buffers_spec by assumption.
    apply firstn_length_app.
    rewrite xor_bytes_length, !length_firstn. lia.
Qed.

End XorLoops.

(** ** The look-ups *)

Section Lookups.

Lemma cstring_eqb_eq (a b : cstring) : cstring_eqb a b = true <-> a = b.
Proof.
  revert b; induction a as [|x a IH]; intros [|y b]; simpl;
    try (split; [discriminate|congruence]); [tauto|].
  rewrite andb_true_iff, Ascii.eqb_eq, IH.
  split; [intros [-> ->]; reflexivity | intros H; inversion H; auto].
Qed.

Lemma cstring_eqb_refl (a : cstring) : cstring_eqb a a = true.
Proof. now apply cstring_eqb_eq. Qed.

Lemma cstring_eqb_neq (a b : cstring) : cstring_eqb a b = false <-> a <> b.
Proof.
  rewrite <- cstring_eqb_eq. destruct (cstring_eqb a b); split; congruence.
Qed.

(** A loop that returns the index of the first cell passing a test finds
    the lowest match; [base] is the index of the head of [cells]. *)
Lemma lowest_match_shift (P : xorfs_source_file -> Prop) c cells i :
  ~ P c -> lowest_match P cells (Some i) -> lowest_match P (c :: cells) (Some (S i)).
Proof.
  intros Hc [[sf [Hn Hp]] Hlow]. split.
  - exists sf. auto.
  - intros [|j] sf' Hj Hn'; simpl in Hn'.
    + inversion Hn'; subst; assumption.
    + apply (Hlow j); [lia | assumption].
Qed.

Lemma lowest_match_none (P : xorfs_source_file -> Prop) c cells :
  ~ P c -> lowest_match P cells None -> lowest_match P (c :: cells) None.
Proof.
  intros Hc Hnone [|j] sf Hn; simpl in Hn.
  - inversion Hn; subst; assumption.
  - eapply Hnone; eassumption.
Qed.

Lemma lowest_match_head (P : xorfs_source_file -> Prop) c cells :
  P c -> lowest_match P (c :: cells) (Some O).
Proof.
  intros Hc. split.
  - exists c. auto.
  - intros j sf Hj. lia.
Qed.

Lemma by_file_name_from_shift cells requested_name :
  forall index,
    by_file_name_from cells (S index) requested_name =
    option_map S (by_file_name_from cells index requested_name).
Proof.
  induction cells as [|c cells IH]; intros index; simpl; [reflexivity|].
  destruct (cstring_eqb _ _); [reflexivity | apply IH].
Qed.

Lemma by_backup_name_and_number_from_shift cells requested_name requested_number :
  forall index,
    by_backup_name_and_number_from cells (S index) requested_name requested_number =
    option_map S
      (by_backup_name_and_number_from cells index requested_name requested_number).
Proof.
  induction cells as [|c cells IH]; intros index; simpl; [reflexivity|].
  destruct (_ && _); [reflexivity | apply IH].
Qed.

Lemma by_file_name_lowest cells requested_name :
  lowest_match (fun sf => output_file_name (backup sf) = requested_name) cells
    (xorfs_get_source_file_by_file_name cells requested_name).
Proof.
  unfold xorfs_get_source_file_by_file_name.
  induction cells as [|c cells IH]; simpl.
  - intros [|j] sf H; discriminate.
  - destruct (cstring_eqb (output_file_name (backup c)) requested_name) eqn:E.
    + apply lowest_match_head. now apply cstring_eqb_eq.
    + apply cstring_eqb_neq in E.
      rewrite by_file_name_from_shift.
      destruct (by_file_name_from cells 0 requested_name); simpl.
      * now apply lowest_match_shift.
      * now apply lowest_match_none.
Qed.

Lemma by_backup_name_and_number_lowest cells requested_name requested_number :
  lowest_match
    (fun sf => name (backup sf) = requested_name
               /\ number (backup sf) = requested_number) cells
    (get_source_file_by_backup_name_and_number cells requested_name requested_number).
Proof.
  unfold get_source_file_by_backup_name_and_number.
  induction cells as [|c cells IH]; simpl.
  - intros [|j] sf H; discriminate.
  - destruct ((number (backup c) =? requested_number)
              && cstring_eqb (name (backup c)) requested_name) eqn:E.
    + apply lowest_match_head.
      apply andb_true_iff in E. destruct E as [E1 E2].
      apply Z.eqb_eq in E1. apply cstring_eqb_eq in E2. auto.
    + assert (Hc : ~ (name (backup c) = requested_name
                      /\ number (backup c) = requested_number)).
      { intros [H1 H2]. apply andb_false_iff in E.
        destruct E as [E|E]; [apply Z.eqb_neq in E | apply cstring_eqb_neq in E];
          contradiction. }
      rewrite by_backup_name_and_number_from_shift.
      destruct (by_backup_name_and_number_from cells 0 requested_name
                  requested_number); simpl.
      * now apply lowest_match_shift.
      * now apply lowest_match_none.
Qed.

(** C10. In every table, with or without entries whose keys collide, the
    look-up by output file name and the look-up by backup name and number
    each return the entry of lowest index among those that match, and
    return NULL when no entry matches. *)
Theorem lookups_return_lowest_index
    (cells : list xorfs_source_file) (requested_name : cstring)
    (requested_number : Z) :
  lowest_match (fun sf => output_file_name (backup sf) = requested_name) cells
    (xorfs_get_source_file_by_file_name cells requested_name)
  /\ lowest_match
       (fun sf => name (backup sf) = requested_name
                  /\ number (backup sf) = requested_number) cells
       (get_source_file_by_backup_name_and_number cells requested_name
          requested_number).
Proof.
  split.
  - apply by_file_name_lowest.
  - apply by_backup_name_and_number_lowest.
Qed.

End Lookups.

(** ** Streams *)

Section Streams.

Lemma nth_error_update_stream_same (w : streams) (fp : FILE) (st : stream) :
  (fp < List.length w)%nat -> nth_error (update_stream w fp st) fp = Some st.
Proof.
  revert fp; induction w as [|s w IH]; intros [|fp] H; simpl in *; try lia; auto.
  apply IH. lia.
Qed.

Lemma nth_error_update_stream_other (w : streams) (fp fp' : FILE) (st : stream) :
  fp <> fp' -> nth_error (update_stream w fp st) fp' = nth_error w fp'.
Proof.
  revert fp fp'; induction w as [|s w IH]; intros [|fp] [|fp'] H; simpl;
    try reflexivity; try congruence.
  apply IH. congruence.
Qed.

Lemma length_update_stream (w : streams) (fp : FILE) (st : stream) :
  List.length (update_stream w fp st) = List.length w.
Proof.
  revert fp; induction w as [|s w IH]; intros [|fp]; simpl; auto.
Qed.

Lemma live_stream_inv (w : streams) (fp : FILE) (st : stream) :
  live_stream w fp = Some st ->
  nth_error w fp = Some st /\ st_open st = true /\ (fp < List.length w)%nat.
Proof.
  unfold live_stream. destruct (nth_error w fp) as [s|] eqn:E; [|discriminate].
  destruct (st_open s) eqn:Ho; [|discriminate].
  intros H; inversion H; subst. repeat split; auto.
  apply nth_error_Some. congruence.
Qed.

Lemma live_stream_update_same (w : streams) (fp : FILE) (st st' : stream) :
  live_stream w fp = Some st -> st_open st' = true ->
  live_stream (update_stream w fp st') fp = Some st'.
Proof.
  intros H Ho. apply live_stream_inv in H. destruct H as (_ & _ & Hlt).
  unfold live_stream. rewrite nth_error_update_stream_same by assumption.
  now rewrite Ho.
Qed.

(** Moving the position indicator of a stream changes no stream's bytes. *)
Lemma content_of_update (w : streams) (fp : FILE) (st st' : stream) :
  live_stream w fp = Some st ->
  st_content st' = st_content st -> st_open st' = true ->
  forall fp', content_of (update_stream w fp st') fp' = content_of w fp'.
Proof.
  intros H Hc Ho fp'. unfold content_of.
  destruct (Nat.eq_dec fp fp') as [<-|Hne].
  - rewrite (live_stream_update_same w fp st st' H Ho), H. simpl. now f_equal.
  - unfold live_stream. now rewrite nth_error_update_stream_other.
Qed.

Lemma content_of_live (w : streams) (fp : FILE) (c : list byte) :
  content_of w fp = Some c ->
  exists st, live_stream w fp = Some st /\ st_content st = c.
Proof.
  unfold content_of. destruct (live_stream w fp) as [st|]; [|discriminate].
  simpl. intros H; inversion H. eauto.
Qed.

Lemma bytes_at_length (c : list byte) (pos : Z) (size : nat) :
  (List.length (bytes_at c pos size) <= size)%nat.
Proof. unfold bytes_at. rewrite length_firstn. lia. Qed.

(** A call of [xorfs_read_plain] at a non-negative offset, run on its own,
    obtains the bytes of the file at that offset whatever the position
    indicator was, and leaves the indicator behind the bytes read. *)
Lemma xorfs_read_plain_returns (w : streams) (source_file : xorfs_source_file)
    (fp : FILE) (st : stream) (buf : buffer) (offset : Z) (size : nat) :
  file_descriptor source_file = Some fp ->
  live_stream w fp = Some st ->
  0 <= offset ->
  let data := bytes_at (st_content st) offset size in
  let n := Z.of_nat (List.length data) in
  xorfs_read_plain w source_file buf offset size =
  Returns (to_int n, data ++ skipn (List.length data) buf,
           update_stream w fp (set_pos st (offset + n))).
Proof.
  intros Hfd Hlive Hoff data n. unfold xorfs_read_plain. rewrite Hfd.
  unfold fseek. rewrite Hlive.
  destruct (Z.ltb_spec offset 0) as [|_]; [lia|].
  change (0 <? 0) with false. cbv iota.
  unfold fread.
  assert (Ho : st_open (set_pos st offset) = true)
    by (apply live_stream_inv in Hlive; simpl; tauto).
  rewrite (live_stream_update_same w fp st _ Hlive Ho).
  simpl st_content. simpl st_pos. fold data. fold n.
  f_equal. f_equal.
  apply live_stream_inv in Hlive. destruct Hlive as (Hn & _ & Hlt).
  clear - Hlt. revert fp Hlt.
  induction w as [|s w IH]; intros [|fp] Hlt; simpl in *; try lia; auto.
  f_equal. apply IH. lia.
Qed.

Lemma xorfs_read_plain_content (w : streams) (source_file : xorfs_source_file)
    (fp : FILE) (c : list byte) (buf : buffer) (offset : Z) (size : nat) :
  file_descriptor source_file = Some fp ->
  content_of w fp = Some c ->
  0 <= offset ->
  Z.of_nat size <= INT_MAX ->
  let data := bytes_at c offset size in
  exists w1,
    xorfs_read_plain w source_file buf offset size =
    Returns (Z.of_nat (List.length data), data ++ skipn (List.length data) buf, w1)
    /\ forall fp', content_of w1 fp' = content_of w fp'.
Proof.
  intros Hfd Hc Hoff Hmax data.
  destruct (content_of_live _ _ _ Hc) as (st & Hlive & Hst).
  pose proof (xorfs_read_plain_returns w source_file fp st buf offset size
                Hfd Hlive Hoff) as H.
  cbv zeta in H. rewrite Hst in H. fold data in H.
  pose proof (bytes_at_length c offset size) as Hlen. fold data in Hlen.
  rewrite to_int_small in H by lia.
  eexists. split; [exact H|].
  apply (content_of_update w fp st); auto.
  apply live_stream_inv in Hlive. simpl. tauto.
Qed.

End Streams.

(** ** Reading a backup through its chain *)

Section Reading.

Variable uninit : nat -> nat -> byte.
Variable cells : list xorfs_source_file.

Lemma length_malloc (depth size : nat) :
  List.length (malloc uninit depth size) = size.
Proof. unfold malloc. now rewrite length_map, length_seq. Qed.

Lemma chain_to_base_streams (w w' : streams) source_file chain :
  chain_to_base cells w source_file chain ->
  (forall fp, content_of w' fp = content_of w fp) ->
  chain_to_base cells w' source_file chain.
Proof.
  intros H Hw. induction H.
  - eapply chain_plain; eauto. now rewrite Hw.
  - eapply chain_xored; eauto. now rewrite Hw.
Qed.

Lemma chain_to_base_nonempty (w : streams) source_file chain :
  chain_to_base cells w source_file chain -> chain <> [].
Proof. intros H; destruct H; discriminate. Qed.

Lemma firstn_app_exact {A} (a b : list A) (n : nat) :
  List.length a = n -> firstn n (a ++ b) = a.
Proof. intros H. now apply firstn_length_app. Qed.

(** What [xor_buffers] leaves in the first [n] bytes, [n] being the number
    of bytes obtained at both levels. *)
Lemma xor_buffers_head (size : nat) (own rest second : list byte) :
  Z.of_nat size <= INT_MAX ->
  (List.length own <= size)%nat ->
  (size <= List.length (own ++ rest))%nat ->
  (size <= List.length second)%nat ->
  let b := xor_buffers size (own ++ rest) second in
  List.length b = List.length (own ++ rest)
  /\ firstn (List.length own) b = xor_bytes own (firstn (List.length own) second).
Proof.
  intros Hmax Hown Hfirst Hsecond b. subst b.
  rewrite xor_buffers_spec by assumption.
  split.
  - rewrite length_app, xor_bytes_length, !length_firstn, length_skipn. lia.
  - replace size with (List.length own + (size - List.length own))%nat at 1 2 by lia.
    rewrite !firstn_plus.
    rewrite (firstn_app_exact own rest) by reflexivity.
    rewrite xor_bytes_app by (rewrite length_firstn; lia).
    rewrite <- app_assoc.
    apply firstn_app_exact.
    rewrite xor_bytes_length, length_firstn. lia.
Qed.

Lemma spec_read_cons (c c2 : list byte) (rest : list (list byte))
    (offset : Z) (size : nat) :
  spec_read (c :: c2 :: rest) offset size =
  let own := bytes_at c offset size in
  let n := Z.of_nat (List.length own) in
  let '(r, pred) := spec_read (c2 :: rest) offset (List.length own) in
  if r <? 0 then (r, [])
  else if r <? n then (- EIO, [])
  else (n, xor_bytes own pred).
Proof. reflexivity. Qed.

Lemma xorfs_read_backup_chain (offset : Z) (Hoff : 0 <= offset) :
  forall chain w source_file,
    chain_to_base cells w source_file chain ->
    forall fuel buf size,
      (List.length chain <= fuel)%nat ->
      Z.of_nat size <= INT_MAX ->
      (size <= List.length buf)%nat ->
      exists b w',
        xorfs_read_backup uninit fuel cells w source_file buf offset size =
        Returns (fst (spec_read chain offset size), b, w')
        /\ List.length b = List.length buf
        /\ (0 <= fst (spec_read chain offset size) ->
            fst (spec_read chain offset size) =
              Z.of_nat (List.length (snd (spec_read chain offset size)))
            /\ firstn (List.length (snd (spec_read chain offset size))) b =
               snd (spec_read chain offset size))
        /\ (fst (spec_read chain offset size) = - EIO
            \/ 0 <= fst (spec_read chain offset size) <= Z.of_nat size)
        /\ (forall fp, content_of w' fp = content_of w fp).
Proof.
  induction chain as [|c rest IH]; intros w source_file Hchain fuel buf size
    Hfuel Hmax Hbuf.
  - exfalso. eapply chain_to_base_nonempty; eauto.
  - destruct fuel as [|fuel]; [simpl in Hfuel; lia|].
    pose proof (bytes_at_length c offset size) as Hlen.
    assert (Hfirst : List.length (bytes_at c offset size
                                  ++ skipn (List.length (bytes_at c offset size)) buf)
                     = List.length buf)
      by (rewrite length_app, length_skipn; lia).
    inversion Hchain as [sf fp c0 Hplain Hfd Hc | sf fp c0 p xor_against chain0
                           Hxored Hfd Hc Hlink Hnth Hrest]; subst;
      destruct (xorfs_read_plain_content w source_file fp c buf offset size
                  Hfd Hc Hoff Hmax) as (w1 & Hread & Hw1);
      cbn [xorfs_read_backup]; rewrite Hread;
      (destruct (Z.ltb_spec (Z.of_nat (List.length (bytes_at c offset size))) 0)
        as [|_]; [lia|]).
    + (* a plain image *)
      rewrite Hplain. cbn [Z.eqb spec_read fst snd].
      eexists. exists w1. split; [reflexivity|].
      split; [assumption|]. split; [|split; [right; lia | assumption]].
      intros _. split; [reflexivity | now apply firstn_app_exact].
    + (* a xored image *)
      destruct (Z.eqb_spec (xor_against_number (backup source_file)) 0)
        as [|_]; [contradiction|].
      rewrite Hlink, Hnth, Nat2Z.id.
      assert (Hrest' : chain_to_base cells w1 xor_against rest)
        by (eapply chain_to_base_streams; eauto).
      destruct (IH w1 xor_against Hrest' fuel (malloc uninit fuel size)
                  (List.length (bytes_at c offset size)))
        as (b2 & w2 & Hrec & Hb2 & Hdata & Hrange & Hw2);
        [simpl in Hfuel; lia | lia | rewrite length_malloc; lia |].
      rewrite Hrec. rewrite length_malloc in Hb2.
      assert (Hw : forall fp', content_of w2 fp' = content_of w fp')
        by (intros fp'; now rewrite Hw2, Hw1).
      destruct rest as [|c2 rest];
        [exfalso; eapply chain_to_base_nonempty; eauto|].
      rewrite spec_read_cons. cbv zeta.
      destruct (spec_read (c2 :: rest) offset (List.length (bytes_at c offset size)))
        as [r pd] eqn:Espec.
      rewrite ?Espec in Hrec, Hdata, Hrange. cbn [fst snd] in *.
      destruct (Z.ltb_spec r 0) as [Hneg|Hpos].
      * (* the error of the level below is passed on *)
        cbn [fst snd]. eexists. exists w2. split; [reflexivity|].
        split; [assumption|]. split; [intros; lia|]. split; [|assumption].
        destruct Hrange as [->|]; [left; reflexivity | lia].
      * destruct (Z.ltb_spec r (Z.of_nat (List.length (bytes_at c offset size))))
          as [Hfew|Hall].
        -- (* fewer bytes from the level below *)
           destruct (Z.eqb_spec r (Z.of_nat (List.length (bytes_at c offset size))))
             as [|_]; [lia|].
           cbn [negb fst snd]. eexists. exists w2. split; [reflexivity|].
           split; [assumption|].
           split; [unfold EIO; intros; lia|]. split; [now left | assumption].
        -- (* as many bytes from both levels *)
           destruct Hrange as [Hr|Hr]; [unfold EIO in Hr; lia|].
           assert (Er : r = Z.of_nat (List.length (bytes_at c offset size))) by lia.
           destruct (Z.eqb_spec r (Z.of_nat (List.length (bytes_at c offset size))))
             as [_|]; [|contradiction].
           cbn [negb fst snd].
           destruct (Hdata Hpos) as [Hrn Hpd].
           destruct (xor_buffers_head size (bytes_at c offset size)
                       (skipn (List.length (bytes_at c offset size)) buf) b2)
             as [Hl Hh]; try lia.
           eexists. exists w2. split; [reflexivity|].
           split; [lia|]. split; [|split; [right; lia | assumption]].
           intros _. rewrite xor_bytes_length.
           replace (List.length pd) with (List.length (bytes_at c offset size))
             by lia.
           rewrite Nat.min_id. split; [reflexivity|].
           rewrite Hh. f_equal. rewrite <- Hpd. f_equal. lia.
Qed.


Lemma byte_xor_cancel (b d : byte) : byte.xor (byte.xor b d) b = d.
Proof.
  apply byte.unsigned_inj. unfold byte.xor.
  rewrite !byte.unsigned_of_Z.
  rewrite <- (byte.wrap_unsigned b), <- (byte.wrap_unsigned d).
  unfold byte.wrap. rewrite <- !Z.land_ones by lia.
  Z.bitblast.
Qed.

Lemma xor_bytes_cancel (B D : list byte) :
  List.length D = List.length B -> xor_bytes (xor_bytes B D) B = D.
Proof.
  revert D; induction B as [|b B IH]; intros [|d D] H; simpl in *;
    try discriminate; [reflexivity|].
  rewrite byte_xor_cancel, IH by lia. reflexivity.
Qed.

Lemma bytes_at_all (c : list byte) : bytes_at c 0 (List.length c) = c.
Proof. unfold bytes_at. simpl. apply firstn_all. Qed.

Lemma spec_read_plain_all (c : list byte) :
  spec_read [c] 0 (List.length c) = (Z.of_nat (List.length c), c).
Proof. cbn [spec_read]. now rewrite bytes_at_all. Qed.

Lemma spec_read_xored_all (c c2 : list byte) (rest : list (list byte))
    (L : nat) (pd : list byte) :
  List.length c = L ->
  spec_read (c2 :: rest) 0 L = (Z.of_nat L, pd) ->
  spec_read (c :: c2 :: rest) 0 L = (Z.of_nat L, xor_bytes c pd).
Proof.
  intros <- H. rewrite spec_read_cons. cbv zeta.
  rewrite bytes_at_all, H.
  destruct (Z.ltb_spec (Z.of_nat (List.length c)) 0); [lia|].
  now rewrite Z.ltb_irrefl.
Qed.

Lemma firstn_whole {A} (l l' : list A) :
  List.length l = List.length l' -> firstn (List.length l') l = l' -> l = l'.
Proof. intros H1 H2. rewrite <- H1, firstn_all in H2. exact H2. Qed.

(** C1. With a plain image storing [B] and a xored image linked to it
    that stores [B xor D], [D] as long as [B], reading the xored image at
    offset 0 for the length of [B] returns that length and leaves exactly
    [D] in the buffer. *)
Theorem two_level_reconstruction
    (w : streams) (plain xored : xorfs_source_file) (fp_plain fp_xored : FILE)
    (p : nat) (B D : list byte) (buf : buffer) (fuel : nat) :
  xor_against_number (backup plain) = 0 ->
  file_descriptor plain = Some fp_plain ->
  content_of w fp_plain = Some B ->
  xor_against_number (backup xored) <> 0 ->
  file_descriptor xored = Some fp_xored ->
  content_of w fp_xored = Some (xor_bytes B D) ->
  xor_against_source_file (backup xored) = Some p ->
  nth_error cells p = Some plain ->
  List.length D = List.length B ->
  Z.of_nat (List.length B) <= INT_MAX ->
  List.length buf = List.length B ->
  (2 <= fuel)%nat ->
  exists w',
    xorfs_read_backup uninit fuel cells w xored buf 0 (List.length B) =
    Returns (Z.of_nat (List.length B), D, w').
Proof.
  intros Hp Hfp Hcp Hx Hfx Hcx Hlink Hnth HD Hmax Hbuf Hfuel.
  assert (Hchain : chain_to_base cells w xored [xor_bytes B D; B]).
  { eapply chain_xored; eauto. eapply chain_plain; eauto. }
  destruct (xorfs_read_backup_chain 0 (Z.le_refl 0) _ _ _ Hchain fuel buf
              (List.length B)) as (b & w' & Hread & Hb & Hdata & _ & _);
    [simpl; lia | lia | lia |].
  assert (HL : List.length (xor_bytes B D) = List.length B)
    by (rewrite xor_bytes_length; lia).
  assert (Hspec : spec_read [xor_bytes B D; B] 0 (List.length B)
                  = (Z.of_nat (List.length B), D)).
  { rewrite (spec_read_xored_all _ _ _ _ B HL (spec_read_plain_all B)).
    now rewrite xor_bytes_cancel. }
  rewrite Hspec in Hread, Hdata. cbn [fst snd] in Hread, Hdata.
  exists w'. rewrite Hread. do 3 f_equal.
  destruct Hdata as [_ Hfirst]; [lia|].
  apply firstn_whole; [lia | assumption].
Qed.

(** The same through two links: a plain image [B], a first xored image
    storing [B xor D1] and a second one storing [D1 xor D2]. *)
Lemma three_level_reconstruction
    (w : streams) (plain xored1 xored2 : xorfs_source_file)
    (fp_plain fp_xored1 fp_xored2 : FILE)
    (p1 p2 : nat) (B D1 D2 : list byte) (buf : buffer) (fuel : nat) :
  xor_against_number (backup plain) = 0 ->
  file_descriptor plain = Some fp_plain ->
  content_of w fp_plain = Some B ->
  xor_against_number (backup xored1) <> 0 ->
  file_descriptor xored1 = Some fp_xored1 ->
  content_of w fp_xored1 = Some (xor_bytes B D1) ->
  xor_against_source_file (backup xored1) = Some p1 ->
  nth_error cells p1 = Some plain ->
  xor_against_number (backup xored2) <> 0 ->
  file_descriptor xored2 = Some fp_xored2 ->
  content_of w fp_xored2 = Some (xor_bytes D1 D2) ->
  xor_against_source_file (backup xored2) = Some p2 ->
  nth_error cells p2 = Some xored1 ->
  List.length D1 = List.length B ->
  List.length D2 = List.length B ->
  Z.of_nat (List.length B) <= INT_MAX ->
  List.length buf = List.length B ->
  (3 <= fuel)%nat ->
  exists w',
    xorfs_read_backup uninit fuel cells w xored2 buf 0 (List.length B) =
    Returns (Z.of_nat (List.length B), D2, w').
Proof.
  intros Hp Hfp Hcp Hx1 Hfx1 Hcx1 Hl1 Hn1 Hx2 Hfx2 Hcx2 Hl2 Hn2 HD1 HD2
    Hmax Hbuf Hfuel.
  assert (Hchain : chain_to_base cells w xored2
                     [xor_bytes D1 D2; xor_bytes B D1; B]).
  { eapply chain_xored; eauto. eapply chain_xored; eauto.
    eapply chain_plain; eauto. }
  destruct (xorfs_read_backup_chain 0 (Z.le_refl 0) _ _ _ Hchain fuel buf
              (List.length B)) as (b & w' & Hread & Hb & Hdata & _ & _);
    [simpl; lia | lia | lia |].
  assert (HL1 : List.length (xor_bytes B D1) = List.length B)
    by (rewrite xor_bytes_length; lia).
  assert (HL2 : List.length (xor_bytes D1 D2) = List.length B)
    by (rewrite xor_bytes_length; lia).
  assert (Hspec : spec_read [xor_bytes D1 D2; xor_bytes B D1; B] 0 (List.length B)
                  = (Z.of_nat (List.length B), D2)).
  { rewrite (spec_read_xored_all _ _ _ _ D1 HL2).
    - now rewrite xor_bytes_cancel by lia.
    - rewrite (spec_read_xored_all _ _ _ _ B HL1 (spec_read_plain_all B)).
      now rewrite xor_bytes_cancel by lia. }
  rewrite Hspec in Hread, Hdata. cbn [fst snd] in Hread, Hdata.
  exists w'. rewrite Hread. do 3 f_equal.
  destruct Hdata as [_ Hfirst]; [lia|].
  apply firstn_whole; [lia | assumption].
Qed.


(** Without a plain image at the end there is no result: a read of an
    entry that is xored against itself nests without end. *)
Lemma read_of_self_reference_never_returns
    (source_file : xorfs_source_file) (fp : FILE) (c : list byte) (p : nat)
    (offset : Z) :
  xor_against_number (backup source_file) <> 0 ->
  file_descriptor source_file = Some fp ->
  xor_against_source_file (backup source_file) = Some p ->
  nth_error cells p = Some source_file ->
  0 <= offset ->
  forall fuel w buf size,
    content_of w fp = Some c ->
    Z.of_nat size <= INT_MAX ->
    xorfs_read_backup uninit fuel cells w source_file buf offset size = OutOfFuel.
Proof.
  intros Hx Hfd Hlink Hnth Hoff.
  induction fuel as [|fuel IH]; intros w buf size Hc Hmax; [reflexivity|].
  destruct (xorfs_read_plain_content w source_file fp c buf offset size
              Hfd Hc Hoff Hmax) as (w1 & Hread & Hw1).
  pose proof (bytes_at_length c offset size) as Hlen.
  cbn [xorfs_read_backup]. rewrite Hread.
  destruct (Z.ltb_spec (Z.of_nat (List.length (bytes_at c offset size))) 0)
    as [|_]; [lia|].
  destruct (Z.eqb_spec (xor_against_number (backup source_file)) 0)
    as [|_]; [contradiction|].
  rewrite Hlink, Hnth, Nat2Z.id, IH; [reflexivity | now rewrite Hw1 | lia].
Qed.

(** C6. Reading a xored image whose own file yields [n] bytes at the
    offset ([n] may be less than the size asked for): the image it is
    xored against is read at the same offset for exactly [n] bytes; that
    read never yields more than [n]; the whole read returns [-EIO] exactly
    when that read does not yield [n] bytes, and otherwise returns [n] with
    the first [n] bytes of the buffer being the xor of the bytes obtained
    at the two levels.  The entry is any xored entry of a chain that ends
    in a plain image, so this holds at every level of the chain. *)
Theorem xored_read_uses_bytes_obtained
    (w : streams) (source_file xor_against : xorfs_source_file) (fp : FILE)
    (c : list byte) (p : nat) (chain : list (list byte))
    (buf : buffer) (offset : Z) (size fuel : nat) :
  xor_against_number (backup source_file) <> 0 ->
  file_descriptor source_file = Some fp ->
  content_of w fp = Some c ->
  xor_against_source_file (backup source_file) = Some p ->
  nth_error cells p = Some xor_against ->
  chain_to_base cells w xor_against chain ->
  (List.length chain <= fuel)%nat ->
  0 <= offset ->
  Z.of_nat size <= INT_MAX ->
  (size <= List.length buf)%nat ->
  let own := bytes_at c offset size in
  let n := List.length own in
  exists first_buffer w1 r second_buffer w2 code b,
    xorfs_read_plain w source_file buf offset size =
      Returns (Z.of_nat n, first_buffer, w1)
    /\ firstn n first_buffer = own
    /\ (n <= size)%nat
    /\ xorfs_read_backup uninit fuel cells w1 xor_against
         (malloc uninit fuel size) offset n = Returns (r, second_buffer, w2)
    /\ r <= Z.of_nat n
    /\ xorfs_read_backup uninit (S fuel) cells w source_file buf offset size =
         Returns (code, b, w2)
    /\ (code = - EIO <-> r <> Z.of_nat n)
    /\ (r = Z.of_nat n ->
        code = Z.of_nat n /\ firstn n b = xor_bytes own (firstn n second_buffer)).
Proof.
  intros Hx Hfd Hc Hlink Hnth Hchain Hfuel Hoff Hmax Hbuf own n.
  pose proof (bytes_at_length c offset size) as Hlen. fold own in Hlen. fold n in Hlen.
  destruct (xorfs_read_plain_content w source_file fp c buf offset size
              Hfd Hc Hoff Hmax) as (w1 & Hread & Hw1).
  fold own in Hread. fold n in Hread.
  assert (Hchain' : chain_to_base cells w1 xor_against chain)
    by (eapply chain_to_base_streams; eauto).
  destruct (xorfs_read_backup_chain offset Hoff _ _ _ Hchain' fuel
              (malloc uninit fuel size) n)
    as (b2 & w2 & Hrec & Hb2 & Hdata & Hrange & Hw2);
    [assumption | lia | rewrite length_malloc; lia |].
  rewrite length_malloc in Hb2.
  set (r := fst (spec_read chain offset n)) in *.
  assert (Hstep :
    xorfs_read_backup uninit (S fuel) cells w source_file buf offset size =
    if r <? 0 then Returns (r, own ++ skipn n buf, w2)
    else if negb (r =? Z.of_nat n) then Returns (- EIO, own ++ skipn n buf, w2)
    else Returns (Z.of_nat n, xor_buffers size (own ++ skipn n buf) b2, w2)).
  { cbn [xorfs_read_backup]. rewrite Hread.
    destruct (Z.ltb_spec (Z.of_nat n) 0) as [|_]; [lia|].
    destruct (Z.eqb_spec (xor_against_number (backup source_file)) 0)
      as [|_]; [contradiction|].
    rewrite Hlink, Hnth, Nat2Z.id, Hrec. reflexivity. }
  exists (own ++ skipn n buf), w1, r, b2, w2.
  destruct (Z.ltb_spec r 0) as [Hneg|Hpos].
  - (* the level below failed: its code is [-EIO], passed on *)
    assert (Er : r = - EIO) by (destruct Hrange; [assumption | lia]).
    exists r, (own ++ skipn n buf).
    split; [assumption|]. split; [now apply firstn_app_exact|].
    split; [assumption|]. split; [assumption|]. split; [lia|].
    split; [assumption|]. split; [split; [lia | auto] | lia].
  - destruct (Z.eqb_spec r (Z.of_nat n)) as [Heq|Hne]; cbn [negb] in Hstep.
    + exists (Z.of_nat n), (xor_buffers size (own ++ skipn n buf) b2).
      split; [assumption|]. split; [now apply firstn_app_exact|].
      split; [assumption|]. split; [assumption|]. split; [lia|].
      split; [assumption|].
      split; [unfold EIO; split; [lia | contradiction]|].
      intros _. split; [reflexivity|].
      apply xor_buffers_head; try lia.
      rewrite length_app, length_skipn. fold n. lia.
    + exists (- EIO), (own ++ skipn n buf).
      split; [assumption|]. split; [now apply firstn_app_exact|].
      split; [assumption|]. split; [assumption|].
      split; [destruct Hrange; unfold EIO in *; lia|].
      split; [assumption|]. split; [tauto | contradiction].
Qed.

End Reading.

(** ** Requests that share a stream *)

Section SharedStream.

(** The two stdio calls of a request, run one after the other with nothing
    in between, are [xorfs_read_plain]. *)
Lemma step_request_twice (w : streams) (source_file : xorfs_source_file)
    (buf : buffer) (offset : Z) (size : nat) (code : Z) (buf' : buffer)
    (w' : streams) :
  xorfs_read_plain w source_file buf offset size = Returns (code, buf', w') ->
  let rq := new_request source_file buf offset size in
  step_request (fst (step_request w rq)) (snd (step_request w rq)) =
  (w', at_pc rq buf' (Returned code)).
Proof.
  unfold xorfs_read_plain, step_request, new_request. cbn [rq_source_file rq_pc
    rq_offset rq_buffer rq_size].
  destruct (file_descriptor source_file) as [fp|] eqn:Hfd; [|discriminate].
  destruct (fseek w fp offset) as [[r w1]| |] eqn:Hseek; try discriminate.
  destruct (r <? 0) eqn:Hr; cbn [fst snd].
  - intros H; inversion H; subst.
    cbn [at_pc rq_source_file rq_pc]. rewrite Hfd. reflexivity.
  - cbn [at_pc rq_source_file rq_pc rq_buffer rq_size]. rewrite Hfd.
    destruct (fread w1 fp buf size) as [[[n b] w2]| |]; try discriminate.
    intros H; inversion H; subst. reflexivity.
Qed.

Lemma run_alone (w : streams) (source_file : xorfs_source_file) (fp : FILE)
    (c : list byte) (buf : buffer) (offset : Z) (size : nat) :
  file_descriptor source_file = Some fp ->
  content_of w fp = Some c ->
  0 <= offset ->
  Z.of_nat size <= INT_MAX ->
  let data := bytes_at c offset size in
  let rq := new_request source_file buf offset size in
  exists w',
    step_request (fst (step_request w rq)) (snd (step_request w rq)) =
    (w', at_pc rq (data ++ skipn (List.length data) buf)
           (Returned (Z.of_nat (List.length data))))
    /\ (forall fp', content_of w' fp' = content_of w fp')
    /\ option_map st_pos (live_stream w' fp)
       = Some (offset + Z.of_nat (List.length data)).
Proof.
  intros Hfd Hc Hoff Hmax data rq.
  destruct (content_of_live _ _ _ Hc) as (st & Hlive & Hst).
  pose proof (xorfs_read_plain_returns w source_file fp st buf offset size
                Hfd Hlive Hoff) as H.
  cbv zeta in H. rewrite Hst in H. fold data in H.
  pose proof (bytes_at_length c offset size) as Hlen. fold data in Hlen.
  rewrite to_int_small in H by lia.
  pose proof (step_request_twice _ _ _ _ _ _ _ _ H) as H2. cbv zeta in H2.
  fold rq in H2.
  assert (Ho : st_open (set_pos st (offset + Z.of_nat (List.length data))) = true)
    by (apply live_stream_inv in Hlive; simpl; tauto).
  eexists. split; [exact H2|]. split.
  - apply (content_of_update w fp st); auto.
  - rewrite (live_stream_update_same w fp st _ Hlive Ho). reflexivity.
Qed.

(** C9, as amended. A read of a source file is a seek followed by a read
    on the one position indicator of the file's stream.  When the two calls
    of each request run with no call of the other request in between, both
    requests on the same entry obtain the bytes at their own offsets,
    whatever the indicator was before, and the indicator is left behind
    the bytes read last. *)
Theorem reads_one_after_the_other
    (w : streams) (source_file : xorfs_source_file) (fp : FILE) (c : list byte)
    (buf_a buf_b : buffer) (offset_a offset_b : Z) (size_a size_b : nat) :
  file_descriptor source_file = Some fp ->
  content_of w fp = Some c ->
  0 <= offset_a -> 0 <= offset_b ->
  Z.of_nat size_a <= INT_MAX -> Z.of_nat size_b <= INT_MAX ->
  let a := new_request source_file buf_a offset_a size_a in
  let b := new_request source_file buf_b offset_b size_b in
  let data_a := bytes_at c offset_a size_a in
  let data_b := bytes_at c offset_b size_b in
  exists w',
    run_schedule [false; false; true; true] w a b =
    (w',
     at_pc a (data_a ++ skipn (List.length data_a) buf_a)
       (Returned (Z.of_nat (List.length data_a))),
     at_pc b (data_b ++ skipn (List.length data_b) buf_b)
       (Returned (Z.of_nat (List.length data_b))))
    /\ option_map st_pos (live_stream w' fp)
       = Some (offset_b + Z.of_nat (List.length data_b)).
Proof.
  intros Hfd Hc Ha Hb Hsa Hsb a b data_a data_b.
  destruct (run_alone w source_file fp c buf_a offset_a size_a Hfd Hc Ha Hsa)
    as (w1 & H1 & Hw1 & _).
  assert (Hc1 : content_of w1 fp = Some c) by now rewrite Hw1.
  destruct (run_alone w1 source_file fp c buf_b offset_b size_b Hfd Hc1 Hb Hsb)
    as (w2 & H2 & _ & Hpos).
  exists w2. split; [|exact Hpos].
  cbn [run_schedule]. fold a in H1. fold b in H2.
  destruct (step_request w a) as [wa a1]. cbn [fst snd] in H1.
  rewrite H1.
  destruct (step_request w1 b) as [wb b1]. cbn [fst snd] in H2.
  rewrite H2. reflexivity.
Qed.

End SharedStream.

(** ** The check of the backup links *)

Section Links.

Lemma set_link_set_link (sf : xorfs_source_file) (l l' : option nat) :
  set_link (set_link sf l) l' = set_link sf l'.
Proof. reflexivity. Qed.

(** The look-up reads the backup names and numbers only. *)
Lemma by_backup_name_and_number_from_keys (a b : list xorfs_source_file)
    requested_name requested_number :
  map (fun sf => set_link sf None) a = map (fun sf => set_link sf None) b ->
  forall index,
    by_backup_name_and_number_from a index requested_name requested_number =
    by_backup_name_and_number_from b index requested_name requested_number.
Proof.
  revert b; induction a as [|x a IH]; intros [|y b] H index; simpl in H;
    try discriminate; [reflexivity|].
  injection H as _ _ _ Hm Hn _ _ _ Ha. simpl.
  rewrite Hn, Hm. destruct (_ && _); [reflexivity|]. now apply IH.
Qed.

Lemma update_cell_middle (done rest : list xorfs_source_file)
    (sf sf' : xorfs_source_file) :
  update_cell (done ++ sf :: rest) (List.length done) sf' = done ++ sf' :: rest.
Proof. induction done as [|d done IH]; simpl; [reflexivity | now rewrite IH]. Qed.

Lemma nth_error_middle (done rest : list xorfs_source_file)
    (sf : xorfs_source_file) :
  nth_error (done ++ sf :: rest) (List.length done) = Some sf.
Proof. induction done as [|d done IH]; simpl; auto. Qed.

Lemma check_backup_links_from (cells : list xorfs_source_file) :
  forall rest done,
    map (fun sf => set_link sf None) (done ++ rest)
    = map (fun sf => set_link sf None) cells ->
    exists cells',
      check_backup_links (List.length rest) (List.length done) (done ++ rest)
      = ((if existsb (link_missing cells) rest then 6 else 0), cells')
      /\ map (fun sf => set_link sf None) cells'
         = map (fun sf => set_link sf None) cells
      /\ (existsb (link_missing cells) rest = false ->
          cells' = done ++ map (relink cells) rest).
Proof.
  induction rest as [|sf rest IH]; intros done Hkeys.
  - simpl. exists (done ++ []). auto.
  - cbn [List.length check_backup_links existsb map].
    rewrite nth_error_middle, !update_cell_middle.
    unfold get_source_file_by_backup_name_and_number.
    rewrite (by_backup_name_and_number_from_keys _ cells _ _ Hkeys).
    assert (Hnext : forall l,
               map (fun sf => set_link sf None) ((done ++ [set_link sf l]) ++ rest)
               = map (fun sf => set_link sf None) cells).
    { intros l. rewrite <- Hkeys, <- app_assoc, !map_app. reflexivity. }
    assert (Hlen : forall l, List.length (done ++ [set_link sf l])
                             = S (List.length done))
      by (intros l; rewrite length_app; simpl; lia).
    destruct (xor_against_number (backup sf) =? 0) eqn:Ex.
    + assert (Hlm : link_missing cells sf = false)
        by (unfold link_missing; now rewrite Ex).
      assert (Hrl : relink cells sf = set_link sf None)
        by (unfold relink, resolved_link; now rewrite Ex).
      rewrite Hlm, Hrl. cbn [orb].
      destruct (IH (done ++ [set_link sf None]) (Hnext None))
        as (cells' & Hrun & Hk & Hok).
      rewrite Hlen, <- app_assoc in Hrun. cbn [app] in Hrun.
      exists cells'. split; [exact Hrun|]. split; [exact Hk|].
      intros Hno. rewrite (Hok Hno), <- app_assoc. reflexivity.
    + destruct (by_backup_name_and_number_from cells 0 (name (backup sf))
                  (xor_against_number (backup sf))) as [p|] eqn:Elook.
      * assert (Hlm : link_missing cells sf = false).
        { unfold link_missing, get_source_file_by_backup_name_and_number.
          now rewrite Ex, Elook. }
        assert (Hrl : relink cells sf = set_link sf (Some p)).
        { unfold relink, resolved_link,
            get_source_file_by_backup_name_and_number.
          now rewrite Ex, Elook. }
        rewrite Hlm, Hrl, update_cell_middle. cbn [orb].
        destruct (IH (done ++ [set_link sf (Some p)]) (Hnext (Some p)))
          as (cells' & Hrun & Hk & Hok).
        rewrite Hlen, <- app_assoc in Hrun. cbn [app] in Hrun.
        exists cells'. split; [exact Hrun|]. split; [exact Hk|].
        intros Hno. rewrite (Hok Hno), <- app_assoc. reflexivity.
      * assert (Hlm : link_missing cells sf = true).
        { unfold link_missing, get_source_file_by_backup_name_and_number.
          now rewrite Ex, Elook. }
        rewrite Hlm. cbn [orb].
        exists (done ++ sf :: rest). split; [reflexivity|].
        split; [exact Hkeys | discriminate].
Qed.

(** The loop over the whole table: it returns 6 when some xored image has
    no entry to be xored against, and otherwise returns 0 with every
    link filled by the look-up. *)
Lemma check_backup_links_all (cells : list xorfs_source_file) :
  exists cells',
    check_backup_links (List.length cells) 0 cells
    = ((if existsb (link_missing cells) cells then 6 else 0), cells')
    /\ map (fun sf => set_link sf None) cells'
       = map (fun sf => set_link sf None) cells
    /\ (existsb (link_missing cells) cells = false ->
        cells' = map (relink cells) cells).
Proof. apply (check_backup_links_from cells cells []). reflexivity. Qed.

End Links.

(** ** Loading *)

Section Loading.

Lemma parse_error_code (file_name : cstring) (return_value : Z) :
  parse_file_name file_name = ParseError return_value -> return_value = 5.
Proof.
  unfold parse_file_name.
  destruct (find_first_number _ _ _) as [f|]; [|intros H; now inversion H].
  destruct (_ <? 0); [discriminate|].
  repeat match goal with
         | |- context [if ?b then _ else _] => destruct b
         end; intros H; now inversion H.
Qed.

Lemma descriptors_in_order_owned w cells :
  descriptors_in_order w cells -> all_owned w cells.
Proof.
  intros H fp Hfp. rewrite H. apply in_map. apply in_seq. lia.
Qed.

Lemma descriptors_in_order_snoc w cells st sf :
  descriptors_in_order w cells ->
  file_descriptor sf = Some (List.length w) ->
  descriptors_in_order (w ++ [st]) (cells ++ [sf]).
Proof.
  unfold descriptors_in_order. intros H Hfd.
  rewrite map_app, H, length_app. simpl.
  rewrite Nat.add_1_r, seq_S, map_app, Hfd. reflexivity.
Qed.

Lemma all_owned_snoc w cells st sf :
  all_owned w cells ->
  file_descriptor sf = Some (List.length w) ->
  all_owned (w ++ [st]) (cells ++ [sf]).
Proof.
  intros H Hfd fp Hfp. rewrite length_app in Hfp. simpl in Hfp.
  rewrite map_app. apply in_or_app.
  destruct (Nat.eq_dec fp (List.length w)) as [->|Hne].
  - right. simpl. auto.
  - left. apply H. lia.
Qed.

Lemma all_owned_snoc_none w cells sf :
  all_owned w cells -> all_owned w (cells ++ [sf]).
Proof.
  intros H fp Hfp. rewrite map_app. apply in_or_app. left. now apply H.
Qed.

Lemma load_entries_inv :
  forall directory w cells,
    descriptors_in_order w cells ->
    Forall filled_from_name cells ->
    match load_entries w cells directory with
    | AllLoaded w' cells' =>
        descriptors_in_order w' cells'
        /\ Forall filled_from_name cells'
        /\ map sf_name cells' = map sf_name cells ++ map d_name (accepted directory)
    | LoadAborted return_value w' cells' =>
        (return_value = 3 \/ return_value = 4 \/ return_value = 5)
        /\ all_owned w' cells'
    | LoadKilled => True
    end.
Proof.
  induction directory as [|entry directory IH]; intros w cells Hd Hf.
  - simpl. rewrite app_nil_r. auto.
  - cbn [load_entries]. unfold accepted. cbn [filter].
    destruct (ignored entry) eqn:Ei; cbn [negb].
    + apply IH; assumption.
    + unfold load_source_file.
      destruct (d_file entry) as [f|].
      2:{ split; [auto|]. apply all_owned_snoc_none.
          now apply descriptors_in_order_owned. }
      cbn [fopen].
      destruct (df_stat f) as [s|].
      2:{ split; [auto|]. apply all_owned_snoc; [|reflexivity].
          now apply descriptors_in_order_owned. }
      destruct (parse_file_name (d_name entry)) as [b|rv|] eqn:Ep.
      * specialize (IH
          (w ++ [{| st_content := df_content f; st_pos := 0; st_open := true |}])
          (cells ++ [{| sf_name := d_name entry;
                        file_descriptor := Some (List.length w);
                        stat := s;
                        backup := set_time b (st_mtime s) |}])).
        destruct (load_entries _ _ directory) as [w' cells'|rv w' cells'|].
        -- destruct IH as (H1 & H2 & H3).
           ++ apply descriptors_in_order_snoc; [assumption | reflexivity].
           ++ apply Forall_app. split; [assumption|].
              constructor; [|constructor]. exists b. split; [exact Ep | reflexivity].
           ++ split; [assumption|]. split; [assumption|].
              rewrite H3, map_app, <- app_assoc. reflexivity.
        -- apply IH.
           ++ apply descriptors_in_order_snoc; [assumption | reflexivity].
           ++ apply Forall_app. split; [assumption|].
              constructor; [|constructor]. exists b. split; [exact Ep | reflexivity].
        -- exact I.
      * apply parse_error_code in Ep. subst rv.
        split; [auto|]. apply all_owned_snoc; [|reflexivity].
        now apply descriptors_in_order_owned.
      * exact I.
Qed.

(** Closing the cells of a table closes every stream that a cell owns. *)
Lemma fclose_length w fp : List.length (fclose w fp) = List.length w.
Proof.
  unfold fclose. destruct (nth_error w fp); [apply length_update_stream | reflexivity].
Qed.

Lemma fclose_closed_same w fp :
  (fp < List.length w)%nat ->
  exists st, nth_error (fclose w fp) fp = Some st /\ closed st.
Proof.
  intros H. unfold fclose.
  destruct (nth_error w fp) as [st|] eqn:E.
  - exists (set_closed st). split; [|reflexivity].
    now apply nth_error_update_stream_same.
  - apply nth_error_None in E. lia.
Qed.

Lemma fclose_keeps_closed w fp fp' st :
  nth_error w fp' = Some st -> closed st ->
  exists st', nth_error (fclose w fp) fp' = Some st' /\ closed st'.
Proof.
  intros Hn Hc. destruct (Nat.eq_dec fp fp') as [->|Hne].
  - apply fclose_closed_same. apply nth_error_Some. congruence.
  - exists st. split; [|assumption].
    unfold fclose. destruct (nth_error w fp); [|assumption].
    now rewrite nth_error_update_stream_other.
Qed.

Lemma close_cells_closed :
  forall cells w,
    (forall fp, (fp < List.length w)%nat ->
                In (Some fp) (map file_descriptor cells)
                \/ exists st, nth_error w fp = Some st /\ closed st) ->
    Forall closed (fold_left close_cell cells w).
Proof.
  induction cells as [|sf cells IH]; intros w H.
  - simpl. apply Forall_forall. intros st Hin.
    apply In_nth_error in Hin. destruct Hin as [fp Hfp].
    destruct (H fp) as [[]|(st' & Hn & Hc)].
    + apply nth_error_Some. congruence.
    + congruence.
  - simpl. apply IH. intros fp Hfp.
    assert (Hlen : List.length (close_cell w sf) = List.length w).
    { unfold close_cell. destruct (file_descriptor sf); [apply fclose_length | reflexivity]. }
    rewrite Hlen in Hfp.
    destruct (H fp Hfp) as [Hin|(st & Hn & Hc)].
    + simpl in Hin. destruct Hin as [Hsf|Hin]; [|now left].
      right. unfold close_cell. rewrite Hsf. now apply fclose_closed_same.
    + right. unfold close_cell. destruct (file_descriptor sf) as [fp'|].
      * eapply fclose_keeps_closed; eassumption.
      * eauto.
Qed.

Lemma close_source_files_closed w cells :
  all_owned w cells ->
  Forall closed (open_streams (xorfs_close_source_files w cells)).
Proof.
  intros H. unfold xorfs_close_source_files. simpl.
  apply close_cells_closed. intros fp Hfp. left. now apply H.
Qed.

Lemma same_descriptors (cells cells' : list xorfs_source_file) :
  map (fun sf => set_link sf None) cells' = map (fun sf => set_link sf None) cells ->
  map file_descriptor cells' = map file_descriptor cells.
Proof.
  intros H. apply (f_equal (map file_descriptor)) in H.
  rewrite !map_map in H. exact H.
Qed.

End Loading.

(** ** The parse of a file name *)

Section Parsing.

Lemma is_digit_plain (c : ascii) :
  is_digit c = true ->
  isspace c = false /\ Ascii.eqb c "-" = false /\ Ascii.eqb c "+" = false.
Proof.
  destruct c as [[] [] [] [] [] [] [] []]; intros H;
    solve [discriminate H | repeat split; reflexivity].
Qed.

Lemma find_first_number_spec :
  forall rest offset maximum_offset f,
    find_first_number rest offset maximum_offset = Some f ->
    f = (offset + nondigit_run rest)%nat
    /\ (nondigit_run rest < List.length rest)%nat.
Proof.
  induction rest as [|c rest IH]; intros offset maximum_offset f H;
    simpl in *; [discriminate|].
  destruct (is_digit c).
  - inversion H; subst. split; lia.
  - destruct (_ =? _); [discriminate|].
    apply IH in H. destruct H as [-> H]. split; lia.
Qed.

Lemma nondigit_run_digit (s : cstring) :
  (nondigit_run s < List.length s)%nat ->
  exists c t, skipn (nondigit_run s) s = c :: t /\ is_digit c = true.
Proof.
  induction s as [|c s IH]; simpl; [lia|].
  destruct (is_digit c) eqn:E; intros H.
  - exists c, s. auto.
  - apply IH. lia.
Qed.

Lemma nondigit_run_firstn (s : cstring) (m : nat) :
  (nondigit_run s < m)%nat -> nondigit_run (firstn m s) = nondigit_run s.
Proof.
  revert m; induction s as [|c s IH]; intros [|m] H; simpl in *; try lia.
  destruct (is_digit c); [reflexivity|]. rewrite IH by lia. reflexivity.
Qed.

Lemma digit_run_firstn (s : cstring) :
  digit_run (firstn (digit_run s) s) = digit_run s.
Proof.
  induction s as [|c s IH]; simpl; [reflexivity|].
  destruct (is_digit c) eqn:E; simpl; [|reflexivity].
  now rewrite E, IH.
Qed.

Lemma digit_run_le (s : cstring) : (digit_run s <= List.length s)%nat.
Proof.
  induction s as [|c s IH]; simpl; [lia|]. destruct (is_digit c); simpl; lia.
Qed.

(** On a string that starts with a digit, [strtol] skips nothing, consumes
    the run of digits and converts it. *)
Lemma strtol_digit_led (c : ascii) (t : cstring) :
  is_digit c = true ->
  let s := c :: t in
  let v := decimal_value (firstn (digit_run s) s) in
  strtol s =
  if v >? LONG_MAX
  then {| value := LONG_MAX; endptr := digit_run s; erange := true |}
  else if v <? LONG_MIN
       then {| value := LONG_MIN; endptr := digit_run s; erange := true |}
       else {| value := v; endptr := digit_run s; erange := false |}.
Proof.
  intros Hd s v. subst s v.
  destruct (is_digit_plain c Hd) as (Hs & Hm & Hp).
  unfold strtol. cbn [skip_spaces]. rewrite Hs. cbn [skipn].
  rewrite Hm, Hp. cbn [skipn digit_run]. rewrite Hd.
  cbn [Nat.eqb Nat.add]. reflexivity.
Qed.

Lemma strtol_digit_prefix (c : ascii) (t : cstring) :
  is_digit c = true ->
  strtol (c :: t) = strtol (firstn (digit_run (c :: t)) (c :: t)).
Proof.
  intros Hd.
  rewrite (strtol_digit_led c t Hd). cbv zeta.
  assert (E : firstn (digit_run (c :: t)) (c :: t)
              = c :: firstn (digit_run t) t)
    by (cbn [digit_run]; rewrite Hd; reflexivity).
  rewrite E at 4.
  rewrite (strtol_digit_led c (firstn (digit_run t) t) Hd). cbv zeta.
  rewrite <- E, digit_run_firstn, firstn_firstn, Nat.min_id. reflexivity.
Qed.

(** The backup name and number are read off the output file name: both
    are determined by the part of the file name that the output name
    keeps. *)
Lemma parse_file_name_key (s : cstring) (b : xorfs_backup) :
  parse_file_name s = ParseOk b ->
  exists P,
    output_file_name b = P ++ str ".dat"
    /\ name b = firstn (nondigit_run P - 1) P
    /\ number b = long_to_field (value (strtol (skipn (nondigit_run P) P))).
Proof.
  unfold parse_file_name.
  destruct (find_first_number s 0 _) as [f|] eqn:Ef; [|discriminate].
  apply find_first_number_spec in Ef. destruct Ef as [Ef Hlt].
  simpl in Ef. subst f.
  destruct (Z.ltb_spec (Z.of_nat (nondigit_run s) - 1) 0) as [|Hpos];
    [discriminate|].
  destruct (nondigit_run_digit s Hlt) as (c & t & Hskip & Hd).
  set (f := nondigit_run s) in *.
  set (n := endptr (strtol (skipn f s))).
  assert (Hn : n = digit_run (skipn f s)).
  { subst n. rewrite Hskip, (strtol_digit_led c t Hd). cbv zeta.
    repeat match goal with
           | |- context [if ?x then _ else _] => destruct x
           end; reflexivity. }
  assert (Hn1 : (1 <= n)%nat)
    by (rewrite Hn, Hskip; cbn [digit_run]; rewrite Hd; lia).
  intros H.
  assert (Hb : output_file_name b = firstn (f + n) s ++ str ".dat"
               /\ name b = firstn (Z.to_nat (Z.of_nat f - 1)) s
               /\ number b = long_to_field (value (strtol (skipn f s)))).
  { repeat match type of H with
           | context [if ?x then _ else _] => destruct x
           end; inversion H; subst b; cbn; auto. }
  clear H. destruct Hb as (Ho & Hm & Hnum).
  exists (firstn (f + n) s).
  assert (HfP : nondigit_run (firstn (f + n) s) = f)
    by (apply nondigit_run_firstn; lia).
  rewrite HfP. split; [assumption|]. split.
  - rewrite Hm, firstn_firstn. f_equal. lia.
  - rewrite Hnum. do 2 f_equal.
    rewrite skipn_firstn_comm.
    replace (f + n - f)%nat with n by lia.
    rewrite Hn, Hskip. now apply strtol_digit_prefix.
Qed.

Lemma same_output_same_key (s1 s2 : cstring) (b1 b2 : xorfs_backup) :
  parse_file_name s1 = ParseOk b1 ->
  parse_file_name s2 = ParseOk b2 ->
  output_file_name b1 = output_file_name b2 ->
  name b1 = name b2 /\ number b1 = number b2.
Proof.
  intros H1 H2 Ho.
  destruct (parse_file_name_key s1 b1 H1) as (P1 & Ho1 & Hn1 & Hk1).
  destruct (parse_file_name_key s2 b2 H2) as (P2 & Ho2 & Hn2 & Hk2).
  rewrite Ho1, Ho2 in Ho. apply app_inv_tail in Ho. subst P2.
  split; congruence.
Qed.

End Parsing.

(** ** The build as a whole *)

Section Build.

Lemma open_source_files_all_loaded (entries : list dirent) (w : streams)
    (cells : list xorfs_source_file) :
  load_entries [] [] entries = AllLoaded w cells ->
  (existsb (link_missing cells) cells = false ->
   xorfs_open_source_files (Some entries) =
   Returns (0, {| xorfs_source_files :=
                    {| count := List.length cells;
                       files := Live (map (relink cells) cells) |};
                  open_streams := w |}))
  /\ (existsb (link_missing cells) cells = true ->
      exists cells',
        xorfs_open_source_files (Some entries) =
        Returns (6, xorfs_close_source_files w cells')
        /\ map (fun sf => set_link sf None) cells'
           = map (fun sf => set_link sf None) cells).
Proof.
  intros Hload. unfold xorfs_open_source_files. rewrite Hload.
  destruct (check_backup_links_all cells) as (cells' & Hrun & Hk & Hok).
  rewrite Hrun. split; intros E; rewrite E in *.
  - rewrite (Hok eq_refl), length_map. reflexivity.
  - exists cells'. split; [reflexivity | exact Hk].
Qed.

Lemma open_source_files_success (entries : list dirent) (p : process) :
  xorfs_open_source_files (Some entries) = Returns (0, p) ->
  exists w cells,
    load_entries [] [] entries = AllLoaded w cells
    /\ existsb (link_missing cells) cells = false
    /\ p = {| xorfs_source_files :=
                {| count := List.length cells;
                   files := Live (map (relink cells) cells) |};
              open_streams := w |}.
Proof.
  intros H.
  pose proof (load_entries_inv entries [] [] eq_refl (Forall_nil _)) as Hinv.
  destruct (load_entries [] [] entries) as [w cells|rv w cells|] eqn:Hload.
  - destruct (open_source_files_all_loaded entries w cells Hload) as [Hok Hbad].
    destruct (existsb (link_missing cells) cells) eqn:E.
    + destruct (Hbad eq_refl) as (cells' & Hrun & _).
      rewrite Hrun in H. discriminate H.
    + rewrite (Hok eq_refl) in H. inversion H. eauto.
  - unfold xorfs_open_source_files in H. rewrite Hload in H.
    destruct Hinv as [[->|[->| ->]] _]; discriminate H.
  - unfold xorfs_open_source_files in H. rewrite Hload in H. discriminate H.
Qed.

Lemma lowest_match_map (P : xorfs_source_file -> Prop)
    (g : xorfs_source_file -> xorfs_source_file)
    (cells : list xorfs_source_file) (r : option nat) :
  (forall sf, P (g sf) <-> P sf) ->
  lowest_match P cells r -> lowest_match P (map g cells) r.
Proof.
  intros Hg. destruct r as [i|]; simpl.
  - intros [(sf & Hn & Hp) Hlow]. split.
    + exists (g sf). split; [now rewrite nth_error_map, Hn | now apply Hg].
    + intros j sf' Hj Hn'. rewrite nth_error_map in Hn'.
      destruct (nth_error cells j) as [sf0|] eqn:E; [|discriminate].
      inversion Hn'; subst. rewrite Hg. eapply Hlow; eauto.
  - intros Hnone j sf' Hn'. rewrite nth_error_map in Hn'.
    destruct (nth_error cells j) as [sf0|] eqn:E; [|discriminate].
    inversion Hn'; subst. rewrite Hg. eapply Hnone; eauto.
Qed.

Lemma link_missing_none (cells : list xorfs_source_file)
    (source_file : xorfs_source_file) :
  xor_against_number (backup source_file) <> 0 ->
  (forall other,
      In other cells ->
      ~ (name (backup other) = name (backup source_file)
         /\ number (backup other) = xor_against_number (backup source_file))) ->
  link_missing cells source_file = true.
Proof.
  intros Hx Hnone. unfold link_missing.
  destruct (Z.eqb_spec (xor_against_number (backup source_file)) 0);
    [contradiction|].
  pose proof (by_backup_name_and_number_lowest cells (name (backup source_file))
                (xor_against_number (backup source_file))) as Hl.
  destruct (get_source_file_by_backup_name_and_number _ _ _) as [i|];
    [|reflexivity].
  destruct Hl as [(sf & Hn & Hp) _]. exfalso.
  apply (Hnone sf); [eapply nth_error_In; eassumption | assumption].
Qed.

Lemma link_missing_some (cells : list xorfs_source_file)
    (source_file : xorfs_source_file) :
  (xor_against_number (backup source_file) <> 0 ->
   exists other,
     In other cells
     /\ name (backup other) = name (backup source_file)
     /\ number (backup other) = xor_against_number (backup source_file)) ->
  link_missing cells source_file = false.
Proof.
  intros Hsome. unfold link_missing.
  destruct (Z.eqb_spec (xor_against_number (backup source_file)) 0)
    as [|Hx]; [reflexivity|].
  destruct (Hsome Hx) as (other & Hin & Hm & Hn).
  pose proof (by_backup_name_and_number_lowest cells (name (backup source_file))
                (xor_against_number (backup source_file))) as Hl.
  destruct (get_source_file_by_backup_name_and_number _ _ _) as [i|];
    [reflexivity|].
  exfalso. apply In_nth_error in Hin. destruct Hin as [j Hj].
  apply (Hl j other Hj). auto.
Qed.

Lemma close_cells_length (cells : list xorfs_source_file) :
  forall w, List.length (fold_left close_cell cells w) = List.length w.
Proof.
  induction cells as [|sf cells IH]; intros w; simpl; [reflexivity|].
  rewrite IH. unfold close_cell.
  destruct (file_descriptor sf); [apply fclose_length | reflexivity].
Qed.

(** Whatever makes the build fail, it leaves no stream open and no table
    behind, and [main] returns 1 without entering [fuse_main]. *)
Lemma failed_build_releases_everything
    (entries : list dirent) (return_value : Z) (p : process) :
  xorfs_open_source_files (Some entries) = Returns (return_value, p) ->
  return_value <> 0 ->
  Forall closed (open_streams p)
  /\ files (xorfs_source_files p) = Freed
  /\ reachable_entries p = []
  /\ main (Some entries) = Exits 1 p.
Proof.
  intros H Hrv.
  assert (Hmain : main (Some entries) = Exits 1 p).
  { unfold main. rewrite H.
    destruct (Z.eqb_spec return_value 0); [contradiction | reflexivity]. }
  pose proof (load_entries_inv entries [] [] eq_refl (Forall_nil _)) as Hinv.
  destruct (load_entries [] [] entries) as [w cells|rv w cells|] eqn:Hload.
  - destruct (open_source_files_all_loaded entries w cells Hload) as [Hok Hbad].
    destruct (existsb (link_missing cells) cells) eqn:E.
    + destruct (Hbad eq_refl) as (cells' & Hrun & Hk).
      rewrite Hrun in H. inversion H; subst.
      split; [|auto].
      apply close_source_files_closed.
      destruct Hinv as (Hd & _ & _).
      intros fp Hfp. rewrite (same_descriptors _ _ Hk).
      now apply (descriptors_in_order_owned w cells Hd).
    + rewrite (Hok eq_refl) in H. inversion H. congruence.
  - unfold xorfs_open_source_files in H. rewrite Hload in H.
    inversion H; subst. destruct Hinv as [_ Hown].
    split; [|auto]. now apply close_source_files_closed.
  - unfold xorfs_open_source_files in H. rewrite Hload in H. discriminate H.
Qed.

(** C5. When the directory loads and some xored image names a number that
    no loaded entry of the same backup name has, the build returns 6;
    every stream opened for the table is then closed, the table is freed
    and no entry is reachable, and [main] returns 1 without entering
    [fuse_main]. *)
Theorem broken_chain_fails_and_releases
    (entries : list dirent) (w : streams) (cells : list xorfs_source_file)
    (source_file : xorfs_source_file) :
  load_entries [] [] entries = AllLoaded w cells ->
  In source_file cells ->
  xor_against_number (backup source_file) <> 0 ->
  (forall other,
      In other cells ->
      ~ (name (backup other) = name (backup source_file)
         /\ number (backup other) = xor_against_number (backup source_file))) ->
  exists p,
    xorfs_open_source_files (Some entries) = Returns (6, p)
    /\ List.length (open_streams p) = List.length w
    /\ Forall closed (open_streams p)
    /\ files (xorfs_source_files p) = Freed
    /\ reachable_entries p = []
    /\ main (Some entries) = Exits 1 p.
Proof.
  intros Hload Hin Hx Hnone.
  assert (E : existsb (link_missing cells) cells = true).
  { apply existsb_exists. exists source_file. split; [assumption|].
    now apply link_missing_none. }
  destruct (open_source_files_all_loaded entries w cells Hload) as [_ Hbad].
  destruct (Hbad E) as (cells' & Hrun & Hk).
  exists (xorfs_close_source_files w cells').
  split; [exact Hrun|].
  split; [apply close_cells_length|].
  split.
  - apply close_source_files_closed.
    pose proof (load_entries_inv entries [] [] eq_refl (Forall_nil _)) as Hinv.
    rewrite Hload in Hinv. destruct Hinv as (Hd & _ & _).
    intros fp Hfp. rewrite (same_descriptors _ _ Hk).
    now apply (descriptors_in_order_owned w cells Hd).
  - split; [reflexivity|]. split; [reflexivity|].
    unfold main. rewrite Hrun. reflexivity.
Qed.

(** C2, as amended. Once the directory is loaded, the build checks one
    thing: that every xored image names a number that some loaded entry of
    the same backup name has.  When that holds the build succeeds and the
    table is served, with every link filled by the look-up, whether or not
    the links form a cycle; when it does not hold the build returns 6 and
    nothing is served. *)
Theorem build_checks_that_links_resolve
    (entries : list dirent) (w : streams) (cells : list xorfs_source_file) :
  load_entries [] [] entries = AllLoaded w cells ->
  ((forall source_file,
       In source_file cells ->
       xor_against_number (backup source_file) <> 0 ->
       exists other,
         In other cells
         /\ name (backup other) = name (backup source_file)
         /\ number (backup other) = xor_against_number (backup source_file)) ->
   main (Some entries) =
   Serves {| xorfs_source_files :=
               {| count := List.length cells;
                  files := Live (map (relink cells) cells) |};
             open_streams := w |})
  /\ (existsb (link_missing cells) cells = true ->
      exists p,
        xorfs_open_source_files (Some entries) = Returns (6, p)
        /\ main (Some entries) = Exits 1 p).
Proof.
  intros Hload.
  destruct (open_source_files_all_loaded entries w cells Hload) as [Hok Hbad].
  split.
  - intros Hres.
    assert (E : existsb (link_missing cells) cells = false).
    { destruct (existsb (link_missing cells) cells) eqn:E; [|reflexivity].
      apply existsb_exists in E. destruct E as (sf & Hin & Hm).
      rewrite link_missing_some in Hm; [discriminate|]. auto. }
    unfold main. rewrite (Hok E). reflexivity.
  - intros E. destruct (Hbad E) as (cells' & Hrun & _).
    eexists. split; [exact Hrun|]. unfold main. rewrite Hrun. reflexivity.
Qed.

(** C4, as amended. The build does not look for entries with the same
    backup name and number.  When it succeeds, the table has one entry per
    accepted file, in directory order, entries with the same backup name
    and number included; and the link of a xored image is the entry of
    lowest index with its backup name and the number it names, the first
    loaded when several have them. *)
Theorem every_accepted_file_is_loaded (entries : list dirent) (p : process) :
  xorfs_open_source_files (Some entries) = Returns (0, p) ->
  map sf_name (reachable_entries p) = map d_name (accepted entries)
  /\ forall i source_file,
       nth_error (reachable_entries p) i = Some source_file ->
       xor_against_number (backup source_file) <> 0 ->
       lowest_match
         (fun other =>
            name (backup other) = name (backup source_file)
            /\ number (backup other) = xor_against_number (backup source_file))
         (reachable_entries p)
         (xor_against_source_file (backup source_file)).
Proof.
  intros H.
  destruct (open_source_files_success entries p H) as (w & cells & Hload & E & ->).
  pose proof (load_entries_inv entries [] [] eq_refl (Forall_nil _)) as Hinv.
  rewrite Hload in Hinv. destruct Hinv as (_ & _ & Hnames).
  cbn [reachable_entries xorfs_source_files files]. split.
  - rewrite map_map. exact Hnames.
  - intros i sf Hn Hx. rewrite nth_error_map in Hn.
    destruct (nth_error cells i) as [sf0|] eqn:E0; [|discriminate].
    inversion Hn; subst sf. clear Hn.
    cbn [relink set_link backup xor_against_source_file name xor_against_number]
      in *.
    unfold resolved_link.
    destruct (Z.eqb_spec (xor_against_number (backup sf0)) 0); [contradiction|].
    apply lowest_match_map; [intros sf; reflexivity|].
    apply by_backup_name_and_number_lowest.
Qed.

(** C3, as amended. In a table built with success, two entries with
    the same output file name have the same backup name and number: the
    output file name is unique across entries that differ in backup name or
    number, and only across those. *)
Theorem same_output_file_name_same_backup (entries : list dirent) (p : process) :
  xorfs_open_source_files (Some entries) = Returns (0, p) ->
  forall i j sf_i sf_j,
    nth_error (reachable_entries p) i = Some sf_i ->
    nth_error (reachable_entries p) j = Some sf_j ->
    output_file_name (backup sf_i) = output_file_name (backup sf_j) ->
    name (backup sf_i) = name (backup sf_j)
    /\ number (backup sf_i) = number (backup sf_j).
Proof.
  intros H i j sf_i sf_j Hi Hj Ho.
  destruct (open_source_files_success entries p H) as (w & cells & Hload & E & ->).
  pose proof (load_entries_inv entries [] [] eq_refl (Forall_nil _)) as Hinv.
  rewrite Hload in Hinv. destruct Hinv as (_ & Hfilled & _).
  cbn [reachable_entries xorfs_source_files files] in Hi, Hj.
  rewrite nth_error_map in Hi, Hj.
  destruct (nth_error cells i) as [ci|] eqn:Ei; [|discriminate].
  destruct (nth_error cells j) as [cj|] eqn:Ej; [|discriminate].
  inversion Hi; subst sf_i. inversion Hj; subst sf_j.
  rewrite Forall_forall in Hfilled.
  destruct (Hfilled ci (nth_error_In _ _ Ei)) as (bi & Hpi & Hbi).
  destruct (Hfilled cj (nth_error_In _ _ Ej)) as (bj & Hpj & Hbj).
  cbn [relink set_link backup name number output_file_name] in *.
  rewrite Hbi, Hbj in *. cbn [set_time name number output_file_name] in *.
  eapply same_output_same_key; eassumption.
Qed.

End Build.

(** ** The statements at concrete inputs *)

Section Examples.

(** C7. The file name [c-1x.xor] has an [x] after the backup number and no
    second number.  [strtol] converts nothing, reports no error and leaves
    its end pointer on the dot: the name is parsed as the plain image 1 of
    backup [c], and the directory that holds it is loaded and served. *)
Theorem name_without_second_number_is_accepted :
  parse_file_name (str "c-1x.xor")
  = ParseOk {| name := str "c"; number := 1; xor_against_number := 0;
               xor_against_source_file := None; time := 0;
               output_file_name := str "c-1.dat" |}
  /\ match main (Some ex_no_second_number_directory) with
     | Serves p =>
         map (fun sf => (sf_name sf, xor_against_number (backup sf),
                         xor_against_source_file (backup sf)))
           (reachable_entries p)
         = [(str "c-1x.xor", 0, None)]
     | _ => False
     end.
Proof. split; vm_compute; reflexivity. Qed.

(** A name with something other than digits and a dot after the [x] is
    turned down, by the check for the dot. *)
Example name_with_letters_after_x_is_rejected :
  parse_file_name (str "c-1xab.xor") = ParseError 5.
Proof. vm_compute. reflexivity. Qed.

Example parse_plain_name :
  parse_file_name (str "my-backup-12.xor")
  = ParseOk {| name := str "my-backup"; number := 12; xor_against_number := 0;
               xor_against_source_file := None; time := 0;
               output_file_name := str "my-backup-12.dat" |}.
Proof. vm_compute. reflexivity. Qed.

Example parse_xored_name :
  parse_file_name (str "my-backup-12x3.xor")
  = ParseOk {| name := str "my-backup"; number := 12; xor_against_number := 3;
               xor_against_source_file := None; time := 0;
               output_file_name := str "my-backup-12.dat" |}.
Proof. vm_compute. reflexivity. Qed.

(** A directory with a plain image and an image xored against it, from the
    scan to a read through the served table: the read of [c-2.dat] gives
    the xor of the two files. *)
Example read_after_build :
  match main (Some ex_chain_directory) with
  | Serves p =>
      match xorfs_operation_read ex_uninit 2 p (str "c-2.dat") (zeroes 8) 8 0 with
      | Returns (r, buf, _) => r = 8 /\ buf = xor_bytes ex_D ex_B
      | _ => False
      end
  | _ => False
  end.
Proof. vm_compute. split; reflexivity. Qed.

(** C2, counterexample. A directory whose one file is xored against
    itself is built and served; the entry's link is the entry. *)
Lemma self_reference_is_served :
  match main (Some ex_cyclic_directory) with
  | Serves p =>
      map (fun sf => (sf_name sf, number (backup sf),
                      xor_against_number (backup sf),
                      xor_against_source_file (backup sf)))
        (reachable_entries p)
      = [(str "a-1x1.xor", 1, 1, Some O)]
  | _ => False
  end.
Proof. vm_compute. reflexivity. Qed.

(** C3, counterexample. A plain image and a xored image of the same
    backup and number are both loaded, under the same output file name. *)
Lemma two_entries_share_an_output_file_name :
  match main (Some ex_same_output_directory) with
  | Serves p =>
      map (fun sf => (sf_name sf, output_file_name (backup sf)))
        (reachable_entries p)
      = [(str "c-1.xor", str "c-1.dat");
         (str "c-2.xor", str "c-2.dat");
         (str "c-2x1.xor", str "c-2.dat")]
  | _ => False
  end.
Proof. vm_compute. reflexivity. Qed.

(** C4, counterexample. Two files whose names give the same backup name
    and number are both loaded, and the build succeeds. *)
Lemma duplicate_pair_is_loaded :
  match xorfs_open_source_files (Some ex_duplicate_directory) with
  | Returns (return_value, p) =>
      return_value = 0
      /\ map (fun sf => (sf_name sf, name (backup sf), number (backup sf)))
           (reachable_entries p)
         = [(str "a-1.xor", str "a", 1); (str "a-01.xor", str "a", 1)]
  | _ => False
  end.
Proof. vm_compute. split; reflexivity. Qed.

(** C9, counterexample. Two requests on the same entry, for two bytes at
    offset 0 and for two bytes at offset 4: when the second request seeks
    between the seek and the read of the first, the first request is handed
    the bytes at offset 4; run on its own it obtains the bytes at
    offset 0, and moves the position indicator of the stream. *)
Lemma interleaved_reads_interfere :
  match xorfs_read_plain ex_streams ex_plain (zeroes 2) 0 2 with
  | Returns (r, buf, w) =>
      r = 2 /\ buf = bytes [1; 2] /\ option_map st_pos (nth_error w 0) = Some 2
  | _ => False
  end
  /\ match run_schedule [false; true; false; true] ex_streams
             (new_request ex_plain (zeroes 2) 0 2)
             (new_request ex_plain (zeroes 2) 4 2) with
     | (_, a', b') =>
         rq_pc a' = Returned 2 /\ rq_buffer a' = bytes [5; 6]
         /\ rq_pc b' = Returned 2 /\ rq_buffer b' = bytes [7; 8]
     end.
Proof. vm_compute. repeat split; reflexivity. Qed.

(** The theorems with hypotheses, applied at these inputs. *)

(** C8 at a size of one [uintmax_t]. *)
Lemma chunked_xor_is_byte_by_byte_xor_witness :
  Z.of_nat 8 mod uintmax_size = 0
  /\ xor_uintmax_chunks 8 ex_B ex_D = xor_byte_by_byte 8 ex_B ex_D
  /\ xor_buffers 8 ex_B ex_D = xor_byte_by_byte 8 ex_B ex_D.
Proof.
  destruct (chunked_xor_is_byte_by_byte_xor 8 ex_B ex_D) as (H1 & H2 & _).
  - unfold INT_MAX. simpl. lia.
  - simpl. lia.
  - simpl. lia.
  - split; [reflexivity|]. split; [apply H1; reflexivity | exact H2].
Defined.

(** C1 on the plain image [c-1.xor] and the xored image [c-2x1.xor]. *)
Lemma two_level_reconstruction_witness :
  List.length ex_D = List.length ex_B
  /\ exists w',
       xorfs_read_backup ex_uninit 2 ex_cells ex_streams ex_xored
         (zeroes 8) 0 (List.length ex_B)
       = Returns (Z.of_nat (List.length ex_B), ex_D, w').
Proof.
  split; [reflexivity|].
  apply (two_level_reconstruction ex_uninit ex_cells ex_streams ex_plain
           ex_xored 0%nat 1%nat 0%nat ex_B ex_D (zeroes 8) 2%nat);
    solve [reflexivity | discriminate | unfold INT_MAX; simpl; lia].
Defined.

(** C6 on a read of 16 bytes at offset 3 of the xored image, whose file
    has 5 bytes left there. *)
Lemma xored_read_uses_bytes_obtained_witness :
  chain_to_base ex_cells ex_streams ex_plain [ex_B]
  /\ exists code b w2,
       xorfs_read_backup ex_uninit 2 ex_cells ex_streams ex_xored
         (zeroes 16) 3 16
       = Returns (code, b, w2).
Proof.
  assert (Hchain : chain_to_base ex_cells ex_streams ex_plain [ex_B])
    by (apply (chain_plain ex_cells ex_streams ex_plain 0%nat ex_B);
        reflexivity).
  split; [exact Hchain|].
  destruct (xored_read_uses_bytes_obtained ex_uninit ex_cells ex_streams
              ex_xored ex_plain 1%nat (xor_bytes ex_B ex_D) 0%nat [ex_B]
              (zeroes 16) 3 16%nat 1%nat)
    as (first_buffer & w1 & r & second_buffer & w2 & code & b & _ & _ & _ & _
        & _ & Hread & _ & _);
    try solve [reflexivity | discriminate | exact Hchain
               | unfold INT_MAX; simpl; lia].
  exists code, b, w2. exact Hread.
Defined.

(** C9 on two requests for the plain image, at offsets 0 and 4. *)
Lemma reads_one_after_the_other_witness :
  content_of ex_streams 0%nat = Some ex_B
  /\ exists w' a' b',
       run_schedule [false; false; true; true] ex_streams
         (new_request ex_plain (zeroes 2) 0 2)
         (new_request ex_plain (zeroes 2) 4 2)
       = (w', a', b')
       /\ rq_buffer a' = bytes [1; 2] /\ rq_buffer b' = bytes [5; 6].
Proof.
  split; [reflexivity|].
  destruct (reads_one_after_the_other ex_streams ex_plain 0%nat ex_B
              (zeroes 2) (zeroes 2) 0 4 2%nat 2%nat)
    as (w' & Hrun & _);
    try solve [reflexivity | unfold INT_MAX; simpl; lia].
  eexists. eexists. eexists. split; [exact Hrun|].
  split; reflexivity.
Defined.

(** C5 on a directory where [c-2x3.xor] names a backup 3 that is not
    there. *)
Lemma broken_chain_fails_and_releases_witness :
  exists p,
    xorfs_open_source_files (Some ex_broken_directory) = Returns (6, p)
    /\ Forall closed (open_streams p)
    /\ reachable_entries p = []
    /\ main (Some ex_broken_directory) = Exits 1 p.
Proof.
  edestruct (broken_chain_fails_and_releases ex_broken_directory)
    as (p & H1 & _ & H2 & _ & H3 & H4).
  - vm_compute. reflexivity.
  - right. left. reflexivity.
  - discriminate.
  - intros other [<-|[<-|[]]] [Hn Hm]; vm_compute in Hm; discriminate Hm.
  - exists p. auto.
Defined.

(** C2 on the directory whose one image is xored against itself. *)
Lemma build_checks_that_links_resolve_witness :
  exists p, main (Some ex_cyclic_directory) = Serves p.
Proof.
  edestruct (build_checks_that_links_resolve ex_cyclic_directory) as [Hserve _].
  - vm_compute. reflexivity.
  - eexists. apply Hserve.
    intros source_file [<-|[]] _.
    eexists. split; [left; reflexivity|]. split; reflexivity.
Defined.

(** C4 on the directory with [a-1.xor] and [a-01.xor]. *)
Lemma every_accepted_file_is_loaded_witness :
  exists p,
    xorfs_open_source_files (Some ex_duplicate_directory) = Returns (0, p)
    /\ map sf_name (reachable_entries p) = map d_name (accepted ex_duplicate_directory).
Proof.
  eexists. split; [vm_compute; reflexivity|].
  eapply every_accepted_file_is_loaded. vm_compute. reflexivity.
Defined.

(** C3 on the entries of [c-2.xor] and [c-2x1.xor]. *)
Lemma same_output_file_name_same_backup_witness :
  exists p sf_i sf_j,
    xorfs_open_source_files (Some ex_same_output_directory) = Returns (0, p)
    /\ nth_error (reachable_entries p) 1 = Some sf_i
    /\ nth_error (reachable_entries p) 2 = Some sf_j
    /\ name (backup sf_i) = name (backup sf_j)
    /\ number (backup sf_i) = number (backup sf_j).
Proof.
  eexists. eexists. eexists.
  split; [vm_compute; reflexivity|].
  match goal with
  | |- nth_error (reachable_entries ?p) _ = _ /\ _ =>
      assert (H : xorfs_open_source_files (Some ex_same_output_directory)
                  = Returns (0, p)) by (vm_compute; reflexivity)
  end.
  split; [vm_compute; reflexivity|].
  split; [vm_compute; reflexivity|].
  eapply (same_output_file_name_same_backup _ _ H 1%nat 2%nat);
    vm_compute; reflexivity.
Defined.

End Examples.


(** * Further properties *)

(** ** File names *)

Section FileNames.

Lemma nondigit_run_app (pre t : cstring) :
  no_digit pre = true ->
  nondigit_run (pre ++ t) = (List.length pre + nondigit_run t)%nat.
Proof.
  induction pre as [|c pre IH]; simpl; [reflexivity|].
  intros H. apply andb_true_iff in H. destruct H as [Hc Hpre].
  destruct (is_digit c); [discriminate|]. now rewrite IH.
Qed.

Lemma nondigit_run_all (s : cstring) :
  no_digit s = true -> nondigit_run s = List.length s.
Proof.
  intros H. rewrite <- (app_nil_r s) at 1.
  rewrite nondigit_run_app by assumption. simpl. lia.
Qed.

Lemma digit_run_app (ds t : cstring) :
  all_digits ds = true ->
  digit_run (ds ++ t) = (List.length ds + digit_run t)%nat.
Proof.
  induction ds as [|c ds IH]; simpl; [reflexivity|].
  intros H. apply andb_true_iff in H. destruct H as [Hc Hds].
  rewrite Hc. now rewrite IH.
Qed.

Lemma char_at_app (pre t : cstring) (c : ascii) :
  char_at (pre ++ c :: t) (List.length pre) = c.
Proof. unfold char_at. apply nth_middle. Qed.

Lemma char_at_end (s : cstring) : char_at s (List.length s) = Ascii.zero.
Proof. unfold char_at. apply nth_overflow. lia. Qed.

(** The search for the first digit, on a name whose last offset is
    [maximum_offset]. *)
Lemma find_first_number_found :
  forall rest offset maximum_offset,
    (nondigit_run rest < List.length rest)%nat ->
    Z.of_nat offset + Z.of_nat (List.length rest) - 1 = maximum_offset ->
    find_first_number rest offset maximum_offset
    = Some (offset + nondigit_run rest)%nat.
Proof.
  induction rest as [|c rest IH]; intros offset maximum_offset Hlt Hmax;
    simpl in *; [lia|].
  destruct (is_digit c).
  - f_equal. lia.
  - destruct (Z.eqb_spec (Z.of_nat offset) maximum_offset) as [E|E]; [lia|].
    rewrite IH by lia. f_equal. lia.
Qed.

Lemma find_first_number_none :
  forall rest offset maximum_offset,
    no_digit rest = true ->
    Z.of_nat offset + Z.of_nat (List.length rest) - 1 = maximum_offset ->
    find_first_number rest offset maximum_offset = None.
Proof.
  induction rest as [|c rest IH]; intros offset maximum_offset Hno Hmax;
    simpl in *; [reflexivity|].
  apply andb_true_iff in Hno. destruct Hno as [Hc Hrest].
  destruct (is_digit c); [discriminate|].
  destruct (Z.eqb_spec (Z.of_nat offset) maximum_offset) as [E|E];
    [reflexivity|].
  apply IH; [assumption | lia].
Qed.

Lemma to_unsigned_int_to_int (z : Z) : to_unsigned_int (to_int z) = z mod 2 ^ 32.
Proof.
  unfold to_unsigned_int, to_int.
  rewrite Zminus_mod, Zmod_mod, <- Zminus_mod. f_equal. lia.
Qed.

Lemma long_to_field_small (v : Z) :
  0 <= v <= LONG_MAX -> long_to_field v = v mod 2 ^ 32.
Proof.
  intros H. unfold long_to_field.
  rewrite (Z.mod_small v) by (unfold LONG_MAX in H; lia).
  apply to_unsigned_int_to_int.
Qed.

Lemma decimal_value_from_nonneg (ds : cstring) :
  forall acc,
    all_digits ds = true -> 0 <= acc ->
    0 <= fold_left (fun a c => 10 * a + digit_value c) ds acc.
Proof.
  induction ds as [|c ds IH]; intros acc H Hacc; [assumption|].
  cbn [fold_left]. unfold all_digits in H. cbn [forallb] in H.
  apply andb_true_iff in H. destruct H as [Hc Hds].
  apply IH; [assumption|].
  unfold is_digit in Hc. apply andb_true_iff in Hc. destruct Hc as [Hlo _].
  apply Nat.leb_le in Hlo. unfold digit_value. lia.
Qed.

Lemma decimal_value_nonneg (ds : cstring) :
  all_digits ds = true -> 0 <= decimal_value ds.
Proof. intros H. apply decimal_value_from_nonneg; [assumption | lia]. Qed.

(** [strtol] on a non-empty run of digits followed by something that is
    not a digit. *)
Lemma strtol_digits (ds t : cstring) :
  ds <> [] -> all_digits ds = true -> digit_run t = O ->
  strtol (ds ++ t) =
  if decimal_value ds >? LONG_MAX
  then {| value := LONG_MAX; endptr := List.length ds; erange := true |}
  else {| value := decimal_value ds; endptr := List.length ds; erange := false |}.
Proof.
  intros Hne Hd Ht.
  pose proof (decimal_value_nonneg ds Hd) as Hv.
  destruct ds as [|c ds]; [contradiction|].
  assert (Hc : is_digit c = true)
    by (simpl in Hd; apply andb_true_iff in Hd; tauto).
  change ((c :: ds) ++ t) with (c :: (ds ++ t)).
  rewrite (strtol_digit_led c (ds ++ t) Hc). cbv zeta.
  change (c :: (ds ++ t)) with ((c :: ds) ++ t).
  rewrite (digit_run_app (c :: ds) t Hd), Ht, Nat.add_0_r.
  rewrite (firstn_length_app (c :: ds) t _ eq_refl).
  destruct (decimal_value (c :: ds) >? LONG_MAX); [reflexivity|].
  destruct (Z.ltb_spec (decimal_value (c :: ds)) LONG_MIN) as [Hlt|];
    [unfold LONG_MIN in Hlt; lia | reflexivity].
Qed.


Lemma strtol_digits_fields (ds t : cstring) :
  ds <> [] -> all_digits ds = true -> digit_run t = O ->
  value (strtol (ds ++ t))
  = (if decimal_value ds >? LONG_MAX then LONG_MAX else decimal_value ds)
  /\ endptr (strtol (ds ++ t)) = List.length ds
  /\ erange (strtol (ds ++ t)) = (decimal_value ds >? LONG_MAX).
Proof.
  intros Hne Hd Ht. rewrite (strtol_digits ds t Hne Hd Ht).
  destruct (decimal_value ds >? LONG_MAX); auto.
Qed.

(** The parse of a name made of a digit-free part, a run of digits and a
    tail that does not start with a digit: everything up to the choice
    that the character after the digits commands. *)
Lemma parse_file_name_digits (pre : cstring) (sep : ascii) (digits t : cstring) :
  no_digit (pre ++ [sep]) = true ->
  digits <> [] -> all_digits digits = true -> digit_run t = O ->
  let s := pre ++ sep :: digits ++ t in
  let xOrDot := (List.length pre + 1 + List.length digits)%nat in
  let backup_number :=
    long_to_field (if decimal_value digits >? LONG_MAX then LONG_MAX
                   else decimal_value digits) in
  let finish (against : Z) (dot : nat) :=
    if negb (Ascii.eqb (char_at s dot) ".") then ParseError 5
    else ParseOk {| name := pre; number := backup_number;
                    xor_against_number := against;
                    xor_against_source_file := None; time := 0;
                    output_file_name := pre ++ sep :: digits ++ str ".dat" |} in
  parse_file_name s =
  if Ascii.eqb (hd Ascii.zero t) "x" then
    let second := strtol (tl t) in
    if erange second then ParseError 5
    else finish (long_to_field (value second)) (xOrDot + 1 + endptr second)%nat
  else if Ascii.eqb (hd Ascii.zero t) "." then finish 0 xOrDot
  else ParseError 5.
Proof.
  intros Hpre Hne Hd Ht s xOrDot backup_number finish.
  assert (Es : s = (pre ++ [sep]) ++ digits ++ t)
    by (subst s; rewrite <- app_assoc; reflexivity).
  assert (Hf : nondigit_run s = (List.length pre + 1)%nat).
  { rewrite Es, nondigit_run_app by assumption.
    rewrite length_app. simpl List.length.
    destruct digits as [|d ds]; [contradiction|].
    simpl in Hd. apply andb_true_iff in Hd. destruct Hd as [Hd _].
    simpl. rewrite Hd. lia. }
  assert (Hlen : List.length s
                 = (List.length pre + 1 + List.length digits + List.length t)%nat)
    by (rewrite Es, !length_app; simpl; lia).
  assert (Hdl : (1 <= List.length digits)%nat)
    by (destruct digits; [contradiction | simpl; lia]).
  assert (Hfind : find_first_number s 0 (Z.of_nat (List.length s) - 1)
                  = Some (List.length pre + 1)%nat).
  { rewrite find_first_number_found; [now rewrite Hf | lia | lia]. }
  assert (Hskip : skipn (List.length pre + 1) s = digits ++ t).
  { rewrite Es, <- (Nat.add_0_r (List.length pre + 1)).
    rewrite skipn_length_app; [reflexivity|].
    rewrite length_app. simpl. lia. }
  assert (Hname : firstn (Z.to_nat (Z.of_nat (List.length pre + 1) - 1)) s = pre).
  { replace (Z.to_nat (Z.of_nat (List.length pre + 1) - 1))
      with (List.length pre) by lia.
    subst s. now apply firstn_length_app. }
  destruct (strtol_digits_fields digits t Hne Hd Ht) as (Hv & He & _).
  assert (Es2 : s = (pre ++ sep :: digits) ++ t)
    by (subst s; rewrite <- app_assoc; reflexivity).
  assert (Hl2 : List.length (pre ++ sep :: digits) = xOrDot)
    by (rewrite length_app; simpl; subst xOrDot; lia).
  assert (Hout : firstn xOrDot s = pre ++ sep :: digits)
    by (rewrite Es2; now apply firstn_length_app).
  assert (Hchar : char_at s xOrDot = hd Ascii.zero t).
  { rewrite Es2, <- Hl2. destruct t as [|c t].
    - rewrite app_nil_r. apply char_at_end.
    - apply char_at_app. }
  assert (Htl : skipn (xOrDot + 1) s = tl t).
  { rewrite Es2, (skipn_length_app _ _ _ 1 Hl2). destruct t; reflexivity. }
  unfold parse_file_name. rewrite Hfind.
  destruct (Z.ltb_spec (Z.of_nat (List.length pre + 1) - 1) 0) as [|_]; [lia|].
  rewrite Hname, Hskip, Hv, He.
  fold xOrDot. rewrite Hchar, Htl, Hout.
  subst finish backup_number. cbv beta zeta.
  rewrite Hchar, <- !app_assoc. reflexivity.
Qed.

(** X1. A name made of a part without digits, one more character that is
    not a digit, a number that fits a [long], a dot and anything at all is
    parsed as a plain image: the backup name is the first part (the
    character before the number, a dash or not, is dropped), the backup
    number is the number modulo [2^32], and the output name is the file
    name up to the end of the number followed by [.dat]. *)
Theorem plain_name_is_parsed
    (pre : cstring) (sep : ascii) (digits rest : cstring) :
  no_digit (pre ++ [sep]) = true ->
  digits <> [] ->
  all_digits digits = true ->
  decimal_value digits <= LONG_MAX ->
  parse_file_name (pre ++ sep :: digits ++ "."%char :: rest)
  = ParseOk {| name := pre;
               number := decimal_value digits mod 2 ^ 32;
               xor_against_number := 0;
               xor_against_source_file := None;
               time := 0;
               output_file_name := pre ++ sep :: digits ++ str ".dat" |}.
Proof.
  intros Hpre Hne Hd Hmax.
  rewrite (parse_file_name_digits pre sep digits ("."%char :: rest)
             Hpre Hne Hd eq_refl).
  cbv zeta. cbn [hd tl].
  change (Ascii.eqb "." "x") with false. change (Ascii.eqb "." ".") with true.
  cbv iota.
  replace (pre ++ sep :: digits ++ "."%char :: rest)
    with ((pre ++ sep :: digits) ++ "."%char :: rest)
    by (rewrite <- app_assoc; reflexivity).
  replace (List.length pre + 1 + List.length digits)%nat
    with (List.length (pre ++ sep :: digits))
    by (rewrite length_app; simpl; lia).
  rewrite char_at_app. change (Ascii.eqb "." ".") with true. cbn [negb].
  destruct (Z.gtb_spec (decimal_value digits) LONG_MAX) as [|_]; [lia|].
  rewrite long_to_field_small
    by (split; [now apply decimal_value_nonneg | assumption]).
  reflexivity.
Qed.


Lemma char_at_hd (a t : cstring) :
  char_at (a ++ t) (List.length a) = hd Ascii.zero t.
Proof.
  destruct t as [|c t]; [rewrite app_nil_r; apply char_at_end | apply char_at_app].
Qed.

Lemma char_at_after_number (pre : cstring) (sep : ascii) (digits t : cstring) :
  char_at (pre ++ sep :: digits ++ t) (List.length pre + 1 + List.length digits)
  = hd Ascii.zero t.
Proof.
  replace (pre ++ sep :: digits ++ t) with ((pre ++ sep :: digits) ++ t)
    by (rewrite <- app_assoc; reflexivity).
  replace (List.length pre + 1 + List.length digits)%nat
    with (List.length (pre ++ sep :: digits))
    by (rewrite length_app; simpl; lia).
  apply char_at_hd.
Qed.

Lemma char_at_after_second_number
    (pre : cstring) (sep : ascii) (digits digits2 t : cstring) :
  char_at (pre ++ sep :: digits ++ "x"%char :: digits2 ++ t)
    (List.length pre + 1 + List.length digits + 1 + List.length digits2)
  = hd Ascii.zero t.
Proof.
  replace (pre ++ sep :: digits ++ "x"%char :: digits2 ++ t)
    with ((pre ++ sep :: digits ++ "x"%char :: digits2) ++ t)
    by (rewrite <- !app_assoc; simpl; rewrite <- app_assoc; reflexivity).
  replace (List.length pre + 1 + List.length digits + 1 + List.length digits2)%nat
    with (List.length (pre ++ sep :: digits ++ "x"%char :: digits2))
    by (rewrite !length_app; simpl; rewrite length_app; simpl; lia).
  apply char_at_hd.
Qed.

(** X2. The same name with an [x] and a second number that fits a [long]
    between the first number and the dot is parsed as a xored image: the
    number it is xored against is the second number modulo [2^32], and the
    output name is the one of the plain image of the same backup name and
    number. *)
Theorem xored_name_is_parsed
    (pre : cstring) (sep : ascii) (digits digits2 rest : cstring) :
  no_digit (pre ++ [sep]) = true ->
  digits <> [] -> all_digits digits = true ->
  decimal_value digits <= LONG_MAX ->
  digits2 <> [] -> all_digits digits2 = true ->
  decimal_value digits2 <= LONG_MAX ->
  parse_file_name (pre ++ sep :: digits ++ "x"%char :: digits2 ++ "."%char :: rest)
  = ParseOk {| name := pre;
               number := decimal_value digits mod 2 ^ 32;
               xor_against_number := decimal_value digits2 mod 2 ^ 32;
               xor_against_source_file := None;
               time := 0;
               output_file_name := pre ++ sep :: digits ++ str ".dat" |}.
Proof.
  intros Hpre Hne Hd Hmax Hne2 Hd2 Hmax2.
  rewrite (parse_file_name_digits pre sep digits
             ("x"%char :: digits2 ++ "."%char :: rest) Hpre Hne Hd eq_refl).
  cbv zeta. cbn [hd tl].
  change (Ascii.eqb "x" "x") with true. cbv iota.
  destruct (strtol_digits_fields digits2 ("."%char :: rest) Hne2 Hd2 eq_refl)
    as (Hv & He & Hr).
  rewrite Hv, He, Hr.
  destruct (Z.gtb_spec (decimal_value digits2) LONG_MAX) as [|_]; [lia|].
  destruct (Z.gtb_spec (decimal_value digits) LONG_MAX) as [|_]; [lia|].
  rewrite char_at_after_second_number. cbn [hd].
  change (Ascii.eqb "." ".") with true. cbn [negb].
  rewrite !long_to_field_small
    by (split; [now apply decimal_value_nonneg | assumption]).
  reflexivity.
Qed.

(** X3. A first number too large for a [long] is not an error: [strtol]
    clamps it and the backup number is [2^32 - 1]. *)
Theorem first_number_out_of_range_is_clamped
    (pre : cstring) (sep : ascii) (digits rest : cstring) :
  no_digit (pre ++ [sep]) = true ->
  digits <> [] -> all_digits digits = true ->
  LONG_MAX < decimal_value digits ->
  parse_file_name (pre ++ sep :: digits ++ "."%char :: rest)
  = ParseOk {| name := pre;
               number := 4294967295;
               xor_against_number := 0;
               xor_against_source_file := None;
               time := 0;
               output_file_name := pre ++ sep :: digits ++ str ".dat" |}.
Proof.
  intros Hpre Hne Hd Hmax.
  rewrite (parse_file_name_digits pre sep digits ("."%char :: rest)
             Hpre Hne Hd eq_refl).
  cbv zeta. cbn [hd tl].
  change (Ascii.eqb "." "x") with false. change (Ascii.eqb "." ".") with true.
  cbv iota.
  rewrite char_at_after_number. cbn [hd].
  change (Ascii.eqb "." ".") with true. cbn [negb].
  destruct (Z.gtb_spec (decimal_value digits) LONG_MAX) as [_|]; [|lia].
  reflexivity.
Qed.

(** X4. A second number too large for a [long] is an error: the name is
    turned down with return value 5, whatever the first number is. *)
Theorem second_number_out_of_range_is_rejected
    (pre : cstring) (sep : ascii) (digits digits2 rest : cstring) :
  no_digit (pre ++ [sep]) = true ->
  digits <> [] -> all_digits digits = true ->
  digits2 <> [] -> all_digits digits2 = true ->
  LONG_MAX < decimal_value digits2 ->
  parse_file_name (pre ++ sep :: digits ++ "x"%char :: digits2 ++ "."%char :: rest)
  = ParseError 5.
Proof.
  intros Hpre Hne Hd Hne2 Hd2 Hmax2.
  rewrite (parse_file_name_digits pre sep digits
             ("x"%char :: digits2 ++ "."%char :: rest) Hpre Hne Hd eq_refl).
  cbv zeta. cbn [hd tl].
  change (Ascii.eqb "x" "x") with true. cbv iota.
  destruct (strtol_digits_fields digits2 ("."%char :: rest) Hne2 Hd2 eq_refl)
    as (_ & _ & Hr).
  rewrite Hr.
  destruct (Z.gtb_spec (decimal_value digits2) LONG_MAX) as [_|]; [|lia].
  reflexivity.
Qed.

(** X5. When the first number is followed by the end of the name or by a
    character that is neither a digit, nor [x], nor a dot, the name is
    turned down with return value 5. *)
Theorem name_without_x_or_dot_is_rejected
    (pre : cstring) (sep : ascii) (digits t : cstring) :
  no_digit (pre ++ [sep]) = true ->
  digits <> [] -> all_digits digits = true ->
  (forall c t', t = c :: t' ->
                is_digit c = false /\ c <> "x"%char /\ c <> "."%char) ->
  parse_file_name (pre ++ sep :: digits ++ t) = ParseError 5.
Proof.
  intros Hpre Hne Hd Ht.
  assert (Hrun : digit_run t = O).
  { destruct t as [|c t']; [reflexivity|].
    destruct (Ht c t' eq_refl) as (Hc & _). simpl. now rewrite Hc. }
  rewrite (parse_file_name_digits pre sep digits t Hpre Hne Hd Hrun).
  cbv zeta.
  assert (Hx : Ascii.eqb (hd Ascii.zero t) "x" = false).
  { destruct t as [|c t']; [reflexivity|].
    destruct (Ht c t' eq_refl) as (_ & Hx & _). now apply Ascii.eqb_neq. }
  assert (Hdot : Ascii.eqb (hd Ascii.zero t) "." = false).
  { destruct t as [|c t']; [reflexivity|].
    destruct (Ht c t' eq_refl) as (_ & _ & Hdot). now apply Ascii.eqb_neq. }
  rewrite Hx, Hdot. reflexivity.
Qed.

(** X6. When the second number is followed by the end of the name or by a
    character that is neither a digit nor a dot, the name is turned down
    with return value 5. *)
Theorem xored_name_without_dot_is_rejected
    (pre : cstring) (sep : ascii) (digits digits2 t : cstring) :
  no_digit (pre ++ [sep]) = true ->
  digits <> [] -> all_digits digits = true ->
  digits2 <> [] -> all_digits digits2 = true ->
  (forall c t', t = c :: t' -> is_digit c = false /\ c <> "."%char) ->
  parse_file_name (pre ++ sep :: digits ++ "x"%char :: digits2 ++ t)
  = ParseError 5.
Proof.
  intros Hpre Hne Hd Hne2 Hd2 Ht.
  assert (Hrun : digit_run t = O).
  { destruct t as [|c t']; [reflexivity|].
    destruct (Ht c t' eq_refl) as (Hc & _). simpl. now rewrite Hc. }
  rewrite (parse_file_name_digits pre sep digits ("x"%char :: digits2 ++ t)
             Hpre Hne Hd eq_refl).
  cbv zeta. cbn [hd tl].
  change (Ascii.eqb "x" "x") with true. cbv iota.
  destruct (strtol_digits_fields digits2 t Hne2 Hd2 Hrun) as (_ & He & _).
  rewrite He.
  destruct (erange (strtol (digits2 ++ t))); [reflexivity|].
  rewrite char_at_after_second_number.
  assert (Hdot : Ascii.eqb (hd Ascii.zero t) "." = false).
  { destruct t as [|c t']; [reflexivity|].
    destruct (Ht c t' eq_refl) as (_ & Hdot). now apply Ascii.eqb_neq. }
  rewrite Hdot. reflexivity.
Qed.

(** X7. A name without any decimal digit is turned down with return
    value 5. *)
Theorem name_without_digit_is_rejected (file_name : cstring) :
  file_name <> [] ->
  no_digit file_name = true ->
  parse_file_name file_name = ParseError 5.
Proof.
  intros Hne Hno. unfold parse_file_name.
  rewrite find_first_number_none; [reflexivity | assumption | lia].
Qed.

Lemma nth_skipn_plus {A} (l : list A) (f k : nat) (d : A) :
  nth k (skipn f l) d = nth (f + k) l d.
Proof.
  revert l; induction f as [|f IH]; intros [|x l]; simpl; auto.
  destruct k; reflexivity.
Qed.

Lemma digit_run_digit (t : cstring) :
  forall k, (k < digit_run t)%nat -> is_digit (nth k t Ascii.zero) = true.
Proof.
  induction t as [|c t IH]; simpl; intros k Hk; [lia|].
  destruct (is_digit c) eqn:E; [|lia].
  destruct k; [assumption|]. apply IH. lia.
Qed.

(** What a name that parses looks like around the end of its first
    number. *)
Lemma parse_file_name_shape (s : cstring) (b : xorfs_backup) :
  parse_file_name s = ParseOk b ->
  exists xOrDot,
    (2 <= xOrDot)%nat
    /\ is_digit (char_at s (xOrDot - 1)) = true
    /\ (char_at s xOrDot = "."%char \/ char_at s xOrDot = "x"%char)
    /\ output_file_name b = firstn xOrDot s ++ str ".dat".
Proof.
  unfold parse_file_name.
  destruct (find_first_number s 0 _) as [f|] eqn:Ef; [|discriminate].
  apply find_first_number_spec in Ef. destruct Ef as [Ef Hlt].
  simpl in Ef. subst f.
  destruct (Z.ltb_spec (Z.of_nat (nondigit_run s) - 1) 0) as [|Hpos];
    [discriminate|].
  destruct (nondigit_run_digit s Hlt) as (c & t & Hskip & Hd).
  set (f := nondigit_run s) in *.
  set (n := endptr (strtol (skipn f s))).
  assert (Hn : n = digit_run (skipn f s)).
  { subst n. rewrite Hskip, (strtol_digit_led c t Hd). cbv zeta.
    repeat match goal with
           | |- context [if ?x then _ else _] => destruct x
           end; reflexivity. }
  assert (Hn1 : (1 <= n)%nat)
    by (rewrite Hn, Hskip; cbn [digit_run]; rewrite Hd; lia).
  intros H. exists (f + n)%nat.
  split; [lia|]. split.
  - unfold char_at. replace (f + n - 1)%nat with (f + (n - 1))%nat by lia.
    rewrite <- nth_skipn_plus. apply digit_run_digit. lia.
  - destruct (Ascii.eqb_spec (char_at s (f + n)) "x") as [Ex|Ex].
    + split; [now right|].
      repeat match type of H with
             | context [if ?x then _ else _] => destruct x
             end; inversion H; reflexivity.
    + destruct (Ascii.eqb_spec (char_at s (f + n)) ".") as [Ed|Ed];
        [|discriminate].
      split; [now left|].
      repeat match type of H with
             | context [if ?x then _ else _] => destruct x
             end; inversion H; reflexivity.
Qed.

Lemma skipn_eq_suffix {A} (l suffix : list A) (k : nat) :
  skipn k l = suffix -> l = firstn k l ++ suffix.
Proof. intros <-. symmetry. apply firstn_skipn. Qed.

Lemma ignored_false_iff (entry : dirent) :
  ignored entry = false <->
  (d_type entry = DT_REG \/ d_type entry = DT_UNKNOWN)
  /\ exists pre, pre <> [] /\ d_name entry = pre ++ str ".xor".
Proof.
  unfold ignored, XORFS_SOURCE_FILE_EXTENSION.
  change (List.length (str ".xor")) with 4%nat.
  split.
  - intros H.
    assert (Ht : d_type entry = DT_REG \/ d_type entry = DT_UNKNOWN)
      by (destruct (d_type entry); try discriminate; auto).
    split; [assumption|].
    assert (H' : ((Z.of_nat (List.length (d_name entry)) - Z.of_nat 4 <=? 0)
                  || negb (cstring_eqb
                             (skipn (Z.to_nat (Z.of_nat (List.length (d_name entry))
                                               - Z.of_nat 4)) (d_name entry))
                             (str ".xor"))) = false)
      by (destruct Ht as [E|E]; rewrite E in H; exact H).
    apply orb_false_iff in H'. destruct H' as [Hlen Heq].
    apply Z.leb_gt in Hlen. apply negb_false_iff, cstring_eqb_eq in Heq.
    exists (firstn (Z.to_nat (Z.of_nat (List.length (d_name entry)) - Z.of_nat 4))
              (d_name entry)).
    split.
    + intros E. apply (f_equal (@List.length ascii)) in E.
      rewrite length_firstn in E. simpl in E. lia.
    + now apply skipn_eq_suffix.
  - intros [Ht (pre & Hne & Hname)].
    assert (Hl : List.length (d_name entry) = (List.length pre + 4)%nat)
      by (rewrite Hname, length_app; reflexivity).
    assert (Hp : (1 <= List.length pre)%nat)
      by (destruct pre; [contradiction | simpl; lia]).
    assert (H' : ((Z.of_nat (List.length (d_name entry)) - Z.of_nat 4 <=? 0)
                  || negb (cstring_eqb
                             (skipn (Z.to_nat (Z.of_nat (List.length (d_name entry))
                                               - Z.of_nat 4)) (d_name entry))
                             (str ".xor"))) = false).
    { apply orb_false_iff. split; [apply Z.leb_gt; lia|].
      apply negb_false_iff, cstring_eqb_eq.
      replace (Z.to_nat (Z.of_nat (List.length (d_name entry)) - Z.of_nat 4))
        with (List.length pre + 0)%nat by lia.
      rewrite Hname, skipn_length_app; reflexivity. }
    destruct Ht as [E|E]; rewrite E; exact H'.
Qed.

(** X8. The entries that are not passed over are exactly those of type
    [DT_REG] or [DT_UNKNOWN] whose name is [.xor] after at least one
    character; a file called just [.xor] is passed over. *)
Theorem entries_not_ignored (entry : dirent) :
  ignored entry = false <->
  (d_type entry = DT_REG \/ d_type entry = DT_UNKNOWN)
  /\ exists pre, pre <> [] /\ d_name entry = pre ++ str ".xor".
Proof. apply ignored_false_iff. Qed.

(** X9. For an entry that is not passed over and whose name parses, the
    output file name is no longer than the file name: writing [.dat] over
    the copy of the file name stays inside the copy. *)
Theorem output_file_name_fits (entry : dirent) (b : xorfs_backup) :
  ignored entry = false ->
  parse_file_name (d_name entry) = ParseOk b ->
  (List.length (output_file_name b) <= List.length (d_name entry))%nat.
Proof.
  intros Hi Hp. apply ignored_false_iff in Hi.
  destruct Hi as [_ (pre & _ & Hname)].
  destruct (parse_file_name_shape _ _ Hp) as (xd & Hxd & Hdig & Hch & Hout).
  rewrite Hout, length_app, length_firstn. change (List.length (str ".dat")) with 4%nat.
  rewrite Hname in *. rewrite length_app. change (List.length (str ".xor")) with 4%nat.
  assert (Hc : forall k, (k < 4)%nat ->
             char_at (pre ++ str ".xor") (List.length pre + k)
             = nth k (str ".xor") Ascii.zero).
  { intros k Hk. unfold char_at. rewrite app_nth2 by lia. f_equal. lia. }
  assert (Hbound : (xd < List.length pre + 4)%nat).
  { destruct (Nat.lt_ge_cases xd (List.length pre + 4)) as [|Hge]; [assumption|].
    exfalso. unfold char_at in Hch.
    rewrite nth_overflow in Hch by (rewrite length_app; simpl; lia).
    destruct Hch; discriminate. }
  assert (Hcases : (xd <= List.length pre \/ xd = List.length pre + 1
                    \/ xd = List.length pre + 2 \/ xd = List.length pre + 3)%nat)
    by lia.
  destruct Hcases as [H|[H|[H|H]]]; [lia| | |]; exfalso; subst xd.
  - rewrite (Hc 1%nat) in Hch by lia. simpl in Hch.
    destruct Hch as [Hch|_]; [discriminate|].
    replace (List.length pre + 1 - 1)%nat with (List.length pre + 0)%nat in Hdig by lia.
    rewrite (Hc 0%nat) in Hdig by lia. discriminate Hdig.
  - rewrite (Hc 2%nat) in Hch by lia. simpl in Hch. destruct Hch; discriminate.
  - rewrite (Hc 3%nat) in Hch by lia. simpl in Hch. destruct Hch; discriminate.
Qed.

End FileNames.

(** ** The table after the build *)

Section BuiltTable.

Lemma load_entries_accepted :
  forall directory w cells,
    load_entries w cells directory = load_entries w cells (accepted directory).
Proof.
  induction directory as [|entry directory IH]; intros w cells; [reflexivity|].
  unfold accepted. cbn [load_entries filter].
  destruct (ignored entry) eqn:Ei; cbn [negb].
  - apply IH.
  - cbn [load_entries]. rewrite Ei.
    destruct (load_source_file w entry); try reflexivity. apply IH.
Qed.

(** X10. The build sees the entries that are not passed over and nothing
    else: it gives the same result, return value and state, on the
    directory without the other entries. *)
Theorem build_ignores_other_entries (entries : list dirent) :
  xorfs_open_source_files (Some entries)
  = xorfs_open_source_files (Some (accepted entries)).
Proof.
  unfold xorfs_open_source_files. now rewrite load_entries_accepted.
Qed.

Lemma load_source_file_loaded (w w1 : streams) (entry : dirent)
    (sf : xorfs_source_file) :
  load_source_file w entry = Loaded w1 sf ->
  exists st, w1 = w ++ [st] /\ mirrors w1 (List.length w) entry sf.
Proof.
  unfold load_source_file.
  destruct (d_file entry) as [f|] eqn:Ef; [|discriminate].
  cbn [fopen].
  destruct (df_stat f) as [s|] eqn:Es; [|discriminate].
  destruct (parse_file_name (d_name entry)) as [b| |] eqn:Ep; try discriminate.
  intros H. inversion H; subst. eexists. split; [reflexivity|].
  exists f, s, b. cbn.
  repeat (split; [solve [assumption | reflexivity]|]).
  rewrite nth_error_app2, Nat.sub_diag by lia. reflexivity.
Qed.

Lemma mirrors_more_streams (w extra : streams) (fp : FILE) (entry : dirent)
    (sf : xorfs_source_file) :
  mirrors w fp entry sf -> mirrors (w ++ extra) fp entry sf.
Proof.
  intros (f & s & b & H1 & H2 & H3 & H4 & H5 & H6 & H7 & H8 & H9 & H10 & H11 & H12).
  exists f, s, b. repeat (split; [assumption|]).
  rewrite nth_error_app1; [assumption|].
  apply nth_error_Some. congruence.
Qed.

Lemma load_entries_mirrors :
  forall directory w cells w' cells',
    load_entries w cells directory = AllLoaded w' cells' ->
    exists new_streams new_cells,
      w' = w ++ new_streams
      /\ cells' = cells ++ new_cells
      /\ List.length new_cells = List.length (accepted directory)
      /\ List.length new_streams = List.length (accepted directory)
      /\ forall i entry,
           nth_error (accepted directory) i = Some entry ->
           exists sf, nth_error new_cells i = Some sf
                      /\ mirrors w' (List.length w + i)%nat entry sf.
Proof.
  induction directory as [|entry directory IH]; intros w cells w' cells' H.
  - simpl in H. inversion H; subst. exists [], [].
    rewrite !app_nil_r. repeat split; auto.
    intros [|i] e Hi; discriminate Hi.
  - cbn [load_entries] in H. unfold accepted. cbn [filter].
    destruct (ignored entry) eqn:Ei; cbn [negb].
    + now apply IH.
    + destruct (load_source_file w entry) as [w1 sf|rv w1 sf|] eqn:El;
        try discriminate.
      destruct (load_source_file_loaded _ _ _ _ El) as (st & -> & Hm).
      destruct (IH _ _ _ _ H) as (ns & nc & -> & -> & Hlc & Hls & Hall).
      exists (st :: ns), (sf :: nc).
      rewrite <- !app_assoc. cbn [app List.length].
      split; [reflexivity|]. split; [reflexivity|].
      split; [now rewrite Hlc|]. split; [now rewrite Hls|].
      intros [|i] e Hi; cbn [nth_error] in Hi |- *.
      * inversion Hi; subst e. exists sf. split; [reflexivity|].
        rewrite Nat.add_0_r.
        change (w ++ st :: ns) with (w ++ [st] ++ ns). rewrite app_assoc.
        now apply mirrors_more_streams.
      * destruct (Hall i e Hi) as (sf' & Hn & Hm').
        exists sf'. split; [assumption|].
        rewrite length_app in Hm'. cbn [List.length] in Hm'.
        replace (List.length w + S i)%nat with (List.length w + 1 + i)%nat by lia.
        rewrite <- app_assoc in Hm'. exact Hm'.
Qed.

Lemma mirrors_relink (w : streams) (fp : FILE) (entry : dirent)
    (cells : list xorfs_source_file) (sf : xorfs_source_file) :
  mirrors w fp entry sf -> mirrors w fp entry (relink cells sf).
Proof.
  intros (f & s & b & H). exists f, s, b. exact H.
Qed.

Lemma built_table_mirrors (entries : list dirent) (p : process) :
  xorfs_open_source_files (Some entries) = Returns (0, p) ->
  count (xorfs_source_files p) = List.length (accepted entries)
  /\ List.length (reachable_entries p) = List.length (accepted entries)
  /\ List.length (open_streams p) = List.length (accepted entries)
  /\ forall i entry,
       nth_error (accepted entries) i = Some entry ->
       exists sf, nth_error (reachable_entries p) i = Some sf
                  /\ mirrors (open_streams p) i entry sf.
Proof.
  intros H.
  destruct (open_source_files_success entries p H) as (w & cells & Hload & E & ->).
  destruct (load_entries_mirrors _ _ _ _ _ Hload)
    as (ns & nc & -> & -> & Hlc & Hls & Hall).
  cbn [reachable_entries xorfs_source_files files count open_streams app].
  rewrite length_map.
  repeat (split; [assumption|]).
  intros i e Hi. destruct (Hall i e Hi) as (sf & Hn & Hm).
  exists (relink nc sf). split.
  - rewrite nth_error_map. cbn [app] in Hn. now rewrite Hn.
  - apply mirrors_relink. exact Hm.
Qed.

(** X11. After a build that succeeds the table mirrors the directory:
    there is one entry and one stream per entry that is not passed over,
    in directory order; entry [i] carries the file name, the result of
    [fstat] and the fields parsed from the name, its backup time is the
    file's modification time, and its stream is stream [i], open on the
    file's bytes at position 0. *)
Theorem loaded_table_mirrors_directory (entries : list dirent) (p : process) :
  xorfs_open_source_files (Some entries) = Returns (0, p) ->
  count (xorfs_source_files p) = List.length (accepted entries)
  /\ List.length (reachable_entries p) = List.length (accepted entries)
  /\ List.length (open_streams p) = List.length (accepted entries)
  /\ forall i entry,
       nth_error (accepted entries) i = Some entry ->
       exists sf, nth_error (reachable_entries p) i = Some sf
                  /\ mirrors (open_streams p) i entry sf.
Proof. apply built_table_mirrors. Qed.


Lemma content_of_nth (w : streams) (fp : FILE) (c : list byte) (pos : Z) :
  nth_error w fp = Some {| st_content := c; st_pos := pos; st_open := true |} ->
  content_of w fp = Some c.
Proof. intros H. unfold content_of, live_stream. rewrite H. reflexivity. Qed.

Lemma built_links (entries : list dirent) (p : process) :
  xorfs_open_source_files (Some entries) = Returns (0, p) ->
  forall sf,
    In sf (reachable_entries p) ->
    (xor_against_number (backup sf) = 0 ->
     xor_against_source_file (backup sf) = None)
    /\ (xor_against_number (backup sf) <> 0 ->
        exists q target,
          xor_against_source_file (backup sf) = Some q
          /\ nth_error (reachable_entries p) q = Some target).
Proof.
  intros H sf Hin.
  destruct (open_source_files_success entries p H) as (w & cells & Hload & E & ->).
  cbn [reachable_entries xorfs_source_files files] in *.
  apply in_map_iff in Hin. destruct Hin as (sf0 & <- & Hin0).
  cbn [relink set_link backup xor_against_number xor_against_source_file].
  unfold resolved_link. split.
  - intros Hx. now rewrite Hx.
  - intros Hx.
    destruct (Z.eqb_spec (xor_against_number (backup sf0)) 0) as [|_];
      [contradiction|].
    assert (Hm : link_missing cells sf0 = false).
    { destruct (link_missing cells sf0) eqn:Em; [|reflexivity].
      assert (existsb (link_missing cells) cells = true)
        by (apply existsb_exists; eauto).
      congruence. }
    unfold link_missing in Hm.
    destruct (Z.eqb_spec (xor_against_number (backup sf0)) 0) as [|_];
      [contradiction|]. cbn [negb andb] in Hm.
    pose proof (by_backup_name_and_number_lowest cells (name (backup sf0))
                  (xor_against_number (backup sf0))) as Hl.
    destruct (get_source_file_by_backup_name_and_number cells _ _) as [q|];
      [|discriminate].
    destruct Hl as [(target & Hq & _) _].
    exists q, (relink cells target). split; [reflexivity|].
    rewrite nth_error_map, Hq. reflexivity.
Qed.

Lemma built_table_readable (entries : list dirent) (p : process) :
  xorfs_open_source_files (Some entries) = Returns (0, p) ->
  readable_table (reachable_entries p) (open_streams p).
Proof.
  intros H sf Hin. split.
  - destruct (built_table_mirrors entries p H) as (_ & Hlen & _ & Hall).
    destruct (In_nth_error _ _ Hin) as [i Hi].
    assert (Hlt : (i < List.length (accepted entries))%nat)
      by (rewrite <- Hlen; apply nth_error_Some; congruence).
    destruct (nth_error (accepted entries) i) as [e|] eqn:Ee;
      [|apply nth_error_None in Ee; lia].
    destruct (Hall i e Ee) as (sf' & Hn & Hm).
    assert (sf' = sf) by congruence. subst sf'.
    destruct Hm as (f & s & b & _ & _ & _ & _ & Hfd & _ & _ & _ & _ & _ & _ & Hst).
    exists i, (df_content f). split; [assumption|].
    eapply content_of_nth; eassumption.
  - apply (built_links entries p H sf Hin).
Qed.

(** X12. In a table built with success, the link of an entry is NULL
    exactly when the entry is a plain image, and the link of a xored image
    points at an entry of the table. *)
Theorem link_is_null_exactly_for_plain_images
    (entries : list dirent) (p : process) (sf : xorfs_source_file) :
  xorfs_open_source_files (Some entries) = Returns (0, p) ->
  In sf (reachable_entries p) ->
  (xor_against_source_file (backup sf) = None
   <-> xor_against_number (backup sf) = 0)
  /\ (forall q, xor_against_source_file (backup sf) = Some q ->
                (q < List.length (reachable_entries p))%nat).
Proof.
  intros H Hin. destruct (built_links entries p H sf Hin) as [Hplain Hxored].
  split; [split|].
  - intros Hnone.
    destruct (Z.eq_dec (xor_against_number (backup sf)) 0) as [|Hx];
      [assumption|].
    destruct (Hxored Hx) as (q & target & Hq & _). congruence.
  - exact Hplain.
  - intros q Hq.
    destruct (Z.eq_dec (xor_against_number (backup sf)) 0) as [Hx|Hx].
    + rewrite (Hplain Hx) in Hq. discriminate.
    + destruct (Hxored Hx) as (q' & target & Hq' & Hn).
      apply nth_error_Some. congruence.
Qed.

(** A call of [xorfs_read_plain] on an entry whose stream is open
    returns, at any offset. *)
Lemma xorfs_read_plain_defined (w : streams) (sf : xorfs_source_file)
    (fp : FILE) (c : list byte) (buf : buffer) (offset : Z) (size : nat) :
  file_descriptor sf = Some fp ->
  content_of w fp = Some c ->
  exists r b w1,
    xorfs_read_plain w sf buf offset size = Returns (r, b, w1)
    /\ forall fp', content_of w1 fp' = content_of w fp'.
Proof.
  intros Hfd Hc.
  destruct (content_of_live _ _ _ Hc) as (st & Hlive & Hst).
  destruct (Z.ltb_spec offset 0) as [Hneg|Hpos].
  - exists (- EINVAL), buf, w. split; [|reflexivity].
    unfold xorfs_read_plain, fseek. rewrite Hfd, Hlive.
    destruct (Z.ltb_spec offset 0); [reflexivity | lia].
  - pose proof (xorfs_read_plain_returns w sf fp st buf offset size
                  Hfd Hlive Hpos) as Hr. cbv zeta in Hr.
    eexists. eexists. eexists. split; [exact Hr|].
    apply (content_of_update w fp st); auto.
    apply live_stream_inv in Hlive. simpl. tauto.
Qed.

Lemma xorfs_read_backup_defined (uninit : nat -> nat -> byte)
    (cells : list xorfs_source_file) (w : streams) :
  readable_table cells w ->
  forall fuel sf w1 buf offset size,
    In sf cells ->
    (forall fp, content_of w1 fp = content_of w fp) ->
    match xorfs_read_backup uninit fuel cells w1 sf buf offset size with
    | Returns (_, _, w2) => forall fp, content_of w2 fp = content_of w fp
    | OutOfFuel => True
    | Undefined => False
    end.
Proof.
  intros Hok. induction fuel as [|fuel IH]; intros sf w1 buf offset size Hin Hw1;
    [exact I|].
  destruct (Hok sf Hin) as [(fp & c & Hfd & Hc) Hlink].
  rewrite <- Hw1 in Hc.
  destruct (xorfs_read_plain_defined w1 sf fp c buf offset size Hfd Hc)
    as (r & b & w2 & Hread & Hw2).
  cbn [xorfs_read_backup]. rewrite Hread.
  assert (Hw2' : forall fp', content_of w2 fp' = content_of w fp')
    by (intros fp'; now rewrite Hw2, Hw1).
  destruct (r <? 0); [exact Hw2'|].
  destruct (Z.eqb_spec (xor_against_number (backup sf)) 0) as [|Hx];
    [exact Hw2'|].
  destruct (Hlink Hx) as (q & target & Hq & Hn).
  rewrite Hq, Hn.
  specialize (IH target w2 (malloc uninit fuel size) offset (Z.to_nat r)
                (nth_error_In _ _ Hn) Hw2').
  destruct (xorfs_read_backup uninit fuel cells w2 target _ offset _)
    as [[[r2 b2] w3]| |]; [|contradiction | exact I].
  destruct (r2 <? 0); [exact IH|].
  destruct (negb (r2 =? r)); exact IH.
Qed.

(** X13. After a build that succeeds no read through the served table
    leaves defined behaviour: whatever the name, the offset and the size,
    [xorfs_operation_read] never follows a NULL link, never indexes
    outside the table and never uses a stream that is missing or closed. *)
Theorem served_reads_are_defined
    (entries : list dirent) (p : process) (uninit : nat -> nat -> byte)
    (fuel : nat) (requested_name : cstring) (buf : buffer) (size : nat)
    (offset : Z) :
  xorfs_open_source_files (Some entries) = Returns (0, p) ->
  xorfs_operation_read uninit fuel p requested_name buf size offset <> Undefined.
Proof.
  intros H. unfold xorfs_operation_read.
  pose proof (by_file_name_lowest (reachable_entries p) requested_name) as Hl.
  destruct (xorfs_get_source_file_by_file_name _ _) as [i|]; [|discriminate].
  destruct Hl as [(sf & Hn & _) _]. rewrite Hn.
  pose proof (xorfs_read_backup_defined uninit _ _ (built_table_readable _ _ H)
                fuel sf (open_streams p) buf offset size
                (nth_error_In _ _ Hn) (fun _ => eq_refl)) as Hd.
  destruct (xorfs_read_backup uninit fuel _ _ sf buf offset size);
    [discriminate | contradiction | discriminate].
Qed.

(** X14. After a build that succeeds, [xorfs_close_source_files] closes
    every stream that the build opened: none stays open, and none is
    added or removed. *)
Theorem close_after_build_closes_every_stream
    (entries : list dirent) (p : process) :
  xorfs_open_source_files (Some entries) = Returns (0, p) ->
  let q := xorfs_close_source_files (open_streams p) (reachable_entries p) in
  Forall closed (open_streams q)
  /\ List.length (open_streams q) = List.length (open_streams p)
  /\ files (xorfs_source_files q) = Freed.
Proof.
  intros H q. subst q.
  destruct (open_source_files_success entries p H) as (w & cells & Hload & E & ->).
  cbn [reachable_entries xorfs_source_files files open_streams].
  pose proof (load_entries_inv entries [] [] eq_refl (Forall_nil _)) as Hinv.
  rewrite Hload in Hinv. destruct Hinv as (Hd & _ & _).
  split; [|split; [apply close_cells_length | reflexivity]].
  apply close_source_files_closed.
  intros fp Hfp. rewrite map_map.
  change (fun x => file_descriptor (relink cells x)) with file_descriptor.
  now apply (descriptors_in_order_owned w cells Hd).
Qed.

End BuiltTable.

(** ** Reading through chains of any length *)

Section Chains.

Variable uninit : nat -> nat -> byte.
Variable cells : list xorfs_source_file.

Lemma bytes_at_idem (c : list byte) (offset : Z) (size : nat) :
  bytes_at c offset (List.length (bytes_at c offset size)) = bytes_at c offset size.
Proof.
  unfold bytes_at. generalize (skipn (Z.to_nat offset) c). intros l.
  revert size; induction l as [|x l IH]; intros [|size]; simpl; auto.
  now rewrite IH.
Qed.

Lemma bytes_at_past_end (c : list byte) (offset : Z) (size : nat) :
  Z.of_nat (List.length c) <= offset -> bytes_at c offset size = [].
Proof.
  intros H. unfold bytes_at. rewrite skipn_all2 by lia. apply firstn_nil.
Qed.

Lemma yieldsb_yields (offset : Z) (n : nat) (l : list (list byte)) :
  forallb (yieldsb offset n) l = true <-> Forall (fun c => yields c offset n) l.
Proof.
  rewrite forallb_forall, Forall_forall. unfold yieldsb, yields.
  split; intros H c Hc; apply Nat.eqb_eq; auto.
Qed.

(** The value that the reconstruction returns: the number of bytes the
    entry's own file yields when every file further down yields as many,
    and [-EIO] otherwise. *)
Lemma spec_read_fst (offset : Z) :
  forall rest c size,
    fst (spec_read (c :: rest) offset size) =
    let n := List.length (bytes_at c offset size) in
    if forallb (yieldsb offset n) rest then Z.of_nat n else - EIO.
Proof.
  induction rest as [|c2 rest IH]; intros c size; [reflexivity|].
  rewrite spec_read_cons. cbv zeta.
  set (n := List.length (bytes_at c offset size)).
  specialize (IH c2 n). cbv zeta in IH.
  pose proof (bytes_at_length c2 offset n) as Hn2.
  destruct (spec_read (c2 :: rest) offset n) as [r pd]. cbn [fst] in IH.
  cbn [forallb]. unfold yieldsb at 1.
  destruct (Nat.eqb_spec (List.length (bytes_at c2 offset n)) n) as [E|E].
  - rewrite E in IH. cbn [andb].
    destruct (forallb (yieldsb offset n) rest).
    + subst r. destruct (Z.ltb_spec (Z.of_nat n) 0); [lia|].
      now rewrite Z.ltb_irrefl.
    + subst r. reflexivity.
  - cbn [andb].
    destruct (forallb (yieldsb offset (List.length (bytes_at c2 offset n))) rest);
      subst r.
    + destruct (Z.ltb_spec (Z.of_nat (List.length (bytes_at c2 offset n))) 0);
        [lia|].
      destruct (Z.ltb_spec (Z.of_nat (List.length (bytes_at c2 offset n)))
                  (Z.of_nat n)); [reflexivity | lia].
    + reflexivity.
Qed.

Lemma spec_read_snd (offset : Z) :
  forall rest c size,
    forallb (yieldsb offset (List.length (bytes_at c offset size))) rest = true ->
    snd (spec_read (c :: rest) offset size) =
    xor_all (map (fun c' => bytes_at c' offset
                              (List.length (bytes_at c offset size)))
               (c :: rest)).
Proof.
  induction rest as [|c2 rest IH]; intros c size Hall.
  - cbn. now rewrite bytes_at_idem.
  - rewrite spec_read_cons. cbv zeta.
    set (n := List.length (bytes_at c offset size)) in *.
    cbn [forallb] in Hall. apply andb_true_iff in Hall.
    destruct Hall as [Hc2 Hrest]. unfold yieldsb in Hc2.
    apply Nat.eqb_eq in Hc2.
    pose proof (spec_read_fst offset rest c2 n) as Hfst. cbv zeta in Hfst.
    specialize (IH c2 n). rewrite Hc2 in IH, Hfst. rewrite Hrest in Hfst.
    specialize (IH Hrest).
    destruct (spec_read (c2 :: rest) offset n) as [r pd].
    cbn [fst snd] in *. subst r pd.
    destruct (Z.ltb_spec (Z.of_nat n) 0); [lia|].
    rewrite Z.ltb_irrefl. cbn [snd map xor_all].
    unfold n. rewrite bytes_at_idem. reflexivity.
Qed.

(** X15. Reading at a negative offset fails with [-EINVAL] at once: the
    buffer and the streams are left as they were and the image the entry
    is xored against is not read. *)
Theorem read_at_negative_offset
    (w : streams) (source_file : xorfs_source_file) (fp : FILE) (c : list byte)
    (buf : buffer) (offset : Z) (size fuel : nat) :
  file_descriptor source_file = Some fp ->
  content_of w fp = Some c ->
  offset < 0 ->
  xorfs_read_backup uninit (S fuel) cells w source_file buf offset size
  = Returns (- EINVAL, buf, w).
Proof.
  intros Hfd Hc Hoff.
  destruct (content_of_live _ _ _ Hc) as (st & Hlive & _).
  cbn [xorfs_read_backup]. unfold xorfs_read_plain, fseek.
  rewrite Hfd, Hlive.
  destruct (Z.ltb_spec offset 0); [reflexivity | lia].
Qed.

(** X16. Reading an entry of a chain of any length that ends in a plain
    image: when the entry's own file yields [n] bytes at the offset and
    every file further down the chain yields [n] bytes there too, the read
    returns [n] and the first [n] bytes of the buffer are the xor of the
    bytes that all the files of the chain hold at that offset. *)
Theorem chain_read_xors_every_level
    (w : streams) (source_file : xorfs_source_file) (c : list byte)
    (rest : list (list byte)) (buf : buffer) (offset : Z) (size fuel : nat) :
  chain_to_base cells w source_file (c :: rest) ->
  (List.length (c :: rest) <= fuel)%nat ->
  0 <= offset ->
  Z.of_nat size <= INT_MAX ->
  (size <= List.length buf)%nat ->
  let n := List.length (bytes_at c offset size) in
  Forall (fun c' => yields c' offset n) rest ->
  exists b w',
    xorfs_read_backup uninit fuel cells w source_file buf offset size
    = Returns (Z.of_nat n, b, w')
    /\ firstn n b = xor_all (map (fun c' => bytes_at c' offset n) (c :: rest)).
Proof.
  intros Hchain Hfuel Hoff Hmax Hbuf n Hall.
  apply yieldsb_yields in Hall.
  destruct (xorfs_read_backup_chain uninit cells offset Hoff _ _ _ Hchain
              fuel buf size Hfuel Hmax Hbuf)
    as (b & w' & Hread & _ & Hdata & _ & _).
  pose proof (spec_read_fst offset rest c size) as Hfst. cbv zeta in Hfst.
  fold n in Hfst. rewrite Hall in Hfst.
  pose proof (spec_read_snd offset rest c size Hall) as Hsnd. fold n in Hsnd.
  rewrite Hfst in Hread, Hdata.
  exists b, w'. split; [exact Hread|].
  destruct Hdata as [Hlen Hfirst]; [lia|].
  rewrite <- Hsnd, <- Hfirst. f_equal. lia.
Qed.

(** X17. When some file further down the chain yields fewer bytes at the
    offset than the entry's own file, the read returns [-EIO]. *)
Theorem chain_read_mismatch
    (w : streams) (source_file : xorfs_source_file) (c : list byte)
    (rest : list (list byte)) (buf : buffer) (offset : Z) (size fuel : nat) :
  chain_to_base cells w source_file (c :: rest) ->
  (List.length (c :: rest) <= fuel)%nat ->
  0 <= offset ->
  Z.of_nat size <= INT_MAX ->
  (size <= List.length buf)%nat ->
  let n := List.length (bytes_at c offset size) in
  Exists (fun c' => ~ yields c' offset n) rest ->
  exists b w',
    xorfs_read_backup uninit fuel cells w source_file buf offset size
    = Returns (- EIO, b, w').
Proof.
  intros Hchain Hfuel Hoff Hmax Hbuf n Hex.
  destruct (xorfs_read_backup_chain uninit cells offset Hoff _ _ _ Hchain
              fuel buf size Hfuel Hmax Hbuf)
    as (b & w' & Hread & _).
  pose proof (spec_read_fst offset rest c size) as Hfst. cbv zeta in Hfst.
  fold n in Hfst.
  assert (Hno : forallb (yieldsb offset n) rest = false).
  { destruct (forallb (yieldsb offset n) rest) eqn:E; [|reflexivity].
    apply yieldsb_yields in E. rewrite Forall_forall in E.
    apply Exists_exists in Hex. destruct Hex as (c' & Hin & Hc').
    exfalso. apply Hc'. now apply E. }
  rewrite Hno in Hfst. rewrite Hfst in Hread. eauto.
Qed.

(** X18. Reading at or beyond the end of the entry's own file returns 0,
    whatever the lengths of the files further down the chain. *)
Theorem chain_read_at_end_of_file
    (w : streams) (source_file : xorfs_source_file) (c : list byte)
    (rest : list (list byte)) (buf : buffer) (offset : Z) (size fuel : nat) :
  chain_to_base cells w source_file (c :: rest) ->
  (List.length (c :: rest) <= fuel)%nat ->
  Z.of_nat (List.length c) <= offset ->
  Z.of_nat size <= INT_MAX ->
  (size <= List.length buf)%nat ->
  exists b w',
    xorfs_read_backup uninit fuel cells w source_file buf offset size
    = Returns (0, b, w').
Proof.
  intros Hchain Hfuel Hoff Hmax Hbuf.
  assert (Hoff0 : 0 <= offset) by lia.
  destruct (xorfs_read_backup_chain uninit cells offset Hoff0 _ _ _ Hchain
              fuel buf size Hfuel Hmax Hbuf)
    as (b & w' & Hread & _).
  pose proof (spec_read_fst offset rest c size) as Hfst. cbv zeta in Hfst.
  rewrite (bytes_at_past_end c offset size Hoff) in Hfst. cbn [List.length] in Hfst.
  assert (Hall : forallb (yieldsb offset 0) rest = true).
  { apply forallb_forall. intros c' _. unfold yieldsb, bytes_at.
    now rewrite firstn_O. }
  rewrite Hall in Hfst. rewrite Hfst in Hread. eauto.
Qed.

End Chains.

(** ** Bounds of a read, and the xor block once more *)

Section Bounds.

Variable uninit : nat -> nat -> byte.
Variable cells : list xorfs_source_file.

Lemma xorfs_read_plain_bounds (w w1 : streams) (sf : xorfs_source_file)
    (buf b : buffer) (offset r : Z) (size : nat) :
  xorfs_read_plain w sf buf offset size = Returns (r, b, w1) ->
  Z.of_nat size <= INT_MAX ->
  (size <= List.length buf)%nat ->
  r <= Z.of_nat size /\ List.length b = List.length buf.
Proof.
  unfold xorfs_read_plain, fseek, fread. intros H Hmax Hbuf.
  destruct (file_descriptor sf) as [fp|]; [|discriminate].
  destruct (live_stream w fp) as [st|]; [|discriminate].
  destruct (offset <? 0).
  - cbn in H. inversion H; subst. unfold EINVAL. split; [lia | reflexivity].
  - cbn [Z.ltb Z.compare] in H.
    destruct (live_stream _ fp) as [st'|]; [|discriminate].
    inversion H; subst. clear H.
    pose proof (bytes_at_length (st_content st') (st_pos st') size) as Hlen.
    rewrite to_int_small by lia.
    split; [lia|]. rewrite length_app, length_skipn. lia.
Qed.

Lemma xorfs_read_backup_bounds :
  forall fuel w sf buf offset size r b w',
    xorfs_read_backup uninit fuel cells w sf buf offset size = Returns (r, b, w') ->
    Z.of_nat size <= INT_MAX ->
    (size <= List.length buf)%nat ->
    r <= Z.of_nat size /\ List.length b = List.length buf.
Proof.
  induction fuel as [|fuel IH]; intros w sf buf offset size r b w' H Hmax Hbuf;
    [discriminate|].
  cbn [xorfs_read_backup] in H.
  destruct (xorfs_read_plain w sf buf offset size) as [[[r1 b1] w1]| |] eqn:Hread;
    try discriminate.
  destruct (xorfs_read_plain_bounds _ _ _ _ _ _ _ _ Hread Hmax Hbuf) as [Hr1 Hb1].
  destruct (Z.ltb_spec r1 0) as [Hneg|Hpos];
    [inversion H; subst; split; [lia | assumption]|].
  destruct (xor_against_number (backup sf) =? 0);
    [inversion H; subst; split; assumption|].
  destruct (xor_against_source_file (backup sf)) as [q|]; [|discriminate].
  destruct (nth_error cells q) as [target|]; [|discriminate].
  destruct (xorfs_read_backup uninit fuel cells w1 target (malloc uninit fuel size)
              offset (Z.to_nat r1)) as [[[r2 b2] w2]| |] eqn:Hrec;
    try discriminate.
  destruct (IH _ _ _ _ _ _ _ _ Hrec) as [_ Hb2];
    [lia | rewrite length_malloc; lia |].
  rewrite length_malloc in Hb2.
  destruct (r2 <? 0) eqn:E2.
  - inversion H; subst. apply Z.ltb_lt in E2. split; [lia | assumption].
  - destruct (negb (r2 =? r1)); inversion H; subst.
    + unfold EIO. split; [lia | assumption].
    + split; [assumption|].
      rewrite xor_buffers_spec by lia.
      rewrite length_app, xor_bytes_length, !length_firstn, length_skipn. lia.
Qed.

(** X19. Whatever the table and the chain, a read that returns never
    reports more bytes than were asked for, and leaves the buffer as long
    as it was: nothing is written outside the [size] bytes of the
    buffer. *)
Theorem read_stays_within_request
    (fuel : nat) (w w' : streams) (source_file : xorfs_source_file)
    (buf b : buffer) (offset r : Z) (size : nat) :
  xorfs_read_backup uninit fuel cells w source_file buf offset size
  = Returns (r, b, w') ->
  Z.of_nat size <= INT_MAX ->
  (size <= List.length buf)%nat ->
  r <= Z.of_nat size
  /\ List.length b = List.length buf
  /\ skipn size b = skipn size buf.
Proof.
  intros H Hmax Hbuf.
  destruct (xorfs_read_backup_bounds _ _ _ _ _ _ _ _ _ H Hmax Hbuf) as [Hr Hb].
  split; [assumption|]. split; [assumption|].
  destruct fuel as [|fuel]; [discriminate|].
  cbn [xorfs_read_backup] in H.
  destruct (xorfs_read_plain w source_file buf offset size)
    as [[[r1 b1] w1]| |] eqn:Hread; try discriminate.
  assert (Hb1 : skipn size b1 = skipn size buf /\ List.length b1 = List.length buf).
  { revert Hread. unfold xorfs_read_plain, fseek, fread.
    destruct (file_descriptor source_file) as [fp|]; [|discriminate].
    destruct (live_stream w fp) as [st|]; [|discriminate].
    destruct (offset <? 0).
    - cbn. intros E; inversion E; subst. auto.
    - cbn [Z.ltb Z.compare].
      destruct (live_stream _ fp) as [st'|]; [|discriminate].
      intros E; inversion E; subst. clear E.
      pose proof (bytes_at_length (st_content st') (st_pos st') size) as Hlen.
      split; [|rewrite length_app, length_skipn; lia].
      rewrite skipn_app, skipn_skipn.
      rewrite skipn_all2 by lia. cbn [app]. f_equal. lia. }
  destruct Hb1 as [Hs1 Hl1].
  destruct (r1 <? 0); [inversion H; subst; assumption|].
  destruct (xor_against_number (backup source_file) =? 0);
    [inversion H; subst; assumption|].
  destruct (xor_against_source_file (backup source_file)) as [q|]; [|discriminate].
  destruct (nth_error cells q) as [target|]; [|discriminate].
  destruct (xorfs_read_backup uninit fuel cells w1 target (malloc uninit fuel size)
              offset (Z.to_nat r1)) as [[[r2 b2] w2]| |] eqn:Hrec;
    try discriminate.
  assert (Hr1 : r1 <= Z.of_nat size).
  { destruct (xorfs_read_plain_bounds _ _ _ _ _ _ _ _ Hread Hmax Hbuf). lia. }
  assert (Hb2 : List.length b2 = size).
  { destruct (xorfs_read_backup_bounds _ _ _ _ _ _ _ _ _ Hrec) as [_ Hb2];
      [lia | rewrite length_malloc; lia |].
    now rewrite length_malloc in Hb2. }
  destruct (r2 <? 0); [inversion H; subst; assumption|].
  destruct (negb (r2 =? r1)); inversion H; subst; [assumption|].
  rewrite xor_buffers_spec by lia.
  rewrite skipn_app, xor_bytes_length, !length_firstn.
  rewrite skipn_all2 by (rewrite xor_bytes_length, !length_firstn; lia).
  cbn [app]. rewrite skipn_skipn, <- Hs1. f_equal. lia.
Qed.

End Bounds.

Section XorBlock.

Lemma byte_xor_cancel_r (a b : byte) : byte.xor (byte.xor a b) b = a.
Proof.
  apply byte.unsigned_inj. unfold byte.xor.
  rewrite !byte.unsigned_of_Z.
  rewrite <- (byte.wrap_unsigned a), <- (byte.wrap_unsigned b).
  unfold byte.wrap. rewrite <- !Z.land_ones by lia.
  Z.bitblast.
Qed.

Lemma xor_bytes_cancel_r (A B : list byte) :
  List.length A = List.length B -> xor_bytes (xor_bytes A B) B = A.
Proof.
  revert B; induction A as [|a A IH]; intros [|b B] H; simpl in *;
    try discriminate; [reflexivity|].
  rewrite byte_xor_cancel_r, IH by lia. reflexivity.
Qed.

(** X20. Xoring a buffer twice with the same second buffer gives the
    buffer back: the block that decodes a xored image also encodes it. *)
Theorem xor_buffers_twice (size : nat) (first_buffer second_buffer : buffer) :
  Z.of_nat size <= INT_MAX ->
  (size <= List.length first_buffer)%nat ->
  (size <= List.length second_buffer)%nat ->
  xor_buffers size (xor_buffers size first_buffer second_buffer) second_buffer
  = first_buffer.
Proof.
  intros Hmax H1 H2.
  rewrite (xor_buffers_spec size first_buffer) by assumption.
  set (X := xor_bytes (firstn size first_buffer) (firstn size second_buffer)).
  assert (HX : List.length X = size)
    by (subst X; rewrite xor_bytes_length, !length_firstn; lia).
  rewrite xor_buffers_spec;
    [|assumption | rewrite length_app, length_skipn; lia | assumption].
  rewrite (firstn_length_app X _ size HX).
  rewrite <- (Nat.add_0_r size) at 2.
  rewrite (skipn_length_app X _ size 0 HX). cbn [skipn].
  subst X. rewrite xor_bytes_cancel_r by (rewrite !length_firstn; lia).
  apply firstn_skipn.
Qed.

(** X21. The xor block changes the first [size] bytes of the first
    buffer only: the bytes after them and the length of the buffer are as
    before. *)
Theorem xor_buffers_leaves_the_rest
    (size : nat) (first_buffer second_buffer : buffer) :
  Z.of_nat size <= INT_MAX ->
  (size <= List.length first_buffer)%nat ->
  (size <= List.length second_buffer)%nat ->
  skipn size (xor_buffers size first_buffer second_buffer)
  = skipn size first_buffer
  /\ List.length (xor_buffers size first_buffer second_buffer)
     = List.length first_buffer.
Proof.
  intros Hmax H1 H2. rewrite xor_buffers_spec by assumption.
  set (X := xor_bytes (firstn size first_buffer) (firstn size second_buffer)).
  assert (HX : List.length X = size)
    by (subst X; rewrite xor_bytes_length, !length_firstn; lia).
  split.
  - rewrite <- (Nat.add_0_r size) at 1.
    now rewrite (skipn_length_app X _ size 0 HX).
  - rewrite length_app, HX, length_skipn. lia.
Qed.

End XorBlock.

(** ** The operations on names *)

Section Operations.

Lemma lookup_by_file_name_none (cells : list xorfs_source_file)
    (requested_name : cstring) :
  (forall sf, In sf cells -> output_file_name (backup sf) <> requested_name) ->
  xorfs_get_source_file_by_file_name cells requested_name = None.
Proof.
  intros Hnone.
  pose proof (by_file_name_lowest cells requested_name) as Hl.
  destruct (xorfs_get_source_file_by_file_name cells requested_name) as [i|];
    [|reflexivity].
  destruct Hl as [(sf & Hn & Hp) _]. exfalso.
  apply (Hnone sf); [eapply nth_error_In; eassumption | assumption].
Qed.

Lemma lookup_by_file_name_first (cells : list xorfs_source_file)
    (requested_name : cstring) (i : nat) (sf : xorfs_source_file) :
  nth_error cells i = Some sf ->
  output_file_name (backup sf) = requested_name ->
  (forall j sf', (j < i)%nat -> nth_error cells j = Some sf' ->
                 output_file_name (backup sf') <> requested_name) ->
  xorfs_get_source_file_by_file_name cells requested_name = Some i.
Proof.
  intros Hn Ho Hfirst.
  pose proof (by_file_name_lowest cells requested_name) as Hl.
  destruct (xorfs_get_source_file_by_file_name cells requested_name) as [k|].
  - destruct Hl as [(sfk & Hk & Hpk) Hlow]. f_equal.
    destruct (Nat.lt_trichotomy k i) as [Hlt|[Heq|Hgt]]; [|assumption|].
    + exfalso. apply (Hfirst k sfk Hlt Hk Hpk).
    + exfalso. apply (Hlow i sf Hgt Hn Ho).
  - exfalso. apply (Hl i sf Hn Ho).
Qed.

Lemma lookup_by_file_name_some (cells : list xorfs_source_file)
    (requested_name : cstring) :
  In requested_name (map (fun sf => output_file_name (backup sf)) cells) ->
  exists i sf,
    xorfs_get_source_file_by_file_name cells requested_name = Some i
    /\ nth_error cells i = Some sf.
Proof.
  intros Hin. apply in_map_iff in Hin. destruct Hin as (sf0 & Ho & Hin0).
  pose proof (by_file_name_lowest cells requested_name) as Hl.
  destruct (xorfs_get_source_file_by_file_name cells requested_name) as [i|].
  - destruct Hl as [(sf & Hn & _) _]. eauto.
  - exfalso. apply In_nth_error in Hin0. destruct Hin0 as [j Hj].
    apply (Hl j sf0 Hj Ho).
Qed.


(** X23. Reading a name reads the first entry of the table that has it as
    its output file name; an entry that comes later with the same output
    file name cannot be read under that name. *)
Theorem read_of_name_reads_first_entry
    (uninit : nat -> nat -> byte) (fuel : nat) (p : process)
    (requested_name : cstring) (buf : buffer) (size : nat) (offset : Z)
    (i : nat) (sf : xorfs_source_file) :
  nth_error (reachable_entries p) i = Some sf ->
  output_file_name (backup sf) = requested_name ->
  (forall j sf', (j < i)%nat -> nth_error (reachable_entries p) j = Some sf' ->
                 output_file_name (backup sf') <> requested_name) ->
  xorfs_operation_read uninit fuel p requested_name buf size offset
  = xorfs_read_backup uninit fuel (reachable_entries p) (open_streams p) sf
      buf offset size.
Proof.
  intros Hn Ho Hfirst. unfold xorfs_operation_read.
  rewrite (lookup_by_file_name_first _ _ i sf Hn Ho Hfirst), Hn. reflexivity.
Qed.

Lemma cstring_eqb_false (a b : cstring) : a <> b -> cstring_eqb a b = false.
Proof. apply cstring_eqb_neq. Qed.

(** X24. Every name that [xorfs_operation_readdir] lists for the root,
    [.] and [..] apart, is a name that [xorfs_operation_getattr] knows:
    asked for it under the root, it returns 0. *)
Theorem listed_names_have_attributes
    (env : environment) (cells : list xorfs_source_file) (listed : cstring)
    (st : attributes) :
  In listed (snd (xorfs_operation_readdir cells (str "/") [])) ->
  listed <> str "." -> listed <> str ".." ->
  exists st',
    xorfs_operation_getattr env cells ("/"%char :: listed) st = Returns (0, st').
Proof.
  unfold xorfs_operation_readdir. rewrite cstring_eqb_refl. cbn [snd app].
  intros Hin Hdot Hdots.
  destruct Hin as [E|[E|Hin]]; [congruence | congruence |].
  unfold xorfs_operation_getattr.
  destruct (cstring_eqb ("/"%char :: listed) (str "/")); [eauto|].
  destruct (cstring_eqb listed XORFS_DEBUG_FILE_NAME) eqn:Ed; [eauto|].
  apply in_app_or in Hin. destruct Hin as [Hin|[E|[]]].
  - destruct (lookup_by_file_name_some cells listed Hin) as (i & sf & Hl & Hn).
    rewrite Hl, Hn. eauto.
  - subst listed. rewrite cstring_eqb_refl in Ed. discriminate.
Qed.

(** X25. Asked for a name that is not empty, is not the debug file's and
    is no entry's output file name, [xorfs_operation_getattr] returns
    [-ENOENT] and leaves the structure as the caller passed it. *)
Theorem attributes_of_unknown_name
    (env : environment) (cells : list xorfs_source_file) (requested : cstring)
    (st : attributes) :
  requested <> [] ->
  requested <> XORFS_DEBUG_FILE_NAME ->
  (forall sf, In sf cells -> output_file_name (backup sf) <> requested) ->
  xorfs_operation_getattr env cells ("/"%char :: requested) st
  = Returns (- ENOENT, st).
Proof.
  intros Hne Hd Hnone. unfold xorfs_operation_getattr.
  assert (E : cstring_eqb ("/"%char :: requested) (str "/") = false).
  { apply cstring_eqb_false. intros H. inversion H. contradiction. }
  rewrite E, (cstring_eqb_false _ _ Hd), lookup_by_file_name_none by assumption.
  reflexivity.
Qed.

(** X26. After a build that succeeds, the attributes of an output file
    name are those of the first entry's own file: the size and the
    modification time that [fstat] gave for the file of the directory
    entry it was loaded from, whatever the entry is xored against. *)
Theorem attributes_are_those_of_the_own_file
    (env : environment) (entries : list dirent) (p : process)
    (requested : cstring) (i : nat) (entry : dirent) (f : disk_file)
    (s : file_stat) (st : attributes) :
  xorfs_open_source_files (Some entries) = Returns (0, p) ->
  requested <> [] ->
  requested <> XORFS_DEBUG_FILE_NAME ->
  xorfs_get_source_file_by_file_name (reachable_entries p) requested = Some i ->
  nth_error (accepted entries) i = Some entry ->
  d_file entry = Some f ->
  df_stat f = Some s ->
  xorfs_operation_getattr env (reachable_entries p) ("/"%char :: requested) st
  = Returns (0, {| a_mode := Z.lor S_IFREG XORFS_FILE_PERMISSIONS;
                   a_nlink := 1;
                   a_uid := uid env; a_gid := gid env;
                   a_size := st_size s;
                   a_atime := now env;
                   a_mtime := st_mtime s;
                   a_ctime := st_mtime s |}).
Proof.
  intros H Hne Hd Hl He Hf Hs.
  destruct (built_table_mirrors entries p H) as (_ & _ & _ & Hall).
  destruct (Hall i entry He) as (sf & Hn & Hm).
  destruct Hm as (f' & s' & b & Hf' & Hs' & _ & _ & _ & Hstat & _ & _ & _ & _
                  & Htime & _).
  assert (Es : s' = s) by congruence. rewrite Es in Hstat, Htime.
  unfold xorfs_operation_getattr.
  assert (E : cstring_eqb ("/"%char :: requested) (str "/") = false).
  { apply cstring_eqb_false. intros H'. inversion H'. contradiction. }
  rewrite E, (cstring_eqb_false _ _ Hd), Hl, Hn.
  unfold common_attributes. cbn. rewrite Hstat, Htime. reflexivity.
Qed.

(** X27. The procedure given to [fuse_opt_parse] takes the first
    argument that is not an option as the source directory and drops it;
    every other argument, the later non-options included, is kept for
    [fuse_main], in order.  Without such an argument the source directory
    stays NULL and every argument is kept. *)
Theorem first_non_option_is_the_source_directory
    (before after : list (cstring * Z)) (arg : cstring) :
  (forall a, In a before -> snd a <> FUSE_OPT_KEY_NONOPT) ->
  process_arguments None (before ++ (arg, FUSE_OPT_KEY_NONOPT) :: after)
  = (before ++ after, Some arg)
  /\ process_arguments None before = (before, None).
Proof.
  intros Hbefore.
  assert (Hafter : forall l path, process_arguments (Some path) l = (l, Some path)).
  { induction l as [|[a k] l IH]; intros path; [reflexivity|].
    cbn [process_arguments xorfs_process_argument]. rewrite IH. reflexivity. }
  induction before as [|[a k] before IH].
  - split; [|reflexivity].
    cbn [app process_arguments xorfs_process_argument].
    rewrite Z.eqb_refl, Hafter. reflexivity.
  - assert (Hk : (k =? FUSE_OPT_KEY_NONOPT) = false).
    { apply Z.eqb_neq. apply (Hbefore (a, k)). now left. }
    destruct IH as [IH1 IH2]; [intros x Hx; apply Hbefore; now right|].
    cbn [app process_arguments xorfs_process_argument].
    rewrite Hk, IH1, IH2. split; reflexivity.
Qed.

(** X28. After a build that succeeds, the root directory lists [.] and
    [..], then one name per directory entry that is not passed over, in
    directory order and with repetitions when two files give the same
    output file name, then the debug file. *)
Theorem listing_after_build (entries : list dirent) (p : process) :
  xorfs_open_source_files (Some entries) = Returns (0, p) ->
  exists names,
    xorfs_operation_readdir (reachable_entries p) (str "/") []
    = (0, [str "."; str ".."] ++ names ++ [XORFS_DEBUG_FILE_NAME])
    /\ List.length names = List.length (accepted entries)
    /\ forall i entry b,
         nth_error (accepted entries) i = Some entry ->
         parse_file_name (d_name entry) = ParseOk b ->
         nth_error names i = Some (output_file_name b).
Proof.
  intros H.
  destruct (built_table_mirrors entries p H) as (_ & Hlen & _ & Hall).
  exists (map (fun sf => output_file_name (backup sf)) (reachable_entries p)).
  split; [|split].
  - unfold xorfs_operation_readdir. rewrite cstring_eqb_refl. reflexivity.
  - now rewrite length_map.
  - intros i e b He Hp. destruct (Hall i e He) as (sf & Hn & Hm).
    destruct Hm as (f & s & b' & _ & _ & Hp' & _ & _ & _ & _ & _ & _ & Ho & _).
    rewrite nth_error_map, Hn. cbn. congruence.
Qed.

End Operations.

(** ** Failures and cycles *)

Section FailuresAndCycles.

(** X29. Whatever makes the build return a value other than 0 (a file
    that cannot be opened or examined, a name that does not parse, a
    missing link), every stream opened so far is closed, the table is
    freed and [main] returns 1 without entering [fuse_main]. *)
Theorem every_failure_releases_everything
    (entries : list dirent) (return_value : Z) (p : process) :
  xorfs_open_source_files (Some entries) = Returns (return_value, p) ->
  return_value <> 0 ->
  Forall closed (open_streams p)
  /\ files (xorfs_source_files p) = Freed
  /\ reachable_entries p = []
  /\ main (Some entries) = Exits 1 p.
Proof. apply failed_build_releases_everything. Qed.

(** X30. A read that starts in a set of xored images whose links stay in
    the set (a cycle of any length, a self-reference) never returns: at
    every depth the next image is read in turn, and no bound on the
    nesting is enough. *)
Theorem read_in_a_cycle_never_returns
    (uninit : nat -> nat -> byte) (cells : list xorfs_source_file)
    (w : streams) (in_cycle : xorfs_source_file -> Prop) (offset : Z) :
  (forall sf,
      in_cycle sf ->
      xor_against_number (backup sf) <> 0
      /\ exists fp c q next,
           file_descriptor sf = Some fp
           /\ content_of w fp = Some c
           /\ xor_against_source_file (backup sf) = Some q
           /\ nth_error cells q = Some next
           /\ in_cycle next) ->
  0 <= offset ->
  forall fuel source_file buf size,
    in_cycle source_file ->
    Z.of_nat size <= INT_MAX ->
    xorfs_read_backup uninit fuel cells w source_file buf offset size = OutOfFuel.
Proof.
  intros Hcycle Hoff fuel.
  assert (Hgen : forall w1 source_file buf size,
             (forall fp, content_of w1 fp = content_of w fp) ->
             in_cycle source_file ->
             Z.of_nat size <= INT_MAX ->
             xorfs_read_backup uninit fuel cells w1 source_file buf offset size
             = OutOfFuel).
  { induction fuel as [|fuel IH]; intros w1 sf buf size Hw1 Hin Hmax;
      [reflexivity|].
    destruct (Hcycle sf Hin) as (Hx & fp & c & q & next & Hfd & Hc & Hq & Hn & Hnext).
    rewrite <- Hw1 in Hc.
    destruct (xorfs_read_plain_content w1 sf fp c buf offset size Hfd Hc Hoff Hmax)
      as (w2 & Hread & Hw2).
    pose proof (bytes_at_length c offset size) as Hlen.
    cbn [xorfs_read_backup]. rewrite Hread.
    destruct (Z.ltb_spec (Z.of_nat (List.length (bytes_at c offset size))) 0)
      as [|_]; [lia|].
    destruct (Z.eqb_spec (xor_against_number (backup sf)) 0) as [|_];
      [contradiction|].
    rewrite Hq, Hn, Nat2Z.id, IH; [reflexivity | | assumption | lia].
    intros fp'. now rewrite Hw2, Hw1. }
  intros source_file buf size Hin Hmax. apply Hgen; auto.
Qed.

End FailuresAndCycles.

(** ** The further properties at concrete inputs *)

Section MoreExamples.

(** X1 on [my-backup-12.xor]. *)
Lemma plain_name_is_parsed_witness :
  parse_file_name (str "my-backup" ++ "-"%char :: str "12" ++ "."%char :: str "xor")
  = ParseOk {| name := str "my-backup";
               number := decimal_value (str "12") mod 2 ^ 32;
               xor_against_number := 0;
               xor_against_source_file := None;
               time := 0;
               output_file_name := str "my-backup" ++ "-"%char :: str "12" ++ str ".dat" |}.
Proof.
  apply plain_name_is_parsed; try reflexivity; [discriminate|].
  vm_compute. discriminate.
Defined.

(** X2 on [my-backup-12x3.xor]. *)
Lemma xored_name_is_parsed_witness :
  parse_file_name (str "my-backup" ++ "-"%char :: str "12"
                   ++ "x"%char :: str "3" ++ "."%char :: str "xor")
  = ParseOk {| name := str "my-backup";
               number := decimal_value (str "12") mod 2 ^ 32;
               xor_against_number := decimal_value (str "3") mod 2 ^ 32;
               xor_against_source_file := None;
               time := 0;
               output_file_name := str "my-backup" ++ "-"%char :: str "12" ++ str ".dat" |}.
Proof.
  apply xored_name_is_parsed; try reflexivity; try discriminate;
    vm_compute; discriminate.
Defined.

(** X3 on a backup number of twenty digits. *)
Lemma first_number_out_of_range_is_clamped_witness :
  parse_file_name (str "c" ++ "-"%char :: str "99999999999999999999"
                   ++ "."%char :: str "xor")
  = ParseOk {| name := str "c";
               number := 4294967295;
               xor_against_number := 0;
               xor_against_source_file := None;
               time := 0;
               output_file_name :=
                 str "c" ++ "-"%char :: str "99999999999999999999" ++ str ".dat" |}.
Proof.
  apply first_number_out_of_range_is_clamped; try reflexivity; discriminate.
Defined.

(** X4 on a second number of twenty digits. *)
Lemma second_number_out_of_range_is_rejected_witness :
  parse_file_name (str "c" ++ "-"%char :: str "2"
                   ++ "x"%char :: str "99999999999999999999" ++ "."%char :: str "xor")
  = ParseError 5.
Proof.
  apply second_number_out_of_range_is_rejected; try reflexivity; discriminate.
Defined.

(** X5 on [c-1y.xor]. *)
Lemma name_without_x_or_dot_is_rejected_witness :
  parse_file_name (str "c" ++ "-"%char :: str "1" ++ str "y.xor") = ParseError 5.
Proof.
  apply name_without_x_or_dot_is_rejected; try reflexivity; [discriminate|].
  intros c t' E. inversion E; subst.
  split; [reflexivity|]. split; discriminate.
Defined.

(** X6 on [c-2x1y.xor]. *)
Lemma xored_name_without_dot_is_rejected_witness :
  parse_file_name (str "c" ++ "-"%char :: str "2" ++ "x"%char :: str "1" ++ str "y.xor")
  = ParseError 5.
Proof.
  apply xored_name_without_dot_is_rejected; try reflexivity; try discriminate.
  intros c t' E. inversion E; subst.
  split; [reflexivity | discriminate].
Defined.

(** X7 on [notes.xor]. *)
Lemma name_without_digit_is_rejected_witness :
  parse_file_name (str "notes.xor") = ParseError 5.
Proof.
  apply name_without_digit_is_rejected; [discriminate | reflexivity].
Defined.

(** X9 on the entry [c-2x1.xor]. *)
Lemma output_file_name_fits_witness :
  (List.length (str "c-2.dat") <= List.length (d_name (regular "c-2x1.xor" ex_D)))%nat.
Proof.
  apply (output_file_name_fits (regular "c-2x1.xor" ex_D)
           {| name := str "c"; number := 2; xor_against_number := 1;
              xor_against_source_file := None; time := 0;
              output_file_name := str "c-2.dat" |});
    vm_compute; reflexivity.
Defined.

(** X11 on the directory with [c-1.xor], [notes.txt] and [c-2x1.xor]. *)
Lemma loaded_table_mirrors_directory_witness :
  exists p,
    xorfs_open_source_files (Some ex_chain_directory) = Returns (0, p)
    /\ count (xorfs_source_files p) = List.length (accepted ex_chain_directory)
    /\ List.length (open_streams p) = List.length (accepted ex_chain_directory).
Proof.
  eexists. split; [vm_compute; reflexivity|].
  match goal with
  | |- count (xorfs_source_files ?p) = _ /\ _ =>
      destruct (loaded_table_mirrors_directory ex_chain_directory p)
        as (H1 & _ & H3 & _); [vm_compute; reflexivity|]
  end.
  split; assumption.
Defined.

(** X12 on the entry of [c-2x1.xor] in the same table. *)
Lemma link_is_null_exactly_for_plain_images_witness :
  exists p sf,
    xorfs_open_source_files (Some ex_chain_directory) = Returns (0, p)
    /\ nth_error (reachable_entries p) 1 = Some sf
    /\ (xor_against_source_file (backup sf) = None
        <-> xor_against_number (backup sf) = 0).
Proof.
  eexists. eexists. split; [vm_compute; reflexivity|].
  split; [vm_compute; reflexivity|].
  match goal with
  | |- xor_against_source_file (backup ?sf) = None <-> _ =>
      eapply (link_is_null_exactly_for_plain_images ex_chain_directory _ sf)
  end.
  - vm_compute. reflexivity.
  - right. left. reflexivity.
Defined.

(** X13 on a read of [c-2.dat] in the same table. *)
Lemma served_reads_are_defined_witness :
  exists p,
    xorfs_open_source_files (Some ex_chain_directory) = Returns (0, p)
    /\ xorfs_operation_read ex_uninit 5 p (str "c-2.dat") (zeroes 8) 8 0
       <> Undefined.
Proof.
  eexists. split; [vm_compute; reflexivity|].
  eapply (served_reads_are_defined ex_chain_directory). vm_compute. reflexivity.
Defined.

(** X14 on the same table. *)
Lemma close_after_build_closes_every_stream_witness :
  exists p,
    xorfs_open_source_files (Some ex_chain_directory) = Returns (0, p)
    /\ Forall closed
         (open_streams
            (xorfs_close_source_files (open_streams p) (reachable_entries p))).
Proof.
  eexists. split; [vm_compute; reflexivity|].
  eapply (close_after_build_closes_every_stream ex_chain_directory).
  vm_compute. reflexivity.
Defined.

(** X15 on the xored image of the two-entry chain. *)
Lemma read_at_negative_offset_witness :
  xorfs_read_backup ex_uninit 2 ex_cells ex_streams ex_xored (zeroes 8) (-1) 8
  = Returns (- EINVAL, zeroes 8, ex_streams).
Proof.
  apply (read_at_negative_offset ex_uninit ex_cells ex_streams ex_xored 1%nat
           (xor_bytes ex_B ex_D)); [reflexivity | reflexivity | lia].
Defined.

Lemma ex_chain3 :
  chain_to_base ex_cells3 ex_streams3 ex_xored3 [ex_E; ex_D; ex_B].
Proof.
  apply (chain_xored ex_cells3 ex_streams3 ex_xored3 2%nat ex_E 1%nat ex_xored);
    try reflexivity; [discriminate|].
  apply (chain_xored ex_cells3 ex_streams3 ex_xored 1%nat ex_D 0%nat ex_plain);
    try reflexivity; [discriminate|].
  apply (chain_plain ex_cells3 ex_streams3 ex_plain 0%nat ex_B); reflexivity.
Defined.

Lemma ex_chain3_short :
  chain_to_base ex_cells3 ex_streams3_short ex_xored3 [ex_E; ex_D; firstn 4 ex_B].
Proof.
  apply (chain_xored ex_cells3 ex_streams3_short ex_xored3 2%nat ex_E 1%nat ex_xored);
    try reflexivity; [discriminate|].
  apply (chain_xored ex_cells3 ex_streams3_short ex_xored 1%nat ex_D 0%nat ex_plain);
    try reflexivity; [discriminate|].
  apply (chain_plain ex_cells3 ex_streams3_short ex_plain 0%nat (firstn 4 ex_B));
    reflexivity.
Defined.

(** X16 on the chain of three entries, six bytes at offset 2. *)
Lemma chain_read_xors_every_level_witness :
  exists b w',
    xorfs_read_backup ex_uninit 3 ex_cells3 ex_streams3 ex_xored3 (zeroes 16) 2 16
    = Returns (6, b, w')
    /\ firstn 6 b = xor_all [bytes_at ex_E 2 6; bytes_at ex_D 2 6; bytes_at ex_B 2 6].
Proof.
  apply (chain_read_xors_every_level ex_uninit ex_cells3 ex_streams3 ex_xored3
           ex_E [ex_D; ex_B] (zeroes 16) 2 16%nat 3%nat ex_chain3);
    try (simpl; lia); try (unfold INT_MAX; simpl; lia).
  repeat constructor.
Defined.

(** X17 on the chain whose plain image is four bytes long. *)
Lemma chain_read_mismatch_witness :
  exists b w',
    xorfs_read_backup ex_uninit 3 ex_cells3 ex_streams3_short ex_xored3
      (zeroes 16) 2 16
    = Returns (- EIO, b, w').
Proof.
  apply (chain_read_mismatch ex_uninit ex_cells3 ex_streams3_short ex_xored3
           ex_E [ex_D; firstn 4 ex_B] (zeroes 16) 2 16%nat 3%nat ex_chain3_short);
    try (simpl; lia); try (unfold INT_MAX; simpl; lia).
  apply Exists_cons_tl. apply Exists_cons_hd. vm_compute. discriminate.
Defined.

(** X18 on the same chain, at offset 8. *)
Lemma chain_read_at_end_of_file_witness :
  exists b w',
    xorfs_read_backup ex_uninit 3 ex_cells3 ex_streams3_short ex_xored3
      (zeroes 16) 8 16
    = Returns (0, b, w').
Proof.
  apply (chain_read_at_end_of_file ex_uninit ex_cells3 ex_streams3_short
           ex_xored3 ex_E [ex_D; firstn 4 ex_B] (zeroes 16) 8 16%nat 3%nat
           ex_chain3_short);
    try (simpl; lia); unfold INT_MAX; simpl; lia.
Defined.

(** X19 on a read of the two-entry chain. *)
Lemma read_stays_within_request_witness :
  exists r b w',
    xorfs_read_backup ex_uninit 2 ex_cells ex_streams ex_xored (zeroes 16) 3 12
    = Returns (r, b, w')
    /\ r <= 12 /\ List.length b = 16%nat /\ skipn 12 b = skipn 12 (zeroes 16).
Proof.
  eexists. eexists. eexists. split; [vm_compute; reflexivity|].
  eapply (read_stays_within_request ex_uninit ex_cells 2 ex_streams _ ex_xored
            (zeroes 16) _ 3 _ 12).
  - vm_compute. reflexivity.
  - unfold INT_MAX. simpl. lia.
  - simpl. lia.
Defined.

(** X20 and X21 on two buffers of eight bytes, five of them xored. *)
Lemma xor_buffers_twice_witness :
  xor_buffers 5 (xor_buffers 5 ex_B ex_D) ex_D = ex_B.
Proof.
  apply xor_buffers_twice; [unfold INT_MAX; simpl; lia | simpl; lia | simpl; lia].
Defined.

Lemma xor_buffers_leaves_the_rest_witness :
  skipn 5 (xor_buffers 5 ex_B ex_D) = skipn 5 ex_B
  /\ List.length (xor_buffers 5 ex_B ex_D) = List.length ex_B.
Proof.
  apply xor_buffers_leaves_the_rest;
    [unfold INT_MAX; simpl; lia | simpl; lia | simpl; lia].
Defined.


(** X23 on the table where [c-2.xor] and [c-2x1.xor] both give [c-2.dat]:
    the name reads the entry of [c-2.xor]. *)
Lemma read_of_name_reads_first_entry_witness :
  exists p sf,
    xorfs_open_source_files (Some ex_same_output_directory) = Returns (0, p)
    /\ sf_name sf = str "c-2.xor"
    /\ xorfs_operation_read ex_uninit 2 p (str "c-2.dat") (zeroes 8) 8 0
       = xorfs_read_backup ex_uninit 2 (reachable_entries p) (open_streams p) sf
           (zeroes 8) 0 8.
Proof.
  eexists. eexists. split; [vm_compute; reflexivity|].
  split;
    [instantiate (1 := {| sf_name := str "c-2.xor";
                          file_descriptor := Some 1%nat;
                          stat := {| st_size := 8; st_mtime := 0 |};
                          backup := {| name := str "c"; number := 2;
                                       xor_against_number := 0;
                                       xor_against_source_file := None;
                                       time := 0;
                                       output_file_name := str "c-2.dat" |} |});
     reflexivity|].
  apply (read_of_name_reads_first_entry ex_uninit 2 _ (str "c-2.dat") (zeroes 8)
           8 0 1%nat).
  - vm_compute. reflexivity.
  - reflexivity.
  - intros [|[|j]] sf' Hj Hn; [|lia|lia].
    vm_compute in Hn. inversion Hn; subst. vm_compute. discriminate.
Defined.

(** X24 and X25 on the two-entry table. *)
Lemma listed_names_have_attributes_witness :
  exists st',
    xorfs_operation_getattr ex_environment ex_cells (str "/c-2.dat") ex_attributes
    = Returns (0, st').
Proof.
  apply (listed_names_have_attributes ex_environment ex_cells (str "c-2.dat")).
  - vm_compute. do 3 right. left. reflexivity.
  - discriminate.
  - discriminate.
Defined.

Lemma attributes_of_unknown_name_witness :
  xorfs_operation_getattr ex_environment ex_cells (str "/c-9.dat") ex_attributes
  = Returns (- ENOENT, ex_attributes).
Proof.
  apply (attributes_of_unknown_name ex_environment ex_cells (str "c-9.dat"));
    try discriminate.
  intros sf [<-|[<-|[]]]; vm_compute; discriminate.
Defined.

(** X26 on [c-2.dat] after the build of the directory with [c-1.xor]
    and [c-2x1.xor]. *)
Lemma attributes_are_those_of_the_own_file_witness :
  exists p st',
    xorfs_open_source_files (Some ex_chain_directory) = Returns (0, p)
    /\ xorfs_operation_getattr ex_environment (reachable_entries p)
         (str "/c-2.dat") ex_attributes
       = Returns (0, st')
    /\ a_size st' = 8.
Proof.
  eexists. eexists. split; [vm_compute; reflexivity|].
  split; [|shelve].
  eapply (attributes_are_those_of_the_own_file ex_environment ex_chain_directory
            _ (str "c-2.dat") 1%nat (regular "c-2x1.xor" ex_D));
    try solve [vm_compute; reflexivity | discriminate].
  Unshelve. reflexivity.
Defined.

(** X27 on the arguments [-f], the source directory, the mount point. *)
Lemma first_non_option_is_the_source_directory_witness :
  process_arguments None
    ([(str "-f", -1)] ++ (str "/backups", FUSE_OPT_KEY_NONOPT) :: [(str "/mnt", -2)])
  = ([(str "-f", -1)] ++ [(str "/mnt", -2)], Some (str "/backups")).
Proof.
  apply (first_non_option_is_the_source_directory [(str "-f", -1)]
           [(str "/mnt", -2)] (str "/backups")).
  intros a [<-|[]]. discriminate.
Defined.

(** X28 on the directory where two files give [c-2.dat]. *)
Lemma listing_after_build_witness :
  exists p names,
    xorfs_open_source_files (Some ex_same_output_directory) = Returns (0, p)
    /\ xorfs_operation_readdir (reachable_entries p) (str "/") []
       = (0, [str "."; str ".."] ++ names ++ [XORFS_DEBUG_FILE_NAME])
    /\ List.length names = 3%nat.
Proof.
  eexists.
  match goal with
  | |- exists names, xorfs_open_source_files ?d = Returns (0, ?p) /\ _ =>
      assert (H : xorfs_open_source_files d = Returns (0, p))
        by (vm_compute; reflexivity)
  end.
  destruct (listing_after_build _ _ H) as (names & H1 & H2 & _).
  exists names. split; [exact H|]. split; [exact H1 | exact H2].
Defined.

(** X29 on the directory with the missing backup 3. *)
Lemma every_failure_releases_everything_witness :
  exists p,
    xorfs_open_source_files (Some ex_broken_directory) = Returns (6, p)
    /\ Forall closed (open_streams p)
    /\ main (Some ex_broken_directory) = Exits 1 p.
Proof.
  eexists. split; [vm_compute; reflexivity|].
  match goal with
  | |- Forall closed (open_streams ?p) /\ _ =>
      destruct (every_failure_releases_everything ex_broken_directory 6 p)
        as (H1 & _ & _ & H2); [vm_compute; reflexivity | discriminate |]
  end.
  split; assumption.
Defined.

(** X30 on the image that is xored against itself. *)
Lemma read_in_a_cycle_never_returns_witness :
  xorfs_read_backup ex_uninit 1000 [ex_self] [stream_of ex_B] ex_self
    (zeroes 8) 0 8
  = OutOfFuel.
Proof.
  apply (read_in_a_cycle_never_returns ex_uninit [ex_self] [stream_of ex_B]
           (fun sf => sf = ex_self) 0); try reflexivity; try lia.
  - intros sf ->. split; [discriminate|].
    exists 0%nat, ex_B, 0%nat, ex_self. repeat split; reflexivity.
  - unfold INT_MAX. simpl. lia.
Defined.

End MoreExamples.
